(** * The Dialogflow connector of Botium: a shallow embedding of [index.js]

    The connector class [BotiumConnectorDialogflow] is modelled with explicit
    state passing.  JavaScript values that come from the test framework (the
    capabilities and the user message) are dynamic and are modelled by the
    type [value]; what the Dialogflow SDK returns is typed by its protobuf
    schema and is modelled by records.  Everything the connector only calls
    (the JavaScript number type, [JSON.parse], the SDK's path builders, the
    [mime-types] lookup, the [structjson] codec) is an interface, [Host]. *)

From Stdlib Require Import ZArith Ascii String DecimalString.
From stdpp Require Import gmap strings list fin_maps sorting.

Set Warnings "-register-all,-clear-no-such-hyp".

Local Open Scope Z_scope.
Local Open Scope nat_scope.
Local Open Scope string_scope.
Local Open Scope list_scope.

(** ** JavaScript values *)

(** Plain data as a test script or a JSON configuration can supply it, plus
    the one primitive whose conversion to a string throws.  Objects are plain
    objects (no accessors, no own [toString]); their fields are listed in
    property enumeration order. *)
Inductive value (number : Type) : Type :=
  | VUndefined
  | VNull
  | VBool (b : bool)
  | VNum (n : number)
  | VStr (s : string)
  | VSymbol
  | VArr (elements : list (value number))
  | VObj (fields : list (string * value number)).

Arguments VUndefined {number}.
Arguments VNull {number}.
Arguments VBool {number} b.
Arguments VNum {number} n.
Arguments VStr {number} s.
Arguments VSymbol {number}.
Arguments VArr {number} elements.
Arguments VObj {number} fields.

(** ** Protobuf [Value] and [Struct] as the SDK hands them over *)

(** The value stored under [field[field.kind]] for the four scalar kinds: a
    number, a string, a boolean, or nothing ([null] or [undefined]). *)
Inductive scalar (number : Type) : Type :=
  | SNil
  | SNum (n : number)
  | SStr (s : string)
  | SBool (b : bool).

Arguments SNil {number}.
Arguments SNum {number} n.
Arguments SStr {number} s.
Arguments SBool {number} b.

Inductive scalar_kind := numberValue | stringValue | boolValue | nullValue.

(** A protobuf [Value], by its [kind].  [ListValue None] is a list value whose
    [values] property is missing; [OtherKind] is any kind the connector does
    not know. *)
Inductive field (number : Type) : Type :=
  | Scalar (kind : scalar_kind) (v : scalar number)
  | StructValue (fields : list (string * field number))
  | ListValue (values : option (list (field number)))
  | OtherKind (kind : string).

Arguments Scalar {number} kind v.
Arguments StructValue {number} fields.
Arguments ListValue {number} values.
Arguments OtherKind {number} kind.

(** A protobuf [Struct]: an object whose [fields] property may be missing. *)
Record Struct (number : Type) : Type := mkStruct {
  fields : option (list (string * field number))
}.

Arguments mkStruct {number} fields.
Arguments fields {number} s.

(** ** What the connector calls but does not define *)

Class Host := {
  (** the JavaScript number type, its [ToString] and its [ToBoolean] *)
  number : Type;
  number_to_string : number → string;
  number_truthy : number → bool;
  (** [JSON.parse] on a string; [None] is a [SyntaxError] *)
  JSON_parse : string → option (value number);
  (** the message the engine puts into a [TypeError] raised at a site *)
  type_error_message : string → string;
  (** [mime.lookup]; [None] is its result [false] *)
  mime_lookup : string → option string;
  (** [ContextsClient.contextPath(project, session, context)] *)
  contextPath : value number → value number → value number → string;
  (** [SessionsClient.sessionPath(project, session)] *)
  sessionPath_of : value number → value number → string;
  (** the two functions of the module [./structjson] *)
  jsonToStructProto : value number → Struct number;
  structProtoToJson : Struct number → value number
}.

(** ** Errors, completions, promises *)

Inductive error :=
  | Error (message : string)
  | TypeError (site : string).

(** [err.message] *)
Definition message_of `{Host} (e : error) : string :=
  match e with
  | Error m => m
  | TypeError site => type_error_message site
  end.

(** How a call ends: it returns, or it throws synchronously. *)
Inductive completion (A : Type) : Type :=
  | Return (a : A)
  | Throw (e : error).

Arguments Return {A} a.
Arguments Throw {A} e.

#[export] Instance completion_ret : MRet completion := fun A a => Return a.

#[export] Instance completion_bind : MBind completion := fun A B k c =>
  match c with
  | Return a => k a
  | Throw e => Throw e
  end.

(** A settled promise without a value. *)
Inductive promise :=
  | Resolved
  | Rejected (e : error).

(** ** Strings *)

(** Decimal numeral of an array index. *)
Definition index_to_string (i : nat) : string :=
  NilEmpty.string_of_uint (Nat.to_uint i).

(** ** The result of [parseInt] *)

(** [parseInt] yields [NaN] or an integer.  [Int z] carries the exact integer
    read; the rounding to a double that JavaScript applies to integers beyond
    2^53 is not represented. *)
Inductive lifespan :=
  | NaN
  | Int (z : Z).

(** [StrWhiteSpaceChar]: strings are byte strings in UTF-8, so the white space
    and line terminator code points are the byte sequences below. *)
Fixpoint skip_white_space (s : string) : string :=
  match s with
  | String a r =>
      let n := nat_of_ascii a in
      if (Nat.leb 9 n && Nat.leb n 13) || Nat.eqb n 32 then skip_white_space r
      else
        match r with
        | String b r2 =>
            let m := nat_of_ascii b in
            if Nat.eqb n 194 && Nat.eqb m 160 then skip_white_space r2
            else
              match r2 with
              | String c r3 =>
                  let k := nat_of_ascii c in
                  if (Nat.eqb n 225 && Nat.eqb m 154 && Nat.eqb k 128)
                     || (Nat.eqb n 226 && Nat.eqb m 128
                         && ((Nat.leb 128 k && Nat.leb k 138)
                             || Nat.eqb k 168 || Nat.eqb k 169 || Nat.eqb k 175))
                     || (Nat.eqb n 226 && Nat.eqb m 129 && Nat.eqb k 159)
                     || (Nat.eqb n 227 && Nat.eqb m 128 && Nat.eqb k 128)
                     || (Nat.eqb n 239 && Nat.eqb m 187 && Nat.eqb k 191)
                  then skip_white_space r3
                  else s
              | EmptyString => s
              end
        | EmptyString => s
        end
  | EmptyString => s
  end.

(** The value of a character as a digit in radix up to 36. *)
Definition digit_value (a : ascii) : option Z :=
  let n := nat_of_ascii a in
  if Nat.leb 48 n && Nat.leb n 57 then Some (Z.of_nat (n - 48))
  else if Nat.leb 97 n && Nat.leb n 122 then Some (Z.of_nat (n - 87))
  else if Nat.leb 65 n && Nat.leb n 90 then Some (Z.of_nat (n - 55))
  else None.

(** The longest prefix of digits of the radix, read as an integer; [None] when
    the string does not start with a digit. *)
Fixpoint read_digits (radix : Z) (acc : option Z) (s : string) : option Z :=
  match s with
  | String a r =>
      match digit_value a with
      | Some d =>
          if Z.ltb d radix
          then read_digits radix (Some (radix * default 0%Z acc + d)%Z) r
          else acc
      | None => acc
      end
  | EmptyString => acc
  end.

(** [parseInt(string)] without a radix argument. *)
Definition parseInt_string (s : string) : lifespan :=
  let s1 := skip_white_space s in
  let '(negative, s2) :=
    match s1 with
    | String "-" r => (true, r)
    | String "+" r => (false, r)
    | _ => (false, s1)
    end in
  let '(radix, s3) :=
    match s2 with
    | String "0" (String "x" r) => (16%Z, r)
    | String "0" (String "X" r) => (16%Z, r)
    | _ => (10%Z, s2)
    end in
  match read_digits radix None s3 with
  | None => NaN
  | Some z => Int (if negative then - z else z)%Z
  end.

Section JavaScript.
Context `{Host}.

Local Abbreviation val := (value number).

(** [ToBoolean] *)
Definition truthy (v : val) : bool :=
  match v with
  | VUndefined | VNull => false
  | VBool b => b
  | VNum n => number_truthy n
  | VStr s => negb (String.eqb s "")
  | VSymbol | VArr _ | VObj _ => true
  end.

(** [ToString]; [None] when the conversion throws a [TypeError], which it
    does exactly on a symbol (also one met while joining an array). *)
Fixpoint to_string (v : val) : option string :=
  match v with
  | VUndefined => Some "undefined"
  | VNull => Some "null"
  | VBool b => Some (if b then "true" else "false")
  | VNum n => Some (number_to_string n)
  | VStr s => Some s
  | VSymbol => None
  | VArr l =>
      (fix join (l : list val) : option string :=
         match l with
         | [] => Some ""
         | x :: r =>
             let sx :=
               match x with
               | VUndefined | VNull => Some ""
               | _ => to_string x
               end in
             match r with
             | [] => sx
             | _ => s ← sx; t ← join r; Some (s +:+ "," +:+ t)
             end
         end) l
  | VObj _ => Some "[object Object]"
  end.

(** [parseInt(v)]: the argument is converted to a string first. *)
Definition parseInt (v : val) : completion lifespan :=
  match to_string v with
  | Some s => Return (parseInt_string s)
  | None => Throw (TypeError "ToString")
  end.

(** lodash's [_.isArray], [_.isBoolean], [_.isString], [_.isObject] *)
Definition isArray (v : val) : bool := match v with VArr _ => true | _ => false end.
Definition isBoolean (v : val) : bool := match v with VBool _ => true | _ => false end.
Definition isString (v : val) : bool := match v with VStr _ => true | _ => false end.
Definition isObject (v : val) : bool :=
  match v with VArr _ | VObj _ => true | _ => false end.

End JavaScript.

(** ** Objects as property lists *)

(** [o[k] = v]: an existing property keeps its place, a new one goes last. *)
Fixpoint set_prop {A} (o : list (string * A)) (k : string) (v : A) : list (string * A) :=
  match o with
  | [] => [(k, v)]
  | (k', v') :: r =>
      if String.eqb k' k then (k', v) :: r else (k', v') :: set_prop r k v
  end.

(** [Object.assign(target, src)] on the own enumerable properties of [src]. *)
Definition assign {A} (target src : list (string * A)) : list (string * A) :=
  fold_left (fun o kv => set_prop o kv.1 kv.2) src target.

(** [o[k]], [None] when [o] has no such property. *)
Fixpoint get_prop {A} (o : list (string * A)) (k : string) : option A :=
  match o with
  | [] => None
  | (k', v) :: r => if String.eqb k' k then Some v else get_prop r k
  end.

(** The one-character strings of a string, as its index properties hold them. *)
Fixpoint characters (s : string) : list string :=
  match s with
  | EmptyString => []
  | String a r => String a EmptyString :: characters r
  end.

(** ** Capabilities *)

Definition DIALOGFLOW_PROJECT_ID : string := "DIALOGFLOW_PROJECT_ID".
Definition DIALOGFLOW_CLIENT_EMAIL : string := "DIALOGFLOW_CLIENT_EMAIL".
Definition DIALOGFLOW_PRIVATE_KEY : string := "DIALOGFLOW_PRIVATE_KEY".
Definition DIALOGFLOW_LANGUAGE_CODE : string := "DIALOGFLOW_LANGUAGE_CODE".
Definition DIALOGFLOW_INPUT_CONTEXT_NAME : string := "DIALOGFLOW_INPUT_CONTEXT_NAME".
Definition DIALOGFLOW_INPUT_CONTEXT_LIFESPAN : string := "DIALOGFLOW_INPUT_CONTEXT_LIFESPAN".
Definition DIALOGFLOW_INPUT_CONTEXT_PARAMETERS : string := "DIALOGFLOW_INPUT_CONTEXT_PARAMETERS".
Definition DIALOGFLOW_OUTPUT_PLATFORM : string := "DIALOGFLOW_OUTPUT_PLATFORM".
Definition DIALOGFLOW_FORCE_INTENT_RESOLUTION : string := "DIALOGFLOW_FORCE_INTENT_RESOLUTION".
Definition DIALOGFLOW_BUTTON_EVENTS : string := "DIALOGFLOW_BUTTON_EVENTS".
Definition DIALOGFLOW_ENABLE_KNOWLEDGEBASE : string := "DIALOGFLOW_ENABLE_KNOWLEDGEBASE".
Definition DIALOGFLOW_FALLBACK_INTENTS : string := "DIALOGFLOW_FALLBACK_INTENTS".

(** The UTF-16 code units of a string, which is held here as its UTF-8 bytes:
    one unit for a character of one, two or three bytes, a surrogate pair for
    a character of four bytes.  A byte that starts no complete sequence (no
    JavaScript string gives one) is taken as a unit of its own. *)
Fixpoint code_units (s : string) : list N :=
  match s with
  | EmptyString => []
  | String a r =>
      let x := N_of_ascii a in
      let low (b : ascii) : N := (N_of_ascii b mod 64)%N in
      if (x <? 192)%N then x :: code_units r
      else if (x <? 224)%N then
        match r with
        | String b r1 => ((x - 192) * 64 + low b)%N :: code_units r1
        | EmptyString => [x]
        end
      else if (x <? 240)%N then
        match r with
        | String b (String c r2) =>
            ((x - 224) * 4096 + low b * 64 + low c)%N :: code_units r2
        | _ => x :: code_units r
        end
      else
        match r with
        | String b (String c (String d r3)) =>
            let point :=
              ((x - 240) * 262144 + low b * 4096 + low c * 64 + low d)%N in
            (55296 + (point - 65536) / 1024)%N
            :: (56320 + (point - 65536) mod 1024)%N :: code_units r3
        | _ => x :: code_units r
        end
  end.

(** The comparison of two strings by their code units, the first difference
    deciding and a proper prefix coming first. *)
Fixpoint units_leb (l1 l2 : list N) : bool :=
  match l1, l2 with
  | [], _ => true
  | _ :: _, [] => false
  | x :: r1, y :: r2 =>
      if (x <? y)%N then true
      else if (y <? x)%N then false
      else units_leb r1 r2
  end.

(** The order of [Array.prototype.sort] without a comparator: the strings are
    compared by their UTF-16 code units. *)
Definition string_le (a b : string) : Prop :=
  units_leb (code_units a) (code_units b) = true.

#[export] Instance string_le_dec (a b : string) : Decision (string_le a b).
Proof. unfold string_le. apply _. Defined.

(** [key.substring(n)] *)
Fixpoint string_drop (n : nat) (s : string) : string :=
  match n, s with
  | S m, String _ r => string_drop m r
  | _, _ => s
  end.

(** The SDK clients are represented by the API version they speak. *)
Inductive client := V2 | V2beta1.

Section Connector.
Context `{Host}.

Local Abbreviation val := (value number).

(** The own enumerable properties of a value, as [Object.assign] and
    [_.keys] see them: the fields of an object, the elements of an array and
    the characters of a string under their indices, nothing otherwise. *)
Definition own_props (v : val) : list (string * val) :=
  match v with
  | VObj fs => fs
  | VArr l => imap (fun i x => (index_to_string i, x)) l
  | VStr s => imap (fun i x => (index_to_string i, VStr x)) (characters s)
  | _ => []
  end.

(** [v.k] for a property name [k] that is not an array index: only a plain
    object can have it. *)
Definition member (v : val) (k : string) : val :=
  match v with
  | VObj fs => default VUndefined (get_prop fs k)
  | _ => VUndefined
  end.

(** [a || b] *)
Definition js_or (a b : val) : val := if truthy a then a else b.

Definition Defaults : gmap string val :=
  list_to_map
    [ (DIALOGFLOW_LANGUAGE_CODE, VStr "en-US");
      (DIALOGFLOW_FORCE_INTENT_RESOLUTION, VBool true);
      (DIALOGFLOW_BUTTON_EVENTS, VBool true);
      (DIALOGFLOW_ENABLE_KNOWLEDGEBASE, VBool false);
      (DIALOGFLOW_FALLBACK_INTENTS, VArr [VStr "Default Fallback Intent"]) ].

(** [caps[k]] *)
Definition cap (caps : gmap string val) (k : string) : val :=
  default VUndefined (caps !! k).

(** ** Contexts and the connector's state *)

Record Context := mkContext {
  ctx_name : string;
  ctx_lifespanCount : lifespan;
  ctx_parameters : option (Struct number)
}.

(** [this.queryParams]: an object that may hold [contexts] and
    [knowledgeBaseNames]. *)
Record QueryParams := mkQueryParams {
  contexts : option (list Context);
  knowledgeBaseNames : option (list val)
}.

Record Connector := mkConnector {
  caps : gmap string val;
  sessionOpts : option (val * val);
  conversationId : val;
  queryParams : option QueryParams;
  kbNames : option (list val);
  sessionClient : option client;
  sessionPath : val;
  contextClient : option client
}.

(** The instance the constructor makes. *)
Definition constructor (caps0 : gmap string val) : Connector :=
  {| caps := caps0; sessionOpts := None; conversationId := VUndefined;
     queryParams := None; kbNames := None; sessionClient := None;
     sessionPath := VUndefined; contextClient := None |}.

Definition with_caps (c : Connector) (x : gmap string val) : Connector :=
  {| caps := x; sessionOpts := sessionOpts c; conversationId := conversationId c;
     queryParams := queryParams c; kbNames := kbNames c;
     sessionClient := sessionClient c; sessionPath := sessionPath c;
     contextClient := contextClient c |}.

Definition with_queryParams (c : Connector) (x : option QueryParams) : Connector :=
  {| caps := caps c; sessionOpts := sessionOpts c; conversationId := conversationId c;
     queryParams := x; kbNames := kbNames c;
     sessionClient := sessionClient c; sessionPath := sessionPath c;
     contextClient := contextClient c |}.

Definition with_kbNames (c : Connector) (x : option (list val)) : Connector :=
  {| caps := caps c; sessionOpts := sessionOpts c; conversationId := conversationId c;
     queryParams := queryParams c; kbNames := x;
     sessionClient := sessionClient c; sessionPath := sessionPath c;
     contextClient := contextClient c |}.

(** ** [_getContextSuffixes] *)

Definition _getContextSuffixes (c : Connector) : list string :=
  let contextNameCaps :=
    filter (fun k => String.prefix DIALOGFLOW_INPUT_CONTEXT_NAME k = true)
           (map_to_list (caps c)).*1 in
  string_drop (String.length DIALOGFLOW_INPUT_CONTEXT_NAME)
    <$> merge_sort string_le contextNameCaps.

(** ** [Validate] *)

(** The test of the [forEach] body for one suffix. *)
Definition suffix_incomplete (caps : gmap string val) (contextSuffix : string) : bool :=
  negb (truthy (cap caps (DIALOGFLOW_INPUT_CONTEXT_NAME +:+ contextSuffix)))
  || negb (truthy (cap caps (DIALOGFLOW_INPUT_CONTEXT_LIFESPAN +:+ contextSuffix))).

Definition suffix_error (contextSuffix : string) : error :=
  Error ("DIALOGFLOW_INPUT_CONTEXT_NAME" +:+ contextSuffix
         +:+ " and DIALOGFLOW_INPUT_CONTEXT_LIFESPAN" +:+ contextSuffix
         +:+ " capability required").

(** The operand of [_.isBoolean] on line 50:
    [kb && !_.isString(kb)]. *)
Definition knowledgebase_operand (kb : val) : val :=
  if truthy kb then VBool (negb (isString kb)) else kb.

Definition Validate (c : Connector) : Connector * completion promise :=
  let c1 := with_caps c (caps c ∪ Defaults) in
  if negb (truthy (cap (caps c1) DIALOGFLOW_PROJECT_ID))
  then (c1, Throw (Error "DIALOGFLOW_PROJECT_ID capability required"))
  else if negb (truthy (cap (caps c1) DIALOGFLOW_CLIENT_EMAIL))
  then (c1, Throw (Error "DIALOGFLOW_CLIENT_EMAIL capability required"))
  else if negb (truthy (cap (caps c1) DIALOGFLOW_PRIVATE_KEY))
  then (c1, Throw (Error "DIALOGFLOW_PRIVATE_KEY capability required"))
  else
    let kb := cap (caps c1) DIALOGFLOW_ENABLE_KNOWLEDGEBASE in
    if negb (isArray kb) && negb (isBoolean (knowledgebase_operand kb))
    then (c1, Throw (Error "DIALOGFLOW_ENABLE_KNOWLEDGEBASE capability has to be an array of knowledge base identifiers, or a boolean"))
    else
      let c2 :=
        match kb with
        | VStr s =>
            with_caps c1 (<[DIALOGFLOW_ENABLE_KNOWLEDGEBASE := VBool (String.eqb s "true")]>
                            (caps c1))
        | _ => c1
        end in
      match List.find (suffix_incomplete (caps c2)) (_getContextSuffixes c2) with
      | Some contextSuffix => (c2, Throw (suffix_error contextSuffix))
      | None => (c2, Return Resolved)
      end.

(** ** [Build], [Stop], [Clean] *)

Definition Build (c : Connector) : Connector * completion promise :=
  ({| caps := caps c;
      sessionOpts := Some (cap (caps c) DIALOGFLOW_CLIENT_EMAIL,
                           cap (caps c) DIALOGFLOW_PRIVATE_KEY);
      conversationId := conversationId c; queryParams := queryParams c;
      kbNames := kbNames c; sessionClient := sessionClient c;
      sessionPath := sessionPath c; contextClient := contextClient c |},
   Return Resolved).

Definition Stop (c : Connector) : Connector * completion promise :=
  ({| caps := caps c; sessionOpts := sessionOpts c;
      conversationId := conversationId c; queryParams := None;
      kbNames := kbNames c; sessionClient := None;
      sessionPath := VNull; contextClient := contextClient c |},
   Return Resolved).

Definition Clean (c : Connector) : Connector * completion promise :=
  ({| caps := caps c; sessionOpts := None;
      conversationId := conversationId c; queryParams := queryParams c;
      kbNames := kbNames c; sessionClient := sessionClient c;
      sessionPath := sessionPath c; contextClient := contextClient c |},
   Return Resolved).

(** ** Building contexts *)

Definition _createInitialContext (c : Connector) (contextSuffix : string)
  : completion Context :=
  let name :=
    contextPath (cap (caps c) DIALOGFLOW_PROJECT_ID) (conversationId c)
      (cap (caps c) (DIALOGFLOW_INPUT_CONTEXT_NAME +:+ contextSuffix)) in
  lifespanCount ← parseInt (cap (caps c) (DIALOGFLOW_INPUT_CONTEXT_LIFESPAN +:+ contextSuffix));
  let parameters := cap (caps c) (DIALOGFLOW_INPUT_CONTEXT_PARAMETERS +:+ contextSuffix) in
  Return {| ctx_name := name;
            ctx_lifespanCount := lifespanCount;
            ctx_parameters :=
              if truthy parameters then Some (jsonToStructProto parameters) else None |}.

(** The [try]/[catch] around [parseInt] on lines 314 to 318. *)
Definition custom_lifespan (contextLifespan : val) : lifespan :=
  match parseInt contextLifespan with
  | Return n => n
  | Throw _ => Int 1
  end.

Definition _createCustomContext (c : Connector)
    (contextName : string) (contextLifespan contextParameters : val)
  : completion Context :=
  match contextClient c with
  | None => Throw (TypeError "this.contextClient.contextPath")
  | Some _ =>
      let contextPath :=
        contextPath (cap (caps c) DIALOGFLOW_PROJECT_ID) (conversationId c)
          (VStr contextName) in
      Return {| ctx_name := contextPath;
                ctx_lifespanCount := custom_lifespan contextLifespan;
                ctx_parameters :=
                  if truthy contextParameters
                  then Some (jsonToStructProto contextParameters) else None |}
  end.

(** ** The user message *)

Record Button := mkButton {
  btn_text : val;
  btn_payload : val
}.

Record Msg := mkMsg {
  messageText : val;
  buttons : option (list Button);
  SET_DIALOGFLOW_CONTEXT : val;
  SET_DIALOGFLOW_QUERYPARAMS : val
}.

Definition _extractCustomContexts (c : Connector) (msg : Msg)
  : completion (list Context) :=
  if truthy (SET_DIALOGFLOW_CONTEXT msg) then
    mapM (fun kv : string * val =>
            let (contextName, val) := kv in
            if isObject val
            then _createCustomContext c contextName
                   (member val "lifespan") (member val "parameters")
            else _createCustomContext c contextName val VUndefined)
         (own_props (SET_DIALOGFLOW_CONTEXT msg))
  else Return [].

(** ** [Start] *)

(** How [listKnowledgeBases] settles: with the names of the resources it found
    (or without a resource list), or with an error. *)
Inductive kb_listing :=
  | KbResolves (resources : option (list string))
  | KbRejects (e : error).

Definition Start (c : Connector) (uuid : string) (listKnowledgeBases : kb_listing)
  : Connector * promise :=
  let c1 :=
    {| caps := caps c; sessionOpts := sessionOpts c;
       conversationId := VStr uuid;
       queryParams := Some {| contexts := None; knowledgeBaseNames := None |};
       kbNames := kbNames c; sessionClient := sessionClient c;
       sessionPath := sessionPath c; contextClient := contextClient c |} in
  let kb := cap (caps c1) DIALOGFLOW_ENABLE_KNOWLEDGEBASE in
  let listed : Connector + error :=
    if isBoolean kb && truthy kb then
      match listKnowledgeBases with
      | KbResolves resources => inl (with_kbNames c1 (map VStr <$> resources))
      | KbRejects e => inr e
      end
    else
      match kb with
      | VArr names => inl (with_kbNames c1 (Some names))
      | _ => inl c1
      end in
  match listed with
  | inr e => (c1, Rejected e)
  | inl c2 =>
      let useKnowledgeBases :=
        match kbNames c2 with Some (_ :: _) => true | _ => false end in
      let c3 :=
        {| caps := caps c2; sessionOpts := sessionOpts c2;
           conversationId := conversationId c2;
           queryParams :=
             if useKnowledgeBases
             then Some {| contexts := None; knowledgeBaseNames := kbNames c2 |}
             else queryParams c2;
           kbNames := kbNames c2;
           sessionClient := Some (if useKnowledgeBases then V2beta1 else V2);
           sessionPath :=
             VStr (sessionPath_of (cap (caps c2) DIALOGFLOW_PROJECT_ID)
                     (conversationId c2));
           contextClient := Some V2 |} in
      match mapM (_createInitialContext c3) (_getContextSuffixes c3) with
      | Throw e => (c3, Rejected e)
      | Return initial =>
          (with_queryParams c3
             (Some {| contexts := Some initial; knowledgeBaseNames := None |}),
           Resolved)
      end
  end.

(** ** The request *)

Inductive QueryInput :=
  | QueryText (text : val) (languageCode : val)
  | QueryEvent (event : list (string * val)).

(** What a property of [request.queryParams] can hold. *)
Inductive qvalue :=
  | QContexts (l : list Context)
  | QNames (l : list val)
  | QVal (v : val).

Record Request := mkRequest {
  session : val;
  queryInput : QueryInput;
  req_queryParams : list (string * qvalue)
}.

(** Lines 119 to 135: an event query for a pressed button, a text query
    otherwise. *)
Definition queryInput_of (caps : gmap string val) (msg : Msg) : QueryInput :=
  let languageCode := cap caps DIALOGFLOW_LANGUAGE_CODE in
  let text_query := QueryText (messageText msg) languageCode in
  if truthy (cap caps DIALOGFLOW_BUTTON_EVENTS) then
    match buttons msg with
    | Some (b :: _) =>
        if truthy (js_or (btn_text b) (btn_payload b)) then
          let payload := js_or (btn_payload b) (btn_text b) in
          match to_string payload ≫= JSON_parse with
          | Some parsed =>
              QueryEvent (assign (assign [] [("languageCode", languageCode)])
                                 (own_props parsed))
          | None =>
              QueryEvent [("name", payload); ("languageCode", languageCode)]
          end
        else text_query
    | _ => text_query
    end
  else text_query.

(** The own enumerable properties of [this.queryParams]. *)
Definition queryParams_props (q : option QueryParams) : list (string * qvalue) :=
  match q with
  | None => []
  | Some q =>
      match contexts q with Some l => [("contexts", QContexts l)] | None => [] end
      ++ match knowledgeBaseNames q with
         | Some l => [("knowledgeBaseNames", QNames l)]
         | None => []
         end
  end.

(** Lines 139 to 146, for one custom context: [findIndex] by name, then
    replace at the index or push. *)
Definition merge_context (contexts : list Context) (customContext : Context)
  : list Context :=
  match list_find (fun c => ctx_name c = ctx_name customContext) contexts with
  | Some (index, _) => <[index := customContext]> contexts
  | None => contexts ++ [customContext]
  end.

Definition merge_contexts (contexts customContexts : list Context) : list Context :=
  fold_left merge_context customContexts contexts.

(** The [forEach] over the custom contexts on the state: it touches
    [this.queryParams.contexts] only when there is a custom context. *)
Definition merge_custom (c : Connector) (customContexts : list Context)
  : completion Connector :=
  match customContexts with
  | [] => Return c
  | _ =>
      match queryParams c with
      | None => Throw (TypeError "this.queryParams.contexts")
      | Some q =>
          match contexts q with
          | None => Throw (TypeError "this.queryParams.contexts.findIndex")
          | Some l =>
              Return (with_queryParams c
                        (Some {| contexts := Some (merge_contexts l customContexts);
                                 knowledgeBaseNames := knowledgeBaseNames q |}))
          end
      end
  end.

(** Lines 148 to 153. *)
Definition request_queryParams (c : Connector) (msg : Msg) : list (string * qvalue) :=
  let mergeQueryParams :=
    if truthy (SET_DIALOGFLOW_QUERYPARAMS msg)
    then assign [] (own_props (SET_DIALOGFLOW_QUERYPARAMS msg))
    else [] in
  assign (assign [] (queryParams_props (queryParams c)))
         (prod_map id QVal <$> mergeQueryParams).

(** ** The response *)

Record Intent := mkIntent {
  displayName : string
}.

Record OutputContext := mkOutputContext {
  oc_name : string;
  oc_lifespanCount : number;
  oc_parameters : Struct number
}.

Record Text := mkText { text_text : list string }.
Record SimpleResponse := mkSimpleResponse { textToSpeech : string }.
Record Image := mkImage { imageUri : string; accessibilityText : string }.
Record CardButton := mkCardButton { cb_text : string; cb_postback : string }.
Record Card := mkCard {
  card_title : string;
  card_imageUri : string;
  card_buttons : list CardButton
}.
Record BasicCardButton := mkBasicCardButton {
  bcb_title : string;
  bcb_openUriAction : option string
}.
Record BasicCard := mkBasicCard {
  bc_title : string;
  bc_image : option Image;
  bc_buttons : list BasicCardButton
}.
Record Item := mkItem {
  item_title : string;
  item_description : string;
  item_image : option Image;
  item_info : option string
}.
Record ListSelect := mkListSelect { ls_title : string; ls_items : list Item }.
Record Suggestion := mkSuggestion { sg_title : string }.
Record LinkOutSuggestion := mkLinkOutSuggestion {
  destinationName : string;
  lo_uri : string
}.

(** A fulfillment message: every response variant is a property that is set
    or not; the wrappers [simpleResponses.simpleResponses],
    [quickReplies.quickReplies], [carouselSelect.items] and
    [suggestions.suggestions] are the lists themselves, and
    [item_info] is [item.info.key]. *)
Record FulfillmentMessage := mkFulfillmentMessage {
  platform : option string;
  fm_text : option Text;
  simpleResponses : option (list SimpleResponse);
  fm_image : option Image;
  quickReplies : option (list string);
  card : option Card;
  basicCard : option BasicCard;
  listSelect : option ListSelect;
  carouselSelect : option (list Item);
  suggestions : option (list Suggestion);
  linkOutSuggestion : option LinkOutSuggestion
}.

Record QueryResult := mkQueryResult {
  intent : option Intent;
  intentDetectionConfidence : number;
  parameters : option (Struct number);
  outputContexts : list OutputContext;
  fulfillmentMessages : list FulfillmentMessage
}.

Record Response := mkResponse { queryResult : QueryResult }.

(** How [detectIntent] settles. *)
Inductive detected :=
  | Resolves (response : Response)
  | Rejects (err : error).

(** ** Intent and entities *)

(** [{}] is the record without any property. *)
Record NlpIntent := mkNlpIntent {
  intent_name : option string;
  confidence : option number;
  incomprehension : option bool
}.

Record Entity := mkEntity {
  entity_name : string;
  entity_value : string
}.

Record Nlp := mkNlp {
  nlp_intent : NlpIntent;
  nlp_entities : list Entity
}.

(** [x === s] for a string [s] *)
Definition is_string (s : string) (x : val) : bool :=
  match x with
  | VStr t => String.eqb t s
  | _ => false
  end.

(** [s.includes(x)] on strings: [x] occurs in [s]. *)
Fixpoint string_includes (s x : string) : bool :=
  String.prefix x s
  || match s with
     | EmptyString => false
     | String _ r => string_includes r x
     end.

(** [list.includes(name)]: an array looks for an element, a string for a
    substring, and anything else has no such method. *)
Definition includes (list_ : val) (name : string) : completion bool :=
  match list_ with
  | VArr l => Return (existsb (is_string name) l)
  | VStr s => Return (string_includes s name)
  | _ => Throw (TypeError "this.caps.DIALOGFLOW_FALLBACK_INTENTS.includes")
  end.

Definition _extractIntent (c : Connector) (response : Response)
  : completion NlpIntent :=
  match intent (queryResult response) with
  | Some i =>
      match includes (cap (caps c) DIALOGFLOW_FALLBACK_INTENTS) (displayName i) with
      | Return fallback =>
          Return {| intent_name := Some (displayName i);
                    confidence := Some (intentDetectionConfidence (queryResult response));
                    incomprehension := if fallback then Some true else None |}
      | Throw e => Throw e
      end
  | None =>
      Return {| intent_name := None; confidence := None; incomprehension := None |}
  end.

(** [_.isNil] and the template literal on a scalar. *)
Definition scalar_isNil (v : scalar number) : bool :=
  match v with SNil => true | _ => false end.

Definition scalar_is_empty_string (v : scalar number) : bool :=
  match v with SStr s => String.eqb s "" | _ => false end.

Definition scalar_to_string (v : scalar number) : string :=
  match v with
  | SNil => "undefined"
  | SNum n => number_to_string n
  | SStr s => s
  | SBool b => if b then "true" else "false"
  end.

(** The key of a field below [keyPrefix]: the template literal of line 350. *)
Definition field_key (keyPrefix key : string) : string :=
  (if negb (String.eqb keyPrefix "") then keyPrefix +:+ "." else "") +:+ key.

(** The key of the [i]-th element of a list: the template literal of line 371. *)
Definition element_key (key : string) (i : nat) : string :=
  key +:+ "." +:+ index_to_string i.

Fixpoint _extractEntityValues (key : string) (fld : field number) : list Entity :=
  match fld with
  | Scalar _ value =>
      if negb (scalar_isNil value) && negb (scalar_is_empty_string value)
      then [ {| entity_name := key; entity_value := scalar_to_string value |} ]
      else []
  | StructValue fs =>
      (fix fromFields (entities : list Entity) (fs : list (string * field number)) :=
         match fs with
         | [] => entities
         | (k, f) :: rest =>
             fromFields (entities ++ _extractEntityValues (field_key key k) f) rest
         end) [] fs
  | ListValue (Some values) =>
      (fix fromValues (entities : list Entity) (i : nat) (values : list (field number)) :=
         match values with
         | [] => entities
         | lv :: rest =>
             fromValues (entities ++ _extractEntityValues (element_key key i) lv)
                        (S i) rest
         end) [] 0 values
  | ListValue None => []
  | OtherKind _ => []
  end.

(** The [reduce] of line 349 over the keys of [fields]. *)
Definition _extractEntitiesFromFields (keyPrefix : string)
    (fs : list (string * field number)) : list Entity :=
  fold_left
    (fun entities kf =>
       entities ++ _extractEntityValues (field_key keyPrefix kf.1) kf.2)
    fs [].

Definition _extractEntities (response : Response) : list Entity :=
  match parameters (queryResult response) with
  | Some p =>
      match fields p with
      | Some fs => _extractEntitiesFromFields "" fs
      | None => []
      end
  | None => []
  end.

(** ** The normalized bot message *)

(** In the records below [None] stands for a property that is missing or
    holds a falsy value ([undefined], [null] or the empty string). *)
Record BotImage := mkBotImage {
  mediaUri : string;
  mimeType : string;
  altText : option string
}.

Record BotButton := mkBotButton {
  bb_text : string;
  bb_payload : option string
}.

Record BotCard := mkBotCard {
  bcard_text : string;
  bcard_subtext : option string;
  bcard_image : option BotImage;
  bcard_buttons : option (list BotButton)
}.

Record BotMsg := mkBotMsg {
  sender : string;
  sourceData : QueryResult;
  nlp : Nlp;
  bm_messageText : option string;
  bm_media : option (list BotImage);
  bm_buttons : option (list BotButton);
  bm_cards : option (list BotCard)
}.

(** [{ sender: 'bot', sourceData: response.queryResult, nlp }] *)
Definition bare_botMsg (sourceData : QueryResult) (nlp : Nlp) : BotMsg :=
  {| sender := "bot"; sourceData := sourceData; nlp := nlp;
     bm_messageText := None; bm_media := None; bm_buttons := None;
     bm_cards := None |}.

Definition with_messageText (m : BotMsg) (x : option string) : BotMsg :=
  {| sender := sender m; sourceData := sourceData m; nlp := nlp m;
     bm_messageText := x; bm_media := bm_media m; bm_buttons := bm_buttons m;
     bm_cards := bm_cards m |}.

Definition with_media (m : BotMsg) (x : option (list BotImage)) : BotMsg :=
  {| sender := sender m; sourceData := sourceData m; nlp := nlp m;
     bm_messageText := bm_messageText m; bm_media := x; bm_buttons := bm_buttons m;
     bm_cards := bm_cards m |}.

Definition with_buttons (m : BotMsg) (x : option (list BotButton)) : BotMsg :=
  {| sender := sender m; sourceData := sourceData m; nlp := nlp m;
     bm_messageText := bm_messageText m; bm_media := bm_media m; bm_buttons := x;
     bm_cards := bm_cards m |}.

Definition with_cards (m : BotMsg) (x : option (list BotCard)) : BotMsg :=
  {| sender := sender m; sourceData := sourceData m; nlp := nlp m;
     bm_messageText := bm_messageText m; bm_media := bm_media m;
     bm_buttons := bm_buttons m; bm_cards := x |}.

(** [mime.lookup(uri) || 'application/unknown'] *)
Definition mime_of (uri : string) : string :=
  default "application/unknown" (mime_lookup uri).

(** A string that is kept only when it is truthy. *)
Definition nonempty (s : string) : option string :=
  if String.eqb s "" then None else Some s.

(** The card of one item of a list or a carousel (lines 221 to 230 and 232
    to 241). *)
Definition item_card (item : Item) : BotCard :=
  {| bcard_text := item_title item;
     bcard_subtext := Some (item_description item);
     bcard_image :=
       (fun i => {| mediaUri := imageUri i; mimeType := mime_of (imageUri i);
                    altText := Some (accessibilityText i) |}) <$> item_image item;
     bcard_buttons :=
       key ← item_info item; key ← nonempty key;
       Some [ {| bb_text := key; bb_payload := None |} ] |}.

(** The body of the [forEach] of line 184 up to the test of
    [acceptedResponse]: the bot message of an accepted fulfillment message,
    [None] for one that is not accepted. *)
Definition botMsg_of (botMsg : BotMsg) (fulfillmentMessage : FulfillmentMessage)
  : completion (option BotMsg) :=
  match fm_text fulfillmentMessage with
  | Some t => Return (Some (with_messageText botMsg (head (text_text t))))
  | None =>
  match simpleResponses fulfillmentMessage with
  | Some rs =>
      match rs with
      | r :: _ => Return (Some (with_messageText botMsg (Some (textToSpeech r))))
      | [] => Throw (TypeError "simpleResponses[0].textToSpeech")
      end
  | None =>
  match fm_image fulfillmentMessage with
  | Some i =>
      Return (Some (with_media botMsg
                      (Some [ {| mediaUri := imageUri i;
                                 mimeType := mime_of (imageUri i);
                                 altText := None |} ])))
  | None =>
  match quickReplies fulfillmentMessage with
  | Some qs =>
      Return (Some (with_buttons botMsg
                      (Some ((fun q => {| bb_text := q; bb_payload := None |}) <$> qs))))
  | None =>
  match card fulfillmentMessage with
  | Some cd =>
      Return (Some (with_cards (with_messageText botMsg (Some (card_title cd)))
        (Some [ {| bcard_text := card_title cd;
                   bcard_subtext := None;
                   bcard_image :=
                     (fun u => {| mediaUri := u; mimeType := mime_of u;
                                  altText := None |}) <$> nonempty (card_imageUri cd);
                   bcard_buttons :=
                     Some ((fun q => {| bb_text := cb_text q;
                                        bb_payload := Some (cb_postback q) |})
                             <$> card_buttons cd) |} ])))
  | None =>
  match basicCard fulfillmentMessage with
  | Some bc =>
      Return (Some (with_cards (with_messageText botMsg (Some (bc_title bc)))
        (Some [ {| bcard_text := bc_title bc;
                   bcard_subtext := None;
                   bcard_image :=
                     (fun i => {| mediaUri := imageUri i;
                                  mimeType := mime_of (imageUri i);
                                  altText := Some (accessibilityText i) |})
                       <$> bc_image bc;
                   bcard_buttons :=
                     Some ((fun q => {| bb_text := bcb_title q;
                                        bb_payload := bcb_openUriAction q |})
                             <$> bc_buttons bc) |} ])))
  | None =>
  match listSelect fulfillmentMessage with
  | Some ls =>
      Return (Some (with_cards (with_messageText botMsg (Some (ls_title ls)))
                      (Some (item_card <$> ls_items ls))))
  | None =>
  match carouselSelect fulfillmentMessage with
  | Some items => Return (Some (with_cards botMsg (Some (item_card <$> items))))
  | None =>
  match suggestions fulfillmentMessage with
  | Some sgs =>
      Return (Some (with_buttons botMsg
                      (Some ((fun q => {| bb_text := sg_title q; bb_payload := None |})
                               <$> sgs))))
  | None =>
  match linkOutSuggestion fulfillmentMessage with
  | Some l =>
      Return (Some (with_buttons botMsg
                      (Some [ {| bb_text := destinationName l;
                                 bb_payload := Some (lo_uri l) |} ])))
  | None => Return None
  end end end end end end end end end end.

(** The [forEach] of lines 184 to 253: the messages handed to [setTimeout]
    in order, and [forceIntentResolution] at the end or the exception that
    stopped the loop. *)
Fixpoint deliver (botMsg : BotMsg) (fulfillmentMessages : list FulfillmentMessage)
    (forceIntentResolution : bool) : list BotMsg * completion bool :=
  match fulfillmentMessages with
  | [] => ([], Return forceIntentResolution)
  | fulfillmentMessage :: rest =>
      match botMsg_of botMsg fulfillmentMessage with
      | Throw e => ([], Throw e)
      | Return None => deliver botMsg rest forceIntentResolution
      | Return (Some m) =>
          let (queued, r) := deliver botMsg rest false in (m :: queued, r)
      end
  end.

(** [f.platform === 'PLATFORM_UNSPECIFIED' || !f.platform] *)
Definition platform_unspecified (f : FulfillmentMessage) : bool :=
  match platform f with
  | Some p => String.eqb p "PLATFORM_UNSPECIFIED" || String.eqb p ""
  | None => true
  end.

(** [f.platform === outputPlatform] *)
Definition platform_is (outputPlatform : val) (f : FulfillmentMessage) : bool :=
  match platform f with
  | Some p => is_string p outputPlatform
  | None => false
  end.

(** Lines 172 to 181. *)
Definition select_fulfillmentMessages (caps : gmap string val)
    (all : list FulfillmentMessage) : list FulfillmentMessage :=
  let outputPlatform := cap caps DIALOGFLOW_OUTPUT_PLATFORM in
  let fulfillmentMessages :=
    List.filter (fun f => (truthy outputPlatform && platform_is outputPlatform f)
                          || (negb (truthy outputPlatform) && platform_unspecified f))
                all in
  match fulfillmentMessages with
  | [] => if truthy outputPlatform then List.filter platform_unspecified all
          else fulfillmentMessages
  | _ => fulfillmentMessages
  end.

(** ** [UserSays] *)

(** What a call leaves behind: the connector, the requests handed to
    [detectIntent], the bot messages handed to [queueBotSays] (through
    [setTimeout], so they arrive after the handler ran, in this order), and
    how the call ended. *)
Record Turn := mkTurn {
  after : Connector;
  sent : list Request;
  queued : list BotMsg;
  outcome : completion promise
}.

(** The [then] handler of lines 157 to 257. *)
Definition on_response (c : Connector) (response : Response)
  : Connector * list BotMsg * completion unit :=
  match queryParams c with
  | None => (c, [], Throw (TypeError "this.queryParams.contexts"))
  | Some q =>
      let c1 := with_queryParams c
                  (Some {| contexts := Some [];
                           knowledgeBaseNames := knowledgeBaseNames q |}) in
      let r := queryResult response in
      let sourceData :=
        {| intent := intent r;
           intentDetectionConfidence := intentDetectionConfidence r;
           parameters := parameters r;
           outputContexts :=
             (fun context =>
                {| oc_name := oc_name context;
                   oc_lifespanCount := oc_lifespanCount context;
                   oc_parameters :=
                     jsonToStructProto (structProtoToJson (oc_parameters context)) |})
               <$> outputContexts r;
           fulfillmentMessages := fulfillmentMessages r |} in
      let response1 := {| queryResult := sourceData |} in
      match _extractIntent c1 response1 with
      | Throw e => (c1, [], Throw e)
      | Return i =>
          let nlp := {| nlp_intent := i; nlp_entities := _extractEntities response1 |} in
          let botMsg := bare_botMsg sourceData nlp in
          let fulfillmentMessages :=
            select_fulfillmentMessages (caps c1) (fulfillmentMessages sourceData) in
          match deliver botMsg fulfillmentMessages
                  (truthy (cap (caps c1) DIALOGFLOW_FORCE_INTENT_RESOLUTION)) with
          | (queued, Throw e) => (c1, queued, Throw e)
          | (queued, Return forceIntentResolution) =>
              (c1,
               queued ++ (if forceIntentResolution then [botMsg] else []),
               Return ())
          end
      end
  end.

Definition UserSays (c : Connector) (msg : Msg) (detectIntent : Request → detected)
  : Turn :=
  match sessionClient c with
  | None =>
      {| after := c; sent := []; queued := [];
         outcome := Return (Rejected (Error "not built")) |}
  | Some _ =>
      let queryInput := queryInput_of (caps c) msg in
      match customContexts ← _extractCustomContexts c msg;
            merge_custom c customContexts with
      | Throw e => {| after := c; sent := []; queued := []; outcome := Throw e |}
      | Return c1 =>
          let request :=
            {| session := sessionPath c1;
               queryInput := queryInput;
               req_queryParams := request_queryParams c1 msg |} in
          match detectIntent request with
          | Resolves response =>
              match on_response c1 response with
              | (c2, queued, Return _) =>
                  {| after := c2; sent := [request]; queued := queued;
                     outcome := Return Resolved |}
              | (c2, queued, Throw err) =>
                  {| after := c2; sent := [request]; queued := queued;
                     outcome :=
                       Return (Rejected (Error ("Cannot send message to dialogflow container: "
                                                +:+ message_of err))) |}
              end
          | Rejects err =>
              {| after := c1; sent := [request]; queued := [];
                 outcome :=
                   Return (Rejected (Error ("Cannot send message to dialogflow container: "
                                            +:+ message_of err))) |}
          end
      end
  end.

End Connector.

(** ** A host to run the connector on examples

    Numbers are the integers, [JSON.parse] reads the JSON documents that have
    no escape sequences, fractions or exponents, paths follow the templates of
    the Dialogflow API, and the codec maps JSON to protobuf values kind by
    kind. *)
Module SampleHost.

Definition quote : ascii := ascii_of_N 34.

(** The parser reads the codes of the characters. *)
Definition codes (s : string) : list N := N_of_ascii <$> list_ascii_of_string s.

Definition is_space (n : N) : bool :=
  N.eqb n 32 || N.eqb n 9 || N.eqb n 10 || N.eqb n 13.

Definition is_digit (n : N) : bool := N.leb 48 n && N.leb n 57.

Fixpoint skip_spaces (s : list N) : list N :=
  match s with
  | a :: r => if is_space a then skip_spaces r else s
  | [] => []
  end.

(** The characters up to the closing quote of a string without escapes. *)
Fixpoint read_string (s : list N) : option (string * list N) :=
  match s with
  | [] => None
  | a :: r =>
      if N.eqb a 34 then Some (EmptyString, r)
      else if N.eqb a 92 || N.ltb a 32 then None
      else
        match read_string r with
        | Some (t, rest) => Some (String (ascii_of_N a) t, rest)
        | None => None
        end
  end.

Fixpoint read_number (acc : Z) (s : list N) : Z * list N :=
  match s with
  | a :: r =>
      if is_digit a
      then read_number (10 * acc + Z.of_N (a - 48))%Z r
      else (acc, s)
  | [] => (acc, [])
  end.

(** The rest of [s] behind the word [p], when [s] starts with it. *)
Fixpoint starts_with (p : list N) (s : list N) : option (list N) :=
  match p, s with
  | [], _ => Some s
  | a :: p', b :: s' => if N.eqb a b then starts_with p' s' else None
  | _ :: _, [] => None
  end.

Definition number_ends (rest : list N) : bool :=
  match rest with
  | n :: _ => negb (N.eqb n 46 || N.eqb n 101 || N.eqb n 69)
  | [] => true
  end.

(** The words [null], [true] and [false]. *)
Definition word_null : list N := [110; 117; 108; 108]%N.
Definition word_true : list N := [116; 114; 117; 101]%N.
Definition word_false : list N := [102; 97; 108; 115; 101]%N.

Fixpoint parse_value (fuel : nat) (s : list N) : option (value Z * list N) :=
  match fuel with
  | O => None
  | S fuel =>
      match skip_spaces s with
      | [] => None
      | n :: r =>
          if N.eqb n 34 then
            match read_string r with
            | Some (t, rest) => Some (VStr t, rest)
            | None => None
            end
          else if N.eqb n 91 then
            match skip_spaces r with
            | b :: r' =>
                if N.eqb b 93 then Some (VArr [], r')
                else
                  match parse_elements fuel r with
                  | Some (l, rest) => Some (VArr l, rest)
                  | None => None
                  end
            | [] => None
            end
          else if N.eqb n 123 then
            match skip_spaces r with
            | b :: r' =>
                if N.eqb b 125 then Some (VObj [], r')
                else
                  match parse_members fuel r with
                  | Some (l, rest) => Some (VObj l, rest)
                  | None => None
                  end
            | [] => None
            end
          else if N.eqb n 45 then
            match r with
            | d :: _ =>
                if is_digit d
                then let (z, rest) := read_number 0 r in
                     if number_ends rest then Some (VNum (- z)%Z, rest) else None
                else None
            | [] => None
            end
          else if is_digit n then
            let (z, rest) := read_number 0 (n :: r) in
            if number_ends rest then Some (VNum z, rest) else None
          else
            match starts_with word_null (n :: r) with
            | Some rest => Some (VNull, rest)
            | None =>
                match starts_with word_true (n :: r) with
                | Some rest => Some (VBool true, rest)
                | None =>
                    match starts_with word_false (n :: r) with
                    | Some rest => Some (VBool false, rest)
                    | None => None
                    end
                end
            end
      end
  end
with parse_elements (fuel : nat) (s : list N) : option (list (value Z) * list N) :=
  match fuel with
  | O => None
  | S fuel =>
      match parse_value fuel s with
      | Some (v, rest) =>
          match skip_spaces rest with
          | a :: r =>
              if N.eqb a 93 then Some ([v], r)
              else if N.eqb a 44 then
                match parse_elements fuel r with
                | Some (l, rest') => Some (v :: l, rest')
                | None => None
                end
              else None
          | [] => None
          end
      | None => None
      end
  end
with parse_members (fuel : nat) (s : list N)
  : option (list (string * value Z) * list N) :=
  match fuel with
  | O => None
  | S fuel =>
      match skip_spaces s with
      | q :: r =>
          if N.eqb q 34 then
            match read_string r with
            | Some (k, rest) =>
                match skip_spaces rest with
                | c :: r1 =>
                    if N.eqb c 58 then
                      match parse_value fuel r1 with
                      | Some (v, rest1) =>
                          match skip_spaces rest1 with
                          | a :: r2 =>
                              if N.eqb a 125 then Some ([(k, v)], r2)
                              else if N.eqb a 44 then
                                match parse_members fuel r2 with
                                | Some (l, rest2) =>
                                    Some ((k, default v (get_prop l k))
                                            :: List.filter
                                                 (fun kv => negb (String.eqb kv.1 k)) l,
                                          rest2)
                                | None => None
                                end
                              else None
                          | [] => None
                          end
                      | None => None
                      end
                    else None
                | [] => None
                end
            | None => None
            end
          else None
      | [] => None
      end
  end.

Definition parse_codes (l : list N) : option (value Z) :=
  match parse_value (S (List.length l)) l with
  | Some (v, rest) =>
      match skip_spaces rest with
      | [] => Some v
      | _ => None
      end
  | None => None
  end.

Definition parse (s : string) : option (value Z) := parse_codes (codes s).

Definition Z_to_string (z : Z) : string := NilEmpty.string_of_int (Z.to_int z).

Definition path_segment (v : value Z) : string :=
  match v with
  | VStr s => s
  | VNum z => Z_to_string z
  | _ => "undefined"
  end.

Fixpoint jsonValueToProto (v : value Z) : field Z :=
  match v with
  | VNull => Scalar nullValue (SStr "NULL_VALUE")
  | VNum z => Scalar numberValue (SNum z)
  | VStr s => Scalar stringValue (SStr s)
  | VBool b => Scalar boolValue (SBool b)
  | VObj fs =>
      StructValue ((fix go (fs : list (string * value Z)) :=
                      match fs with
                      | [] => []
                      | (k, x) :: r => (k, jsonValueToProto x) :: go r
                      end) fs)
  | VArr l => ListValue (Some (map jsonValueToProto l))
  | VUndefined | VSymbol => OtherKind "undefined"
  end.

Fixpoint valueProtoToJson (f : field Z) : value Z :=
  match f with
  | Scalar _ SNil => VNull
  | Scalar nullValue _ => VNull
  | Scalar _ (SNum z) => VNum z
  | Scalar _ (SStr s) => VStr s
  | Scalar _ (SBool b) => VBool b
  | StructValue fs =>
      VObj ((fix go (fs : list (string * field Z)) :=
               match fs with
               | [] => []
               | (k, x) :: r => (k, valueProtoToJson x) :: go r
               end) fs)
  | ListValue (Some l) => VArr (map valueProtoToJson l)
  | ListValue None => VArr []
  | OtherKind _ => VUndefined
  end.

#[export] Instance host : Host := {|
  number := Z;
  number_to_string := Z_to_string;
  number_truthy := fun z => negb (Z.eqb z 0);
  JSON_parse := parse;
  type_error_message := fun site => "Cannot read property of undefined: " +:+ site;
  mime_lookup := fun uri =>
    if String.eqb (string_drop (String.length uri - 4) uri) ".png"
    then Some "image/png" else None;
  contextPath := fun project session context =>
    "projects/" +:+ path_segment project +:+ "/agent/sessions/"
    +:+ path_segment session +:+ "/contexts/" +:+ path_segment context;
  sessionPath_of := fun project session =>
    "projects/" +:+ path_segment project +:+ "/agent/sessions/"
    +:+ path_segment session;
  jsonToStructProto := fun v =>
    match jsonValueToProto v with
    | StructValue fs => mkStruct (Some fs)
    | _ => mkStruct None
    end;
  structProtoToJson := fun s =>
    match fields s with
    | Some fs => valueProtoToJson (StructValue fs)
    | None => VObj []
    end
|}.

End SampleHost.

(** ** A sample conversation on that host *)
Module Sample.
Import SampleHost.

Definition caps0 : gmap string (value Z) :=
  list_to_map
    [ (DIALOGFLOW_PROJECT_ID, VStr "botium");
      (DIALOGFLOW_CLIENT_EMAIL, VStr "bot@example.org");
      (DIALOGFLOW_PRIVATE_KEY, VStr "secret");
      ("DIALOGFLOW_INPUT_CONTEXT_NAME_0", VStr "booking");
      ("DIALOGFLOW_INPUT_CONTEXT_LIFESPAN_0", VStr "5") ].

(** The connector after [Validate], [Build] and [Start]. *)
Definition validated : Connector := (Validate (constructor caps0)).1.
Definition built : Connector := (Build validated).1.
Definition connector : Connector := (Start built "c0ffee" (KbResolves None)).1.

(** The context that [Start] seeds, and its name. *)
Definition booking_name : string :=
  "projects/botium/agent/sessions/c0ffee/contexts/booking".

Definition booking : Context :=
  {| ctx_name := booking_name; ctx_lifespanCount := Int 5; ctx_parameters := None |}.

Definition plain (text : string) : Msg :=
  {| messageText := VStr text; buttons := None;
     SET_DIALOGFLOW_CONTEXT := VUndefined;
     SET_DIALOGFLOW_QUERYPARAMS := VUndefined |}.

(** A message that sets the context [booking] again and a new context
    [payment]. *)
Definition with_contexts : Msg :=
  {| messageText := VStr "pay"; buttons := None;
     SET_DIALOGFLOW_CONTEXT :=
       VObj [ ("booking", VNum 2%Z);
              ("payment", VObj [("parameters", VObj [("amount", VNum 10%Z)])]) ];
     SET_DIALOGFLOW_QUERYPARAMS := VUndefined |}.

(** A message that supplies [contexts] of its own in the query parameters. *)
Definition with_queryParams_contexts : Msg :=
  {| messageText := VStr "hello"; buttons := None;
     SET_DIALOGFLOW_CONTEXT := VUndefined;
     SET_DIALOGFLOW_QUERYPARAMS := VObj [("contexts", VArr [])] |}.


(** The JSON document [{"name":"WELCOME"}]. *)
Definition welcome_event : string :=
  "{" +:+ String quote "name" +:+ String quote ":" +:+ String quote "WELCOME"
  +:+ String quote "}".

Definition pressed (payload : value Z) : Msg :=
  {| messageText := VStr "ignored";
     buttons := Some [ {| btn_text := VStr "Yes"; btn_payload := payload |} ];
     SET_DIALOGFLOW_CONTEXT := VUndefined;
     SET_DIALOGFLOW_QUERYPARAMS := VUndefined |}.

Definition no_variants : FulfillmentMessage :=
  {| platform := None; fm_text := None; simpleResponses := None; fm_image := None;
     quickReplies := None; card := None; basicCard := None; listSelect := None;
     carouselSelect := None; suggestions := None; linkOutSuggestion := None |}.

Definition text_message : FulfillmentMessage :=
  {| platform := None; fm_text := Some {| text_text := ["Hi there"; "Hello"] |};
     simpleResponses := None; fm_image := None;
     quickReplies := Some ["shadowed"]; card := None; basicCard := None;
     listSelect := None; carouselSelect := None; suggestions := None;
     linkOutSuggestion := None |}.

Definition quickReplies_message : FulfillmentMessage :=
  {| platform := None; fm_text := None; simpleResponses := None; fm_image := None;
     quickReplies := Some ["Yes"; "No"]; card := None; basicCard := None;
     listSelect := None; carouselSelect := None; suggestions := None;
     linkOutSuggestion := None |}.

Definition card_message : FulfillmentMessage :=
  {| platform := None; fm_text := None; simpleResponses := None; fm_image := None;
     quickReplies := None;
     card := Some {| card_title := "Offer"; card_imageUri := "offer.png";
                     card_buttons := [ {| cb_text := "Buy"; cb_postback := "buy" |} ] |};
     basicCard := None; listSelect := None; carouselSelect := None;
     suggestions := None; linkOutSuggestion := None |}.

Definition carousel_message : FulfillmentMessage :=
  {| platform := None; fm_text := None; simpleResponses := None; fm_image := None;
     quickReplies := None; card := None; basicCard := None; listSelect := None;
     carouselSelect :=
       Some [ {| item_title := "Red"; item_description := "a red one";
                 item_image := Some {| imageUri := "red.png";
                                       accessibilityText := "red" |};
                 item_info := Some "RED" |};
              {| item_title := "Blue"; item_description := "";
                 item_image := None; item_info := None |} ];
     suggestions := None; linkOutSuggestion := None |}.

Definition suggestions_message : FulfillmentMessage :=
  {| platform := None; fm_text := None; simpleResponses := None; fm_image := None;
     quickReplies := None; card := None; basicCard := None; listSelect := None;
     carouselSelect := None;
     suggestions := Some [ {| sg_title := "More" |}; {| sg_title := "Less" |} ];
     linkOutSuggestion := None |}.

(** Parameters in which a struct sits under the empty key. *)
Definition empty_key_fields : list (string * field Z) :=
  [ ("", StructValue [("a", Scalar stringValue (SStr "x"))]) ].

(** Parameters with a nested struct, a list, an empty string and a null. *)
Definition nested_fields : list (string * field Z) :=
  [ ("date", Scalar stringValue (SStr "2019-05-01"));
    ("guest", StructValue [ ("name", Scalar stringValue (SStr "Ann"));
                            ("age", Scalar numberValue (SNum 30%Z)) ]);
    ("rooms", ListValue (Some [ Scalar numberValue (SNum 1%Z);
                                Scalar stringValue (SStr "");
                                StructValue [("beds", Scalar numberValue (SNum 2%Z))] ]));
    ("note", Scalar stringValue (SStr ""));
    ("nothing", Scalar nullValue SNil);
    ("other", OtherKind "kindless") ].

Definition response_with (fs : list (string * field Z))
    (fms : list FulfillmentMessage) : Response :=
  {| queryResult :=
       {| intent := Some {| displayName := "Default Fallback Intent" |};
          intentDetectionConfidence := 1%Z;
          parameters := Some (mkStruct (Some fs));
          outputContexts := [];
          fulfillmentMessages := fms |} |}.

Definition response : Response := response_with nested_fields [text_message; no_variants].

(** The annotations that the sample response gets. *)
Definition nlp0 : Nlp :=
  {| nlp_intent := {| intent_name := Some "Default Fallback Intent";
                      confidence := Some 1%Z; incomprehension := Some true |};
     nlp_entities := [] |}.

(** Capabilities with a context name that has no lifespan. *)
Definition caps_without_lifespan : gmap string (value Z) :=
  list_to_map
    [ (DIALOGFLOW_PROJECT_ID, VStr "botium");
      (DIALOGFLOW_CLIENT_EMAIL, VStr "bot@example.org");
      (DIALOGFLOW_PRIVATE_KEY, VStr "secret");
      ("DIALOGFLOW_INPUT_CONTEXT_NAME_0", VStr "booking") ].

(** The bot message before a response variant fills it. *)
Definition bare : BotMsg := bare_botMsg (queryResult response) nlp0.


Definition resolving : Request → detected := fun _ => Resolves response.
Definition rejecting : Request → detected := fun _ => Rejects (Error "UNAVAILABLE").

(** Capabilities that ask for the knowledge bases of the project, and the
    connector started on them with one knowledge base found. *)
Definition caps_kb : gmap string (value Z) :=
  <[DIALOGFLOW_ENABLE_KNOWLEDGEBASE := VBool true]> caps0.

Definition kb_built : Connector := (Build (Validate (constructor caps_kb)).1).1.

Definition kb_connector : Connector :=
  (Start kb_built "c0ffee" (KbResolves (Some ["projects/botium/knowledgeBases/kb1"]))).1.

(** That connector after a restart in which the listing fails. *)
Definition restart_failed : Connector :=
  (Start kb_connector "beef" (KbRejects (Error "UNAVAILABLE"))).1.

(** Capabilities with the knowledge base capability given as a string. *)
Definition caps_kb_string : gmap string (value Z) :=
  <[DIALOGFLOW_ENABLE_KNOWLEDGEBASE := VStr "true"]> caps0.

(** Capabilities with the fallback intents given as one string. *)
Definition caps_fallback_string : gmap string (value Z) :=
  <[DIALOGFLOW_FALLBACK_INTENTS := VStr "Default Fallback Intent"]> caps0.

(** Capabilities with an output platform. *)
Definition caps_facebook : gmap string (value Z) :=
  <[DIALOGFLOW_OUTPUT_PLATFORM := VStr "FACEBOOK"]> caps0.

(** A response whose intent is named [Fallback]. *)
Definition fallback_response : Response :=
  {| queryResult :=
       {| intent := Some {| displayName := "Fallback" |};
          intentDetectionConfidence := 1%Z;
          parameters := None;
          outputContexts := [];
          fulfillmentMessages := [] |} |}.

(** A connector that is built and started without [Validate]. *)
Definition unvalidated : Connector :=
  (Start (Build (constructor caps0)).1 "c0ffee" (KbResolves None)).1.

(** Simple responses without an element, and a message for one platform. *)
Definition empty_simpleResponses : FulfillmentMessage :=
  {| platform := None; fm_text := None; simpleResponses := Some []; fm_image := None;
     quickReplies := None; card := None; basicCard := None; listSelect := None;
     carouselSelect := None; suggestions := None; linkOutSuggestion := None |}.

Definition facebook_message : FulfillmentMessage :=
  {| platform := Some "FACEBOOK"; fm_text := Some {| text_text := ["On Facebook"] |};
     simpleResponses := None; fm_image := None;
     quickReplies := None; card := None; basicCard := None; listSelect := None;
     carouselSelect := None; suggestions := None; linkOutSuggestion := None |}.

(** The contexts that the message [with_contexts] makes of its two keys. *)
Definition booking_again : Context :=
  {| ctx_name := booking_name; ctx_lifespanCount := Int 2; ctx_parameters := None |}.

Definition payment_with_parameters : Context :=
  {| ctx_name := "projects/botium/agent/sessions/c0ffee/contexts/payment";
     ctx_lifespanCount := NaN;
     ctx_parameters := Some (jsonToStructProto (VObj [("amount", VNum 10%Z)])) |}.

(** Parameters with a list under the empty key, with a struct under an empty
    key below the top level, and with a null as the SDK delivers it. *)
Definition empty_key_list : list (string * field Z) :=
  [ ("", ListValue (Some [Scalar stringValue (SStr "x")])) ].

Definition nested_empty_key : list (string * field Z) :=
  [ ("a", StructValue [("", StructValue [("b", Scalar stringValue (SStr "x"))])]) ].

Definition null_leaf : list (string * field Z) :=
  [ ("n", Scalar nullValue (SStr "NULL_VALUE")) ].

(** The characters U+1F600 and U+FF5E in UTF-8. *)
Definition grinning_face : string :=
  String (ascii_of_N 240) (String (ascii_of_N 159)
    (String (ascii_of_N 152) (String (ascii_of_N 128) ""))).

Definition fullwidth_tilde : string :=
  String (ascii_of_N 239) (String (ascii_of_N 189) (String (ascii_of_N 158) "")).

Definition response_broken : Response :=
  response_with nested_fields [text_message; empty_simpleResponses; quickReplies_message].

Definition resolving_broken : Request → detected := fun _ => Resolves response_broken.

End Sample.

(** * Notions used to state the properties *)

Section Notions.
Context `{Host}.

(** A connector that [Start] has set up and [Stop] has not torn down: the
    clients exist and [this.queryParams.contexts] is an array. *)
Definition started (c : Connector) : Prop :=
  is_Some (sessionClient c) ∧ is_Some (contextClient c)
  ∧ is_Some (queryParams c ≫= contexts).

(** [this.queryParams.contexts], when there is one. *)
Definition pending (c : Connector) : option (list Context) :=
  queryParams c ≫= contexts.

(** The custom contexts of a message, none when their extraction throws. *)
Definition custom_of (c : Connector) (msg : Msg) : list Context :=
  match _extractCustomContexts c msg with
  | Return customContexts => customContexts
  | Throw _ => []
  end.

(** The request that [UserSays] builds on the connector after the merge. *)
Definition request_of (c1 : Connector) (msg : Msg) : Request :=
  {| session := sessionPath c1;
     queryInput := queryInput_of (caps c1) msg;
     req_queryParams := request_queryParams c1 msg |}.

(** [request.queryParams.contexts] as line 153 leaves it: the connector's
    list of contexts, or the value of a [contexts] property of the message's
    own. *)
Definition request_contexts (r : Request) : option qvalue :=
  get_prop (req_queryParams r) "contexts".

(** [mergeQueryParams[k]] (lines 148 to 151): what the message supplies under
    the name [k] through SET_DIALOGFLOW_QUERYPARAMS. *)
Definition supplied (msg : Msg) (k : string) : option (value number) :=
  if truthy (SET_DIALOGFLOW_QUERYPARAMS msg)
  then get_prop (assign [] (own_props (SET_DIALOGFLOW_QUERYPARAMS msg))) k
  else None.

(** Whether a request holds a context of the given name, in the connector's
    list or in an array that the message supplied. *)
Definition carries_name (name : string) (r : Request) : bool :=
  match request_contexts r with
  | Some (QContexts l) => existsb (fun x => String.eqb (ctx_name x) name) l
  | Some (QVal (VArr l)) => existsb (fun x => is_string name (member x "name")) l
  | _ => false
  end.

(** A conversation: the messages with the way [detectIntent] settles on each,
    run in order on the connector; the final connector and all requests sent. *)
Fixpoint run (c : Connector) (turns : list (Msg * (Request → detected)))
  : Connector * list Request :=
  match turns with
  | [] => (c, [])
  | (msg, detectIntent) :: rest =>
      let t := UserSays c msg detectIntent in
      let (c', requests) := run (after t) rest in
      (c', sent t ++ requests)
  end.

(** The [reduce] over the elements of a list value, from index [i] on. *)
Definition _extractEntitiesFromValues (key : string) (i : nat)
    (values : list (field number)) : list Entity :=
  flat_map (fun iv => _extractEntityValues (element_key key iv.1) iv.2)
           (imap (fun j lv => (i + j, lv)) values).

(** The path of a leaf, its field keys and list indices, joined with dots. *)
Definition dotted (path : list string) : string :=
  match path with
  | [] => ""
  | k :: rest => fold_left (fun name x => name +:+ "." +:+ x) rest k
  end.

(** The scalar leaves of a value in the order of the tree, each with its path
    and the value it stores ([field[field.kind]]); the kind of a leaf plays no
    part. *)
Fixpoint leaves (path : list string) (fld : field number)
  : list (list string * scalar number) :=
  match fld with
  | Scalar _ v => [(path, v)]
  | StructValue fs =>
      (fix below (fs : list (string * field number)) :=
         match fs with
         | [] => []
         | (k, f) :: rest => leaves (path ++ [k]) f ++ below rest
         end) fs
  | ListValue (Some values) =>
      (fix below (i : nat) (values : list (field number)) :=
         match values with
         | [] => []
         | lv :: rest => leaves (path ++ [index_to_string i]) lv ++ below (S i) rest
         end) 0 values
  | ListValue None => []
  | OtherKind _ => []
  end.

(** The entity of a leaf by the value it stores: none when that is null or
    undefined, none when it is the empty string.  The test is on the stored
    value alone: a leaf of kind [nullValue] that stores the enum name
    [NULL_VALUE], as the SDK delivers a null, stores a string that is not
    empty and has an entity. *)
Definition entity_of_leaf (leaf : list string * scalar number) : option Entity :=
  match leaf.2 with
  | SNil => None
  | SStr "" => None
  | v => Some {| entity_name := dotted leaf.1; entity_value := scalar_to_string v |}
  end.

(** The entities of the leaves of a parameter tree, named by their paths. *)
Definition entities_by_path (fs : list (string * field number)) : list Entity :=
  omap entity_of_leaf (flat_map (fun kf => leaves [kf.1] kf.2) fs).

(** The first of the ten response variants that a fulfillment message has. *)
Definition no_variant_before_quickReplies (f : FulfillmentMessage) : Prop :=
  fm_text f = None ∧ simpleResponses f = None ∧ fm_image f = None.

Definition no_variant_before_card (f : FulfillmentMessage) : Prop :=
  no_variant_before_quickReplies f ∧ quickReplies f = None.

Definition no_variant_before_carouselSelect (f : FulfillmentMessage) : Prop :=
  no_variant_before_card f ∧ card f = None ∧ basicCard f = None
  ∧ listSelect f = None.

Definition no_variant_before_suggestions (f : FulfillmentMessage) : Prop :=
  no_variant_before_carouselSelect f ∧ carouselSelect f = None.

Definition no_variant (f : FulfillmentMessage) : Prop :=
  no_variant_before_suggestions f ∧ suggestions f = None
  ∧ linkOutSuggestion f = None.

(** The query result every bot message of a turn refers to: the one of the
    response, with the parameters of its output contexts run through the
    codec (lines 161 to 165). *)
Definition sourceData_of (r : QueryResult) : QueryResult :=
  {| intent := intent r;
     intentDetectionConfidence := intentDetectionConfidence r;
     parameters := parameters r;
     outputContexts :=
       (fun context =>
          {| oc_name := oc_name context;
             oc_lifespanCount := oc_lifespanCount context;
             oc_parameters :=
               jsonToStructProto (structProtoToJson (oc_parameters context)) |})
         <$> outputContexts r;
     fulfillmentMessages := fulfillmentMessages r |}.

(** The bot message of a turn before a response variant fills it. *)
Definition bare_of (response : Response) (i : NlpIntent) : BotMsg :=
  bare_botMsg (sourceData_of (queryResult response))
    {| nlp_intent := i;
       nlp_entities :=
         _extractEntities {| queryResult := sourceData_of (queryResult response) |} |}.

(** The bot message that a fulfillment message is accepted with. *)
Definition accepted (botMsg : BotMsg) (f : FulfillmentMessage) : option BotMsg :=
  match botMsg_of botMsg f with
  | Return (Some m) => Some m
  | _ => None
  end.

(** The fulfillment messages on which line 190 reads a property of
    [undefined]: simple responses without an element, and no text. *)
Definition breaks (f : FulfillmentMessage) : bool :=
  match fm_text f, simpleResponses f with
  | None, Some [] => true
  | _, _ => false
  end.

(** The fulfillment messages that line 172 to 181 select from a response. *)
Definition selected (c : Connector) (response : Response) : list FulfillmentMessage :=
  select_fulfillmentMessages (caps c) (fulfillmentMessages (queryResult response)).

(** The names of a collection of contexts, in order. *)
Definition names (l : list Context) : list string := ctx_name <$> l.

(** A connector whose stored query parameters name no knowledge base. *)
Definition without_knowledgeBaseNames (c : Connector) : Prop :=
  ∀ q, queryParams c = Some q → knowledgeBaseNames q = None.


(** [x] occurs in [s]. *)
Definition occurs_in (x s : string) : Prop := ∃ a b, s = a +:+ x +:+ b.

End Notions.

(** * Properties *)

(** ** Property lists *)

Lemma get_prop_set_prop_eq {A} (o : list (string * A)) k v :
  get_prop (set_prop o k v) k = Some v.
Proof.
  induction o as [|[k' v'] o IH]; simpl.
  - by rewrite String.eqb_refl.
  - destruct (String.eqb k' k) eqn:E; simpl; rewrite E; [done | apply IH].
Qed.

Lemma get_prop_set_prop_ne {A} (o : list (string * A)) k k' v :
  k ≠ k' → get_prop (set_prop o k v) k' = get_prop o k'.
Proof.
  intros Hne. induction o as [|[k0 v0] o IH]; simpl.
  - destruct (String.eqb k k') eqn:E; [|done].
    apply String.eqb_eq in E. congruence.
  - destruct (String.eqb k0 k) eqn:E; simpl.
    + apply String.eqb_eq in E. subst k0.
      destruct (String.eqb k k') eqn:E'; [|done].
      apply String.eqb_eq in E'. congruence.
    + by rewrite IH.
Qed.

(** A property that the source does not define keeps the target's value. *)
Lemma get_prop_assign_absent {A} (target src : list (string * A)) k :
  get_prop src k = None → get_prop (assign target src) k = get_prop target k.
Proof.
  unfold assign. revert target.
  induction src as [|[k0 v0] src IH]; intros target Hk; simpl in *; [done|].
  destruct (String.eqb k0 k) eqn:E; [done|].
  rewrite IH; [|done]. apply get_prop_set_prop_ne.
  intros ->. by rewrite String.eqb_refl in E.
Qed.

(** A property that the source defines once gets the source's value. *)
Lemma get_prop_assign_present {A} (target src1 src2 : list (string * A)) k v :
  get_prop src2 k = None →
  get_prop (assign target (src1 ++ (k, v) :: src2)) k = Some v.
Proof.
  intros Hk. unfold assign. rewrite fold_left_app. simpl.
  change (fold_left _ src2 ?t) with (assign t src2).
  rewrite get_prop_assign_absent; [|done]. apply get_prop_set_prop_eq.
Qed.

Lemma get_prop_fmap {A B} (f : A → B) (o : list (string * A)) k :
  get_prop (prod_map id f <$> o) k = f <$> get_prop o k.
Proof.
  induction o as [|[k0 v0] o IH]; simpl; [done|].
  destruct (String.eqb k0 k); [done | apply IH].
Qed.

(** A property of an assigned object comes from the target or the source. *)
Lemma get_prop_assign_Some {A} (target src : list (string * A)) k v :
  get_prop (assign target src) k = Some v →
  get_prop target k = Some v ∨ (k, v) ∈ src.
Proof.
  unfold assign. revert target.
  induction src as [|[k0 v0] src IH]; intros target Hv; simpl in Hv; [by left|].
  apply IH in Hv as [Hv | Hv]; [|right; by right].
  destruct (decide (k0 = k)) as [-> | Hne].
  - rewrite get_prop_set_prop_eq in Hv. simplify_eq. right. left.
  - rewrite get_prop_set_prop_ne in Hv by done. by left.
Qed.

Lemma get_prop_None_keys {A} (l : list (string * A)) (k : string) :
  get_prop l k = None ↔ k ∉ l.*1.
Proof.
  induction l as [|[k0 v0] l IH]; simpl.
  - split; [intros _ Hin; by apply elem_of_nil in Hin | done].
  - rewrite not_elem_of_cons. destruct (String.eqb k0 k) eqn:E.
    + apply String.eqb_eq in E. split; [done | by intros [? _]].
    + apply String.eqb_neq in E. rewrite IH. split; [by split | by intros [_ ?]].
Qed.

Lemma set_prop_keys {A} (o : list (string * A)) (k : string) (v : A) :
  (set_prop o k v).*1 = if decide (k ∈ o.*1) then o.*1 else o.*1 ++ [k].
Proof.
  induction o as [|[k0 v0] o IH]; cbn [set_prop fmap list_fmap fst app].
  - destruct (decide (k ∈ [])) as [Hin | _]; [by apply elem_of_nil in Hin | done].
  - destruct (String.eqb k0 k) eqn:E.
    + apply String.eqb_eq in E. subst.
      destruct (decide (k ∈ k :: o.*1)) as [_ | Hin]; [reflexivity|].
      exfalso. apply Hin. left.
    + apply String.eqb_neq in E. cbn [fmap list_fmap fst]. rewrite IH.
      destruct (decide (k ∈ o.*1)) as [Hin | Hin];
        destruct (decide (k ∈ k0 :: o.*1)) as [Hin' | Hin']; try reflexivity.
      * exfalso. apply Hin'. by right.
      * apply elem_of_cons in Hin' as [? | ?]; [congruence | done].
Qed.

Lemma assign_keys_NoDup {A} (target src : list (string * A)) :
  NoDup target.*1 → NoDup (assign target src).*1.
Proof.
  unfold assign. revert target.
  induction src as [|[k v] src IH]; intros target Hnd; simpl; [done|].
  apply IH. rewrite set_prop_keys. destruct (decide (k ∈ target.*1)); [done|].
  apply NoDup_app. split; [done|]. split; [|apply NoDup_singleton].
  intros x Hx Hx'. apply list_elem_of_singleton in Hx'. by subst.
Qed.

(** In an object, the one property of a name is also the last of that name. *)
Lemma get_prop_last {A} (l : list (string * A)) (k : string) (v : A) :
  NoDup l.*1 → get_prop l k = Some v →
  ∃ before behind, l = before ++ (k, v) :: behind ∧ get_prop behind k = None.
Proof.
  induction l as [|[k0 v0] l IH]; simpl; [done|]. intros Hnd Hget.
  apply NoDup_cons in Hnd as [Hk0 Hnd].
  destruct (String.eqb k0 k) eqn:E.
  - apply String.eqb_eq in E. simplify_eq. exists [], l. split; [done|].
    by apply get_prop_None_keys.
  - destruct (IH Hnd Hget) as (before & behind & -> & Hnone).
    by exists ((k0, v0) :: before), behind.
Qed.

(** Every property that is there has a last occurrence. *)
Lemma get_prop_occurs_last {A} (l : list (string * A)) (k : string) :
  get_prop l k ≠ None →
  ∃ before v behind, l = before ++ (k, v) :: behind ∧ get_prop behind k = None.
Proof.
  induction l as [|[k0 v0] l IH]; simpl; [done|]. intros Hget.
  destruct (get_prop l k) as [v|] eqn:El.
  - destruct IH as (before & v' & behind & -> & Hnone); [done|].
    by exists ((k0, v0) :: before), v', behind.
  - destruct (String.eqb k0 k) eqn:E; [|done].
    apply String.eqb_eq in E. subst. by exists [], v0, l.
Qed.

(** ** Merging contexts (lines 137 to 146) *)

Section Properties.
Context `{Host}.

Local Abbreviation val := (value number).

Lemma merge_context_replace (l : list Context) (x d : Context) (i : nat) :
  l !! i = Some d → ctx_name d = ctx_name x →
  (∀ j e, j < i → l !! j = Some e → ctx_name e ≠ ctx_name x) →
  merge_context l x = <[i := x]> l.
Proof.
  intros Hi Hd Hmin. unfold merge_context.
  destruct (list_find _ l) as [[j e]|] eqn:E.
  - apply list_find_Some in E as (Hj & He & Hfirst).
    destruct (Nat.lt_trichotomy i j) as [Hlt | [-> | Hgt]]; [|done|].
    + exfalso. by apply (Hfirst i d).
    + exfalso. by apply (Hmin j e).
  - apply list_find_None in E.
    rewrite Forall_forall in E. exfalso. apply (E d); [|done].
    apply list_elem_of_lookup. eauto.
Qed.

Lemma merge_context_append (l : list Context) (x : Context) :
  (∀ e, e ∈ l → ctx_name e ≠ ctx_name x) → merge_context l x = l ++ [x].
Proof.
  intros Hnew. unfold merge_context.
  destruct (list_find _ l) as [[j e]|] eqn:E; [|done].
  apply list_find_Some in E as (Hj & He & _).
  exfalso. apply (Hnew e); [|done]. apply list_elem_of_lookup. eauto.
Qed.

Lemma merge_context_other (l : list Context) (x e : Context) (j : nat) :
  l !! j = Some e → ctx_name e ≠ ctx_name x → merge_context l x !! j = Some e.
Proof.
  intros Hj Hne. unfold merge_context.
  destruct (list_find _ l) as [[i d]|] eqn:E.
  - apply list_find_Some in E as (Hi & Hd & _).
    rewrite list_lookup_insert_ne; [done|]. intros ->. congruence.
  - by apply lookup_app_l_Some.
Qed.

Lemma merge_contexts_other (l customContexts : list Context) (e : Context) (j : nat) :
  l !! j = Some e →
  (∀ x, x ∈ customContexts → ctx_name x ≠ ctx_name e) →
  merge_contexts l customContexts !! j = Some e.
Proof.
  unfold merge_contexts. revert l.
  induction customContexts as [|x xs IH]; intros l Hj Hne; simpl; [done|].
  apply IH.
  - apply merge_context_other; [done|]. intros Heq. apply (Hne x); [left | done].
  - intros y Hy. apply Hne. by right.
Qed.

Lemma merge_custom_defined (c : Connector) (q : QueryParams) (l customContexts : list Context) :
  queryParams c = Some q → contexts q = Some l →
  ∃ c', merge_custom c customContexts = Return c'
        ∧ queryParams c' ≫= contexts = Some (merge_contexts l customContexts)
        ∧ caps c' = caps c ∧ sessionClient c' = sessionClient c
        ∧ sessionPath c' = sessionPath c ∧ contextClient c' = contextClient c
        ∧ conversationId c' = conversationId c.
Proof.
  intros Hq Hl. unfold merge_custom.
  destruct customContexts as [|x xs].
  - exists c. rewrite Hq. simpl. by rewrite Hl.
  - rewrite Hq, Hl. eexists. split; [done|]. by simpl.
Qed.

Lemma mapM_Return {A B} (f : A → completion B) (l : list A) :
  (∀ x, x ∈ l → ∃ y, f x = Return y) → ∃ k, mapM f l = Return k.
Proof.
  induction l as [|x l IH]; intros Hf; simpl.
  - by eexists.
  - destruct (Hf x) as [y Hy]; [left|].
    destruct IH as [k Hk]; [intros z Hz; apply Hf; by right|].
    rewrite Hy. simpl. rewrite Hk. by eexists.
Qed.

Lemma _createCustomContext_defined (c : Connector) contextName contextLifespan contextParameters :
  is_Some (contextClient c) →
  ∃ x, _createCustomContext c contextName contextLifespan contextParameters = Return x.
Proof.
  intros [v Hv]. unfold _createCustomContext. rewrite Hv. by eexists.
Qed.

(** With a context client the extraction of the custom contexts does not
    throw. *)
Lemma _extractCustomContexts_defined (c : Connector) (msg : Msg) :
  is_Some (contextClient c) →
  _extractCustomContexts c msg = Return (custom_of c msg).
Proof.
  intros Hc. unfold custom_of.
  assert (∃ k, _extractCustomContexts c msg = Return k) as [k ->]; [|done].
  unfold _extractCustomContexts.
  destruct (truthy _); [|by eexists].
  apply mapM_Return. intros [contextName v] _.
  destruct (isObject v); by apply _createCustomContext_defined.
Qed.

(** The connector on which [UserSays] builds its request: the one with the
    custom contexts merged in. *)
Lemma UserSays_merges (c : Connector) (msg : Msg) (l : list Context) :
  started c → pending c = Some l →
  ∃ c1, (customContexts ← _extractCustomContexts c msg;
         merge_custom c customContexts) = Return c1
        ∧ pending c1 = Some (merge_contexts l (custom_of c msg))
        ∧ caps c1 = caps c ∧ sessionClient c1 = sessionClient c
        ∧ sessionPath c1 = sessionPath c ∧ contextClient c1 = contextClient c
        ∧ conversationId c1 = conversationId c.
Proof.
  intros (Hs & Hc & _) Hl.
  rewrite (_extractCustomContexts_defined c msg Hc). simpl.
  unfold pending in Hl. destruct (queryParams c) as [q|] eqn:Hq; [|done].
  simpl in Hl. apply (merge_custom_defined c q l _ Hq Hl).
Qed.

(** What a call on a started connector does, by the way [detectIntent]
    settles. *)
Lemma UserSays_started (c : Connector) (msg : Msg) (l : list Context)
    (detectIntent : Request → detected) :
  started c → pending c = Some l →
  ∃ c1, pending c1 = Some (merge_contexts l (custom_of c msg))
        ∧ caps c1 = caps c ∧ sessionClient c1 = sessionClient c
        ∧ contextClient c1 = contextClient c ∧ conversationId c1 = conversationId c
        ∧ sent (UserSays c msg detectIntent) = [request_of c1 msg]
        ∧ match detectIntent (request_of c1 msg) with
          | Rejects err =>
              after (UserSays c msg detectIntent) = c1
              ∧ queued (UserSays c msg detectIntent) = []
              ∧ outcome (UserSays c msg detectIntent)
                = Return (Rejected (Error ("Cannot send message to dialogflow container: "
                                           +:+ message_of err)))
          | Resolves response =>
              after (UserSays c msg detectIntent) = (on_response c1 response).1.1
              ∧ queued (UserSays c msg detectIntent) = (on_response c1 response).1.2
          end.
Proof.
  intros Hst Hl.
  destruct (UserSays_merges c msg l Hst Hl) as (c1 & Hm & Hp & Hcaps & Hsc & Hsp & Hcc & Hid).
  exists c1. repeat (split; [done|]).
  destruct Hst as ([v Hv] & _ & _).
  unfold UserSays. rewrite Hv, Hm.
  assert ({| session := sessionPath c1; queryInput := queryInput_of (caps c) msg;
             req_queryParams := request_queryParams c1 msg |} = request_of c1 msg)
    as -> by (unfold request_of; by rewrite Hcaps).
  destruct (detectIntent (request_of c1 msg)) as [response|err].
  - destruct (on_response c1 response) as [[c2 qd] [u|e]]; by simpl.
  - by simpl.
Qed.

Lemma mapM_Return_Forall2 {A B} (f : A → completion B) (l : list A) (k : list B) :
  mapM f l = Return k → Forall2 (fun a b => f a = Return b) l k.
Proof.
  revert k. induction l as [|x l IH]; intros k E; simpl in E.
  - cbv [mret completion_ret] in E. simplify_eq. constructor.
  - destruct (f x) as [y|e] eqn:Ey; [|done]. simpl in E.
    destruct (mapM f l) as [ys|e]; [|done].
    cbv [mbind completion_bind mret completion_ret] in E. simplify_eq.
    constructor; [done | by apply IH].
Qed.

(** What the request holds under a name that the message supplies. *)
Lemma request_queryParams_message (c1 : Connector) (msg : Msg) (k : string) (v : val)
    (before behind : list (string * val)) :
  truthy (SET_DIALOGFLOW_QUERYPARAMS msg) = true →
  own_props (SET_DIALOGFLOW_QUERYPARAMS msg) = before ++ (k, v) :: behind →
  get_prop behind k = None →
  get_prop (request_queryParams c1 msg) k = Some (QVal v).
Proof.
  intros Ht Hprops Hbehind. unfold request_queryParams. rewrite Ht, Hprops.
  destruct (get_prop_last (assign [] (before ++ (k, v) :: behind)) k v)
    as (b1 & b2 & -> & Hb2).
  { apply assign_keys_NoDup. constructor. }
  { by apply get_prop_assign_present. }
  rewrite fmap_app, fmap_cons. apply get_prop_assign_present.
  by rewrite get_prop_fmap, Hb2.
Qed.

(** What the request holds under a name: the value of the message when the
    message supplies one, the connector's own otherwise (line 153). *)
Lemma get_prop_request_queryParams (c1 : Connector) (msg : Msg) (k : string) :
  get_prop (request_queryParams c1 msg) k
  = match supplied msg k with
    | Some v => Some (QVal v)
    | None => get_prop (assign [] (queryParams_props (queryParams c1))) k
    end.
Proof.
  unfold request_queryParams, supplied.
  destruct (truthy (SET_DIALOGFLOW_QUERYPARAMS msg)); [|done].
  set (M := assign [] (own_props _)).
  destruct (get_prop M k) as [v|] eqn:E.
  - destruct (get_prop_last M k v) as (b1 & b2 & HM & Hb2);
      [apply assign_keys_NoDup; constructor | done |].
    rewrite HM, fmap_app, fmap_cons. apply get_prop_assign_present.
    by rewrite get_prop_fmap, Hb2.
  - apply get_prop_assign_absent. by rewrite get_prop_fmap, E.
Qed.

(** The contexts of the request that is built on a connector with pending
    contexts. *)
Lemma request_contexts_request_of (c1 : Connector) (msg : Msg) (l : list Context) :
  pending c1 = Some l →
  request_contexts (request_of c1 msg)
  = Some (match supplied msg "contexts" with
          | Some v => QVal v
          | None => QContexts l
          end).
Proof.
  intros Hl. unfold request_contexts, request_of. simpl.
  rewrite get_prop_request_queryParams.
  destruct (supplied msg "contexts"); [done|].
  unfold pending in Hl. destruct (queryParams c1) as [q|] eqn:Hq; [|done].
  simpl in Hl. unfold queryParams_props. rewrite Hl.
  apply (get_prop_assign_present [] []). by destruct (knowledgeBaseNames q).
Qed.

(** The custom contexts of a message are named after the keys of
    SET_DIALOGFLOW_CONTEXT, one per key and in their order. *)
Lemma custom_of_named_by_key (c : Connector) (msg : Msg) :
  is_Some (contextClient c) →
  if truthy (SET_DIALOGFLOW_CONTEXT msg)
  then Forall2
         (fun (kv : string * val) x =>
            ctx_name x
            = contextPath (cap (caps c) DIALOGFLOW_PROJECT_ID) (conversationId c)
                (VStr kv.1))
         (own_props (SET_DIALOGFLOW_CONTEXT msg)) (custom_of c msg)
  else custom_of c msg = [].
Proof.
  intros [v Hv].
  pose proof (_extractCustomContexts_defined c msg (ex_intro _ v Hv)) as Hdef.
  unfold _extractCustomContexts in Hdef.
  destruct (truthy (SET_DIALOGFLOW_CONTEXT msg)).
  - apply mapM_Return_Forall2 in Hdef.
    eapply Forall2_impl; [exact Hdef|].
    intros [contextName value] x. unfold _createCustomContext. rewrite Hv. simpl.
    destruct (isObject value); by intros [= <-].
  - cbv [mret completion_ret] in Hdef. by simplify_eq.
Qed.

(** C1.  On a started connector, [UserSays] extracts one custom context per
    key of [msg.SET_DIALOGFLOW_CONTEXT], named by the context path of the key,
    and merges them one after the other into the pending collection
    [this.queryParams.contexts], each by its name: a custom context whose name
    is already in the collection replaces the first context of that name at
    its index, a custom context with a new name is appended at the end, and
    the contexts with other names stay where they are, unchanged.  The one
    request of the turn holds the merged collection (unless the message
    supplies [contexts] of its own through SET_DIALOGFLOW_QUERYPARAMS), and
    the merged collection is what stays pending when [detectIntent]
    rejects. *)
Theorem custom_contexts_merged_by_name (c : Connector) (msg : Msg) (l : list Context)
    (detectIntent : Request → detected) :
  started c → pending c = Some l →
  let t := UserSays c msg detectIntent in
  let customContexts := custom_of c msg in
  let merged := fold_left merge_context customContexts l in
  _extractCustomContexts c msg = Return customContexts
  ∧ (if truthy (SET_DIALOGFLOW_CONTEXT msg)
     then Forall2
            (fun (kv : string * val) x =>
               ctx_name x
               = contextPath (cap (caps c) DIALOGFLOW_PROJECT_ID) (conversationId c)
                   (VStr kv.1))
            (own_props (SET_DIALOGFLOW_CONTEXT msg)) customContexts
     else customContexts = [])
  ∧ (∃ r, sent t = [r]
          ∧ request_contexts r
            = Some (match supplied msg "contexts" with
                    | Some v => QVal v
                    | None => QContexts merged
                    end)
          ∧ (∀ err, detectIntent r = Rejects err → pending (after t) = Some merged))
  ∧ (∀ (l0 : list Context) (x d : Context) (i : nat),
       l0 !! i = Some d → ctx_name d = ctx_name x →
       (∀ j e, j < i → l0 !! j = Some e → ctx_name e ≠ ctx_name x) →
       merge_context l0 x = <[i := x]> l0)
  ∧ (∀ (l0 : list Context) (x : Context),
       (∀ e, e ∈ l0 → ctx_name e ≠ ctx_name x) → merge_context l0 x = l0 ++ [x])
  ∧ (∀ (j : nat) (e : Context),
       l !! j = Some e →
       (∀ x, x ∈ customContexts → ctx_name x ≠ ctx_name e) →
       merged !! j = Some e).
Proof.
  intros Hst Hl t customContexts merged.
  pose proof Hst as (_ & Hcc & _).
  refine (conj _ (conj _ (conj _ (conj _ (conj _ _))))).
  - by apply _extractCustomContexts_defined.
  - by apply custom_of_named_by_key.
  - destruct (UserSays_started c msg l detectIntent Hst Hl)
      as (c1 & Hp & _ & _ & _ & _ & Hsent & Hd).
    exists (request_of c1 msg). split; [done|]. split.
    + by apply request_contexts_request_of.
    + intros err Herr. rewrite Herr in Hd. destruct Hd as (Hafter & _).
      unfold t. by rewrite Hafter.
  - apply merge_context_replace.
  - apply merge_context_append.
  - intros j e. apply merge_contexts_other.
Qed.

(** ** Entities (lines 341 to 379) *)

(** Induction on a protobuf value, with the hypothesis for every field of a
    struct and every element of a list. *)
Lemma field_induction (P : field number → Prop) :
  (∀ k v, P (Scalar k v)) →
  (∀ fs, Forall (fun kf => P kf.2) fs → P (StructValue fs)) →
  (∀ values, Forall P values → P (ListValue (Some values))) →
  P (ListValue None) →
  (∀ k, P (OtherKind k)) →
  ∀ f, P f.
Proof.
  intros Hscalar Hstruct Hlist Hnone Hother.
  fix IH 1. intros [k v | fs | [values|] | k].
  - apply Hscalar.
  - apply Hstruct. induction fs as [|[k f] fs IHfs]; constructor; [apply IH | apply IHfs].
  - apply Hlist. induction values as [|f values IHvs]; constructor; [apply IH | apply IHvs].
  - apply Hnone.
  - apply Hother.
Qed.

Lemma fold_left_app_flat_map {A B} (f : A → list B) (l : list A) (acc : list B) :
  fold_left (fun entities x => entities ++ f x) l acc = acc ++ flat_map f l.
Proof.
  revert acc. induction l as [|x l IH]; intros acc; simpl.
  - by rewrite app_nil_r.
  - by rewrite IH, <- app_assoc.
Qed.

Lemma _extractEntitiesFromFields_flat_map (keyPrefix : string) fs :
  _extractEntitiesFromFields keyPrefix fs
  = flat_map (fun kf => _extractEntityValues (field_key keyPrefix kf.1) kf.2) fs.
Proof. unfold _extractEntitiesFromFields. by rewrite fold_left_app_flat_map. Qed.

(** A struct value recurses into its fields under its own key. *)
Lemma _extractEntityValues_struct (key : string) fs :
  _extractEntityValues key (StructValue fs) = _extractEntitiesFromFields key fs.
Proof.
  unfold _extractEntitiesFromFields. simpl.
  generalize (@nil Entity) as acc.
  induction fs as [|[k f] fs IH]; intros acc; simpl; [done | apply IH].
Qed.

Lemma _extractEntityValues_list (key : string) values :
  _extractEntityValues key (ListValue (Some values))
  = _extractEntitiesFromValues key 0 values.
Proof.
  unfold _extractEntitiesFromValues. cbn [_extractEntityValues].
  rewrite <- (app_nil_l (flat_map _ _)).
  generalize (@nil Entity) as acc. generalize 0 as i.
  induction values as [|lv values IH]; intros i acc; simpl.
  - by rewrite app_nil_r.
  - rewrite IH. rewrite Nat.add_0_r, <- app_assoc. do 3 f_equal.
    apply imap_ext. intros j x _. simpl. f_equal. lia.
Qed.

Lemma leaves_struct (path : list string) fs :
  leaves path (StructValue fs) = flat_map (fun kf => leaves (path ++ [kf.1]) kf.2) fs.
Proof.
  simpl. induction fs as [|[k f] fs IH]; simpl; [done | by rewrite IH].
Qed.

Lemma leaves_list (path : list string) values :
  leaves path (ListValue (Some values))
  = flat_map (fun iv => leaves (path ++ [index_to_string iv.1]) iv.2)
             (imap (fun j lv => (0 + j, lv)) values).
Proof.
  cbn [leaves]. generalize 0 as i.
  induction values as [|lv values IH]; intros i; simpl; [done|].
  rewrite IH, Nat.add_0_r. do 2 f_equal.
  apply imap_ext. intros j x _. simpl. f_equal. lia.
Qed.

Lemma dotted_snoc (path : list string) (k : string) :
  path ≠ [] → dotted (path ++ [k]) = dotted path +:+ "." +:+ k.
Proof.
  destruct path as [|k0 rest]; [done|]. intros _. simpl.
  by rewrite fold_left_app.
Qed.

Lemma string_app_cons (x : ascii) (a b : string) :
  String x a +:+ b = String x (a +:+ b).
Proof. reflexivity. Qed.

Lemma string_app_assoc (a b c : string) : (a +:+ b) +:+ c = a +:+ (b +:+ c).
Proof.
  induction a as [|x a IH]; [done|]. rewrite !string_app_cons. by f_equal.
Qed.

Lemma append_nonempty (a b : string) : b ≠ "" → a +:+ b ≠ "".
Proof.
  intros Hb Hab. destruct a; [done|]. by rewrite string_app_cons in Hab.
Qed.

Lemma omap_flat_map {A B C} (f : A → list B) (g : B → option C) (l : list A) :
  omap g (flat_map f l) = flat_map (fun x => omap g (f x)) l.
Proof.
  induction l as [|x l IH]; simpl; [done|]. by rewrite omap_app, IH.
Qed.

Lemma flat_map_ext_Forall {A B} (f g : A → list B) (l : list A) :
  Forall (fun x => f x = g x) l → flat_map f l = flat_map g l.
Proof. induction 1 as [|x l Hx _ IH]; simpl; [done | by rewrite Hx, IH]. Qed.

(** Below a key that is not empty, the names are the dotted paths. *)
Lemma _extractEntityValues_by_path (f : field number) :
  ∀ path, path ≠ [] → dotted path ≠ "" →
    _extractEntityValues (dotted path) f = omap entity_of_leaf (leaves path f).
Proof.
  induction f as [k v | fs IH | values IH | | k] using field_induction;
    intros path Hpath Hname.
  - simpl. unfold entity_of_leaf. simpl.
    destruct v as [| n | s | b]; simpl; try done.
    destruct s; simpl; done.
  - rewrite _extractEntityValues_struct, _extractEntitiesFromFields_flat_map,
      leaves_struct, omap_flat_map.
    apply flat_map_ext_Forall. eapply Forall_impl; [exact IH|].
    intros [k f] Hf. simpl in *.
    assert (field_key (dotted path) k = dotted (path ++ [k])) as ->.
    { rewrite dotted_snoc by done. unfold field_key.
      destruct (String.eqb (dotted path) "") eqn:E; simpl.
      - by apply String.eqb_eq in E.
      - by rewrite string_app_assoc. }
    apply Hf; [by destruct path|].
    rewrite dotted_snoc by done. by apply append_nonempty.
  - rewrite _extractEntityValues_list, leaves_list, omap_flat_map.
    unfold _extractEntitiesFromValues.
    apply flat_map_ext_Forall. apply list.Forall_forall. intros [i lv] Hin.
    apply elem_of_lookup_imap in Hin as (j & y & Heq & Hy). simplify_eq. simpl.
    assert (element_key (dotted path) j = dotted (path ++ [index_to_string j]))
      as -> by (by rewrite dotted_snoc).
    rewrite list.Forall_forall in IH. apply IH.
    + apply list_elem_of_lookup. eauto.
    + by destruct path.
    + rewrite dotted_snoc by done. by apply append_nonempty.
  - done.
  - done.
Qed.

(** When no top-level key is empty, the extracted entities are those of the
    leaves, named by their paths. *)
Lemma _extractEntitiesFromFields_by_path (fs : list (string * field number)) :
  Forall (fun kf => kf.1 ≠ "") fs →
  _extractEntitiesFromFields "" fs = entities_by_path fs.
Proof.
  intros Hkeys. unfold entities_by_path.
  rewrite _extractEntitiesFromFields_flat_map, omap_flat_map.
  apply flat_map_ext_Forall. eapply Forall_impl; [exact Hkeys|].
  intros [k f] Hk. simpl in *.
  change (field_key "" k) with (dotted [k]).
  by apply _extractEntityValues_by_path.
Qed.

(** ** Normalizing fulfillment messages (lines 184 to 257) *)

Lemma deliver_queued (botMsg : BotMsg) (fms : list FulfillmentMessage) :
  ∀ (force : bool) (m : BotMsg),
    m ∈ (deliver botMsg fms force).1 →
    ∃ f, f ∈ fms ∧ botMsg_of botMsg f = Return (Some m).
Proof.
  induction fms as [|f fms IH]; intros force m Hm; simpl in Hm.
  - by apply elem_of_nil in Hm.
  - destruct (botMsg_of botMsg f) as [[m'|]|e] eqn:E.
    + destruct (deliver botMsg fms false) as [q r] eqn:D. simpl in Hm.
      apply elem_of_cons in Hm as [-> | Hm].
      * exists f. split; [left | done].
      * destruct (IH false m) as (f' & Hf' & Hb); [by rewrite D|].
        exists f'. split; [by right | done].
    + destruct (IH force m Hm) as (f' & Hf' & Hb).
      exists f'. split; [by right | done].
    + by apply elem_of_nil in Hm.
Qed.

Lemma select_fulfillmentMessages_subset (caps0 : gmap string val)
    (all : list FulfillmentMessage) (f : FulfillmentMessage) :
  f ∈ select_fulfillmentMessages caps0 all → f ∈ all.
Proof.
  unfold select_fulfillmentMessages.
  set (chosen := List.filter _ all).
  assert (∀ g (l : list FulfillmentMessage), f ∈ List.filter g l → f ∈ l) as Hsub.
  { intros g l Hf. apply list_elem_of_In in Hf. apply filter_In in Hf as [Hf _].
    by apply list_elem_of_In. }
  destruct chosen as [|x chosen'] eqn:E.
  - destruct (truthy _); [apply Hsub | intros Hf; by apply elem_of_nil in Hf].
  - rewrite <- E. apply Hsub.
Qed.

Lemma botMsg_of_Throw (botMsg : BotMsg) (f : FulfillmentMessage) :
  (breaks f = true →
   botMsg_of botMsg f = Throw (TypeError "simpleResponses[0].textToSpeech"))
  ∧ (breaks f = false → ∃ r, botMsg_of botMsg f = Return r).
Proof.
  unfold breaks, botMsg_of.
  destruct (fm_text f); [split; [done | by eexists]|].
  destruct (simpleResponses f) as [[|r rs]|]; [split; [done | done] | |];
    (split; [done | intros _]).
  - by eexists.
  - repeat (match goal with
            | |- context [match ?x with Some _ => _ | None => _ end] => destruct x
            end; try by eexists).
Qed.

(** Without a breaking message the loop queues the accepted messages in
    their order and keeps [forceIntentResolution] only when there is none. *)
Lemma deliver_accepted (botMsg : BotMsg) (fms : list FulfillmentMessage) :
  (∀ f, f ∈ fms → breaks f = false) →
  ∀ force,
    deliver botMsg fms force
    = (omap (accepted botMsg) fms,
       Return (force && bool_decide (omap (accepted botMsg) fms = []))).
Proof.
  induction fms as [|f fms IH]; intros Hok force; simpl.
  - by rewrite andb_true_r.
  - destruct (proj2 (botMsg_of_Throw botMsg f)) as [r Hr]; [apply Hok; left|].
    assert (accepted botMsg f = r) as Ha by (unfold accepted; rewrite Hr; by destruct r).
    rewrite Hr, Ha. destruct r as [m|].
    + rewrite IH by (intros; apply Hok; by right). simpl.
      by rewrite andb_false_r.
    + apply IH. intros; apply Hok; by right.
Qed.

(** A breaking message stops the loop: what was accepted before it stays
    queued. *)
Lemma deliver_breaks (botMsg : BotMsg) (before behind : list FulfillmentMessage)
    (f : FulfillmentMessage) :
  (∀ g, g ∈ before → breaks g = false) → breaks f = true →
  ∀ force,
    deliver botMsg (before ++ f :: behind) force
    = (omap (accepted botMsg) before,
       Throw (TypeError "simpleResponses[0].textToSpeech")).
Proof.
  intros Hok Hf. induction before as [|g before IH]; intros force; simpl.
  - by rewrite (proj1 (botMsg_of_Throw botMsg f) Hf).
  - destruct (proj2 (botMsg_of_Throw botMsg g)) as [r Hr]; [apply Hok; left|].
    assert (accepted botMsg g = r) as Ha by (unfold accepted; rewrite Hr; by destruct r).
    rewrite Hr, Ha. destruct r as [m|].
    + rewrite IH by (intros; apply Hok; by right). done.
    + apply IH. intros; apply Hok; by right.
Qed.

(** The [then] handler, by the intent it extracts and the loop it runs. *)
Lemma on_response_unfold (c : Connector) (response : Response) (q : QueryParams) :
  queryParams c = Some q →
  on_response c response
  = let c1 := with_queryParams c
                (Some {| contexts := Some [];
                         knowledgeBaseNames := knowledgeBaseNames q |}) in
    match _extractIntent c response with
    | Throw e => (c1, [], Throw e)
    | Return i =>
        match deliver (bare_of response i) (selected c response)
                (truthy (cap (caps c) DIALOGFLOW_FORCE_INTENT_RESOLUTION)) with
        | (queued, Throw e) => (c1, queued, Throw e)
        | (queued, Return forceIntentResolution) =>
            (c1,
             queued ++ (if forceIntentResolution then [bare_of response i] else []),
             Return ())
        end
    end.
Proof. intros Hq. unfold on_response. rewrite Hq. reflexivity. Qed.

Lemma _extractIntent_caps (c c1 : Connector) (response : Response) :
  caps c1 = caps c → _extractIntent c1 response = _extractIntent c response.
Proof. intros Hcaps. unfold _extractIntent. by rewrite Hcaps. Qed.

(** A turn on a started connector whose request [detectIntent] resolves. *)
Lemma UserSays_resolved (c : Connector) (msg : Msg) (detectIntent : Request → detected)
    (r : Request) (response : Response) :
  started c → r ∈ sent (UserSays c msg detectIntent) →
  detectIntent r = Resolves response →
  ∃ c1, caps c1 = caps c ∧ is_Some (queryParams c1)
        ∧ after (UserSays c msg detectIntent) = (on_response c1 response).1.1
        ∧ queued (UserSays c msg detectIntent) = (on_response c1 response).1.2
        ∧ outcome (UserSays c msg detectIntent)
          = match (on_response c1 response).2 with
            | Return _ => Return Resolved
            | Throw err =>
                Return (Rejected (Error ("Cannot send message to dialogflow container: "
                                         +:+ message_of err)))
            end.
Proof.
  intros Hst Hr Hd. pose proof Hst as (Hs & _ & [l Hl]).
  destruct (UserSays_merges c msg l Hst Hl) as (c1 & Hm & Hp & Hcaps & _).
  exists c1. split; [done|]. split.
  { unfold pending in Hp. destruct (queryParams c1); [by eexists | done]. }
  destruct Hs as [v Hv].
  assert (UserSays c msg detectIntent
          = match detectIntent (request_of c1 msg) with
            | Resolves response =>
                match on_response c1 response with
                | (c2, queued, Return _) =>
                    {| after := c2; sent := [request_of c1 msg]; queued := queued;
                       outcome := Return Resolved |}
                | (c2, queued, Throw err) =>
                    {| after := c2; sent := [request_of c1 msg]; queued := queued;
                       outcome :=
                         Return (Rejected (Error ("Cannot send message to dialogflow container: "
                                                  +:+ message_of err))) |}
                end
            | Rejects err =>
                {| after := c1; sent := [request_of c1 msg]; queued := [];
                   outcome :=
                     Return (Rejected (Error ("Cannot send message to dialogflow container: "
                                              +:+ message_of err))) |}
            end) as Hu.
  { unfold UserSays. rewrite Hv, Hm. unfold request_of. by rewrite Hcaps. }
  rewrite Hu in Hr |- *. clear Hu.
  destruct (detectIntent (request_of c1 msg)) as [response'|err] eqn:E.
  - destruct (on_response c1 response') as [[c2 qd] [u|e]] eqn:Eo; simpl in Hr |- *;
      apply list_elem_of_singleton in Hr; subst r;
      rewrite E in Hd; simplify_eq; by rewrite Eo.
  - simpl in Hr. apply list_elem_of_singleton in Hr. subst r.
    rewrite E in Hd. done.
Qed.

(** The fulfillment messages without any of the ten variants are the ones
    that are not accepted. *)
Lemma botMsg_of_None_iff (botMsg : BotMsg) (f : FulfillmentMessage) :
  botMsg_of botMsg f = Return None ↔ no_variant f.
Proof.
  unfold no_variant, no_variant_before_suggestions, no_variant_before_carouselSelect,
    no_variant_before_card, no_variant_before_quickReplies, botMsg_of.
  split.
  - intros Hb.
    destruct (fm_text f); [done|].
    destruct (simpleResponses f) as [[|? ?]|]; [done | done |].
    destruct (fm_image f); [done|].
    destruct (quickReplies f); [done|].
    destruct (card f); [done|].
    destruct (basicCard f); [done|].
    destruct (listSelect f); [done|].
    destruct (carouselSelect f); [done|].
    destruct (suggestions f); [done|].
    destruct (linkOutSuggestion f); [done|].
    by repeat split.
  - intros (((((Ht & Hs & Hi) & Hq) & Hc & Hb & Hl) & Hcs) & Hsg & Hlo).
    by rewrite Ht, Hs, Hi, Hq, Hc, Hb, Hl, Hcs, Hsg, Hlo.
Qed.

(** C3.  A bot message reaches [queueBotSays] for a fulfillment message
    through the first response variant the message has, which decides the
    populated fields: [text] sets [messageText] to [text.text[0]];
    [quickReplies] sets [buttons], one button per quick-reply string; [card]
    sets [messageText] to the card title and [cards] to one card with that
    title, the image and the buttons; [carouselSelect] sets [cards], one card
    per item (title, description, image, button of the info key);
    [suggestions] sets [buttons], one button per suggestion title; the
    fulfillment messages with none of the known variants, and only they,
    yield no bot message.  On a started connector whose request resolves,
    the queue of the turn holds exactly the bot messages of the selected
    fulfillment messages that have a variant, in their order (followed by
    the bare message of line 256 when there is none and intent resolution
    is forced): a message without a variant is not delivered. *)
Theorem botMsg_by_first_variant (sourceData : QueryResult) (nlp : Nlp)
    (f : FulfillmentMessage) :
  (∀ t, fm_text f = Some t →
     botMsg_of (bare_botMsg sourceData nlp) f
     = Return (Some {| sender := "bot"; sourceData := sourceData; nlp := nlp;
                       bm_messageText := head (text_text t);
                       bm_media := None; bm_buttons := None; bm_cards := None |}))
  ∧ (∀ qs, no_variant_before_quickReplies f → quickReplies f = Some qs →
     botMsg_of (bare_botMsg sourceData nlp) f
     = Return (Some {| sender := "bot"; sourceData := sourceData; nlp := nlp;
                       bm_messageText := None; bm_media := None;
                       bm_buttons :=
                         Some ((fun q => {| bb_text := q; bb_payload := None |}) <$> qs);
                       bm_cards := None |}))
  ∧ (∀ cd, no_variant_before_card f → card f = Some cd →
     botMsg_of (bare_botMsg sourceData nlp) f
     = Return (Some {| sender := "bot"; sourceData := sourceData; nlp := nlp;
                       bm_messageText := Some (card_title cd);
                       bm_media := None; bm_buttons := None;
                       bm_cards :=
                         Some [ {| bcard_text := card_title cd;
                                   bcard_subtext := None;
                                   bcard_image :=
                                     (fun u => {| mediaUri := u; mimeType := mime_of u;
                                                  altText := None |})
                                       <$> nonempty (card_imageUri cd);
                                   bcard_buttons :=
                                     Some ((fun q => {| bb_text := cb_text q;
                                                        bb_payload := Some (cb_postback q) |})
                                             <$> card_buttons cd) |} ] |}))
  ∧ (∀ items, no_variant_before_carouselSelect f → carouselSelect f = Some items →
     botMsg_of (bare_botMsg sourceData nlp) f
     = Return (Some {| sender := "bot"; sourceData := sourceData; nlp := nlp;
                       bm_messageText := None; bm_media := None; bm_buttons := None;
                       bm_cards :=
                         Some ((fun item =>
                                  {| bcard_text := item_title item;
                                     bcard_subtext := Some (item_description item);
                                     bcard_image :=
                                       (fun i => {| mediaUri := imageUri i;
                                                    mimeType := mime_of (imageUri i);
                                                    altText := Some (accessibilityText i) |})
                                         <$> item_image item;
                                     bcard_buttons :=
                                       key ← item_info item; key ← nonempty key;
                                       Some [ {| bb_text := key; bb_payload := None |} ] |})
                                 <$> items) |}))
  ∧ (∀ sgs, no_variant_before_suggestions f → suggestions f = Some sgs →
     botMsg_of (bare_botMsg sourceData nlp) f
     = Return (Some {| sender := "bot"; sourceData := sourceData; nlp := nlp;
                       bm_messageText := None; bm_media := None;
                       bm_buttons :=
                         Some ((fun q => {| bb_text := sg_title q; bb_payload := None |})
                                 <$> sgs);
                       bm_cards := None |}))
  ∧ (no_variant f ↔ botMsg_of (bare_botMsg sourceData nlp) f = Return None)
  ∧ (∀ (c : Connector) (msg : Msg) (detectIntent : Request → detected)
       (r : Request) (response : Response) (i : NlpIntent),
       started c → r ∈ sent (UserSays c msg detectIntent) →
       detectIntent r = Resolves response →
       _extractIntent c response = Return i →
       (∀ f', f' ∈ selected c response → breaks f' = false) →
       let botMsg := bare_of response i in
       let delivered := omap (accepted botMsg) (selected c response) in
       queued (UserSays c msg detectIntent)
       = delivered
         ++ (if truthy (cap (caps c) DIALOGFLOW_FORCE_INTENT_RESOLUTION)
                && bool_decide (delivered = [])
             then [botMsg] else [])
       ∧ ∀ f', f' ∈ selected c response →
               (accepted botMsg f' = None ↔ no_variant f')).
Proof.
  refine (conj _ (conj _ (conj _ (conj _ (conj _ (conj _ _)))))).
  - intros t Ht. unfold botMsg_of. by rewrite Ht.
  - intros qs (Ht & Hs & Hi) Hq. unfold botMsg_of. by rewrite Ht, Hs, Hi, Hq.
  - intros cd ((Ht & Hs & Hi) & Hq) Hc. unfold botMsg_of.
    by rewrite Ht, Hs, Hi, Hq, Hc.
  - intros items (((Ht & Hs & Hi) & Hq) & Hc & Hb & Hl) Hcs. unfold botMsg_of.
    by rewrite Ht, Hs, Hi, Hq, Hc, Hb, Hl, Hcs.
  - intros sgs ((((Ht & Hs & Hi) & Hq) & Hc & Hb & Hl) & Hcs) Hsg.
    unfold botMsg_of. by rewrite Ht, Hs, Hi, Hq, Hc, Hb, Hl, Hcs, Hsg.
  - symmetry. apply botMsg_of_None_iff.
  - intros c msg detectIntent r response i Hst Hr Hd Hi Hok botMsg delivered.
    destruct (UserSays_resolved c msg detectIntent r response Hst Hr Hd)
      as (c1 & Hcaps & [q Hq] & _ & Hqd & _).
    rewrite (on_response_unfold c1 response q Hq) in Hqd.
    rewrite (_extractIntent_caps c c1 response Hcaps), Hi in Hqd.
    unfold selected in Hqd. rewrite Hcaps in Hqd.
    fold (selected c response) in Hqd.
    rewrite (deliver_accepted _ _ Hok) in Hqd. simpl in Hqd.
    split; [exact Hqd|].
    intros f' Hf'. rewrite <- (botMsg_of_None_iff botMsg f').
    unfold accepted.
    destruct (proj2 (botMsg_of_Throw botMsg f') (Hok f' Hf')) as [b ->].
    destruct b; split; done.
Qed.

(** ** [Validate] and the defaults (lines 28 to 62) *)

Lemma Validate_caps (c : Connector) (k : string) :
  k ≠ DIALOGFLOW_ENABLE_KNOWLEDGEBASE →
  caps (Validate c).1 !! k = (caps c ∪ Defaults) !! k.
Proof.
  intros Hk. unfold Validate.
  repeat (match goal with
          | |- context [if ?b then _ else _] => destruct b
          | |- context [match ?x with _ => _ end] => destruct x
          end; simpl; try done);
    by rewrite lookup_insert_ne.
Qed.

Lemma Validate_never_rejects (c : Connector) (e : error) :
  (Validate c).2 ≠ Return (Rejected e).
Proof.
  unfold Validate.
  repeat (match goal with
          | |- context [if ?b then _ else _] => destruct b
          | |- context [match ?x with _ => _ end] => destruct x
          end; simpl; try done).
Qed.

(** ** The intent (lines 330 to 339) *)

Lemma existsb_is_string (name : string) (l : list val) :
  existsb (is_string name) l = true ↔ VStr name ∈ l.
Proof.
  rewrite existsb_exists. split.
  - intros (x & Hx & Hs). destruct x; try done. simpl in Hs.
    apply String.eqb_eq in Hs. subst. by apply list_elem_of_In.
  - intros Hin. exists (VStr name). split; [by apply list_elem_of_In|].
    simpl. apply String.eqb_refl.
Qed.

(** C4.  When the response has an intent and the configured
    DIALOGFLOW_FALLBACK_INTENTS is a list, the extracted intent has the
    intent's [displayName] as its name, [intentDetectionConfidence] as its
    confidence, and its incomprehension flag is [true] exactly when the
    display name is in the list and undefined otherwise; a connector that
    configures no list gets the list ['Default Fallback Intent'] from
    [Validate]; without an intent the extracted intent is the empty
    record. *)
Theorem intent_extracted (c : Connector) (response : Response) :
  (∀ (i : Intent) (l : list val),
     intent (queryResult response) = Some i →
     cap (caps c) DIALOGFLOW_FALLBACK_INTENTS = VArr l →
     ∃ flag,
       _extractIntent c response
       = Return {| intent_name := Some (displayName i);
                   confidence := Some (intentDetectionConfidence (queryResult response));
                   incomprehension := flag |}
       ∧ (flag = Some true ↔ VStr (displayName i) ∈ l)
       ∧ (flag = None ↔ VStr (displayName i) ∉ l))
  ∧ (caps c !! DIALOGFLOW_FALLBACK_INTENTS = None →
     cap (caps (Validate c).1) DIALOGFLOW_FALLBACK_INTENTS
     = VArr [VStr "Default Fallback Intent"])
  ∧ (intent (queryResult response) = None →
     _extractIntent c response
     = Return {| intent_name := None; confidence := None; incomprehension := None |}).
Proof.
  split; [|split].
  - intros i l Hi Hl. unfold _extractIntent. rewrite Hi, Hl. simpl.
    pose proof (existsb_is_string (displayName i) l) as Hex.
    destruct (existsb _ l); eexists; (split; [done|]).
    + split; split; try done.
      * intros _. by apply Hex.
      * intros Hn. exfalso. apply Hn. by apply Hex.
    + split; split; try done.
      * intros Hin. apply Hex in Hin. done.
      * intros _ Hin. apply Hex in Hin. done.
  - intros Hnone. unfold cap. rewrite Validate_caps by done.
    rewrite lookup_union_r by done. reflexivity.
  - intros Hi. unfold _extractIntent. by rewrite Hi.
Qed.

(** ** The query (lines 119 to 135) *)

Lemma UserSays_queryInput (c : Connector) (msg : Msg)
    (detectIntent : Request → detected) (r : Request) :
  r ∈ sent (UserSays c msg detectIntent) →
  queryInput r = queryInput_of (caps c) msg.
Proof.
  unfold UserSays.
  destruct (sessionClient c); [|intros Hr; by apply elem_of_nil in Hr].
  destruct (_ ≫= _) as [c1|e]; [|intros Hr; by apply elem_of_nil in Hr].
  destruct (detectIntent _) as [response|err].
  - destruct (on_response c1 response) as [[c2 qd] [u|e]]; simpl;
      intros Hr; apply list_elem_of_singleton in Hr; by subst.
  - simpl. intros Hr. apply list_elem_of_singleton in Hr. by subst.
Qed.

(** C5.  With a truthy DIALOGFLOW_BUTTON_EVENTS and a message whose buttons
    list is not empty and whose first button has a text or a payload,
    [UserSays] builds an event query: when the payload (the button text
    when there is no payload) parses as JSON, the parsed value is merged into
    the event object over the configured language code, and when it does not
    parse, it becomes the event name next to the configured language code.
    In every other case the query is a text query with [msg.messageText] and
    the configured language code.  A started connector sends one request,
    and the request that is sent carries that query. *)
Theorem button_event_or_text_query (caps0 : gmap string val) (msg : Msg) :
  let languageCode := cap caps0 DIALOGFLOW_LANGUAGE_CODE in
  (∀ (b : Button) (bs : list Button),
     truthy (cap caps0 DIALOGFLOW_BUTTON_EVENTS) = true →
     buttons msg = Some (b :: bs) →
     truthy (js_or (btn_text b) (btn_payload b)) = true →
     let payload := js_or (btn_payload b) (btn_text b) in
     (∀ s parsed,
        to_string payload = Some s → JSON_parse s = Some parsed →
        let event := assign [("languageCode", languageCode)] (own_props parsed) in
        queryInput_of caps0 msg = QueryEvent event
        ∧ (get_prop (own_props parsed) "languageCode" = None →
           get_prop event "languageCode" = Some languageCode)
        ∧ (∀ k v before behind,
             own_props parsed = before ++ (k, v) :: behind →
             get_prop behind k = None → get_prop event k = Some v))
     ∧ (to_string payload ≫= JSON_parse = None →
        queryInput_of caps0 msg
        = QueryEvent [("name", payload); ("languageCode", languageCode)]))
  ∧ (truthy (cap caps0 DIALOGFLOW_BUTTON_EVENTS) = false
     ∨ buttons msg = None ∨ buttons msg = Some []
     ∨ (∃ b bs, buttons msg = Some (b :: bs)
                ∧ truthy (btn_text b) = false ∧ truthy (btn_payload b) = false) →
     queryInput_of caps0 msg = QueryText (messageText msg) languageCode)
  ∧ (∀ (c : Connector) (detectIntent : Request → detected) (r : Request),
       caps c = caps0 → r ∈ sent (UserSays c msg detectIntent) →
       queryInput r = queryInput_of caps0 msg)
  ∧ (∀ (c : Connector) (detectIntent : Request → detected),
       caps c = caps0 → started c →
       ∃ r, sent (UserSays c msg detectIntent) = [r]
            ∧ queryInput r = queryInput_of caps0 msg).
Proof.
  intros languageCode. split; [|split; [|split]].
  - intros b bs Hbe Hb Htp payload. split.
    + intros s parsed Hs Hp event. split; [|split].
      * unfold queryInput_of. rewrite Hbe, Hb, Htp. fold payload.
        rewrite Hs. simpl. by rewrite Hp.
      * intros Hnone. unfold event. by rewrite get_prop_assign_absent.
      * intros k v before behind Hprops Hbehind. unfold event.
        rewrite Hprops. by apply get_prop_assign_present.
    + intros Hnone. unfold queryInput_of. rewrite Hbe, Hb, Htp. fold payload.
      by rewrite Hnone.
  - intros [Hbe | [Hb | [Hb | (b & bs & Hb & Ht & Hp)]]]; unfold queryInput_of.
    + by rewrite Hbe.
    + rewrite Hb. by destruct (truthy _).
    + rewrite Hb. by destruct (truthy _).
    + rewrite Hb. unfold js_or. rewrite Ht. simpl. rewrite Hp.
      by destruct (truthy (cap caps0 DIALOGFLOW_BUTTON_EVENTS)).
  - intros c detectIntent r <-. apply UserSays_queryInput.
  - intros c detectIntent <- Hst. pose proof Hst as (_ & _ & [l Hl]).
    destruct (UserSays_started c msg l detectIntent Hst Hl)
      as (c1 & _ & Hcaps & _ & _ & _ & Hsent & _).
    exists (request_of c1 msg). split; [done|]. simpl. by rewrite Hcaps.
Qed.

(** ** [Validate] (lines 42 to 62) *)

Lemma prefixed_key_not_knowledgebase (prefix_ suffix : string) :
  prefix_ = DIALOGFLOW_INPUT_CONTEXT_NAME ∨ prefix_ = DIALOGFLOW_INPUT_CONTEXT_LIFESPAN →
  prefix_ +:+ suffix ≠ DIALOGFLOW_ENABLE_KNOWLEDGEBASE.
Proof.
  intros [-> | ->] Heq;
    cbv [String.append DIALOGFLOW_INPUT_CONTEXT_NAME DIALOGFLOW_INPUT_CONTEXT_LIFESPAN
         DIALOGFLOW_ENABLE_KNOWLEDGEBASE] in Heq; discriminate.
Qed.

(** The suffixes are those of the capability keys that start with
    DIALOGFLOW_INPUT_CONTEXT_NAME. *)
Lemma elem_of_getContextSuffixes (c : Connector) (suffix : string) :
  suffix ∈ _getContextSuffixes c
  ↔ ∃ key, is_Some (caps c !! key)
           ∧ String.prefix DIALOGFLOW_INPUT_CONTEXT_NAME key = true
           ∧ suffix = string_drop (String.length DIALOGFLOW_INPUT_CONTEXT_NAME) key.
Proof.
  unfold _getContextSuffixes. rewrite list_elem_of_fmap. split.
  - intros (key & -> & Hkey). exists key.
    rewrite merge_sort_Permutation in Hkey.
    apply list_elem_of_filter in Hkey as [Hp Hkey].
    apply list_elem_of_fmap in Hkey as ([k v] & -> & Hkv).
    apply elem_of_map_to_list in Hkv. simpl in *. eauto.
  - intros (key & [v Hv] & Hp & ->). exists key. split; [done|].
    rewrite merge_sort_Permutation. apply list_elem_of_filter. split; [done|].
    apply list_elem_of_fmap. exists (key, v). split; [done|].
    by apply elem_of_map_to_list.
Qed.

Lemma find_some_exists {A} (f : A → bool) (l : list A) (x : A) :
  x ∈ l → f x = true → ∃ y, List.find f l = Some y ∧ f y = true.
Proof.
  intros Hin Hx. destruct (List.find f l) as [y|] eqn:E.
  - exists y. split; [done|]. by apply find_some in E as [_ ?].
  - exfalso. apply list_elem_of_In in Hin.
    pose proof (find_none f l E x Hin). congruence.
Qed.

(** The capabilities that [Validate] checks, after the defaults. *)
Lemma Validate_outcome (c : Connector) :
  let caps1 := caps c ∪ Defaults in
  let kb := cap caps1 DIALOGFLOW_ENABLE_KNOWLEDGEBASE in
  truthy (cap caps1 DIALOGFLOW_PROJECT_ID) = true →
  truthy (cap caps1 DIALOGFLOW_CLIENT_EMAIL) = true →
  truthy (cap caps1 DIALOGFLOW_PRIVATE_KEY) = true →
  isArray kb || isBoolean (knowledgebase_operand kb) = true →
  ∃ caps2,
    (∀ k, k ≠ DIALOGFLOW_ENABLE_KNOWLEDGEBASE → caps2 !! k = caps1 !! k)
    ∧ (∀ k, is_Some (caps2 !! k) ↔ is_Some (caps1 !! k))
    ∧ (Validate c).2
      = match List.find (suffix_incomplete caps2)
                (_getContextSuffixes (with_caps c caps2)) with
        | Some contextSuffix => Throw (suffix_error contextSuffix)
        | None => Return Resolved
        end.
Proof.
  intros caps1 kb Hp He Hk Hkb. unfold Validate. simpl.
  fold caps1. rewrite Hp, He, Hk. simpl. fold kb.
  assert (negb (isArray kb) && negb (isBoolean (knowledgebase_operand kb)) = false) as ->.
  { destruct (isArray kb), (isBoolean (knowledgebase_operand kb)); done. }
  destruct kb as [| | b | n | s | | l | fs] eqn:Ekb;
    try (exists caps1; split; [done|]; split; [done|];
         by destruct (List.find _ _)).
  exists (<[DIALOGFLOW_ENABLE_KNOWLEDGEBASE := VBool (String.eqb s "true")]> caps1).
  split; [|split].
  - intros k Hne. by rewrite lookup_insert_ne.
  - intros k. destruct (decide (k = DIALOGFLOW_ENABLE_KNOWLEDGEBASE)) as [->|Hne].
    + rewrite lookup_insert_eq. split; [|by eauto]. intros _.
      unfold kb, cap in Ekb. destruct (caps1 !! DIALOGFLOW_ENABLE_KNOWLEDGEBASE); [by eauto|done].
    + by rewrite lookup_insert_ne.
  - by destruct (List.find _ _).
Qed.

Lemma suffix_incomplete_agree (caps1 caps2 : gmap string val) (suffix : string) :
  (∀ k, k ≠ DIALOGFLOW_ENABLE_KNOWLEDGEBASE → caps2 !! k = caps1 !! k) →
  suffix_incomplete caps2 suffix = suffix_incomplete caps1 suffix.
Proof.
  intros Hagree. unfold suffix_incomplete, cap.
  rewrite !Hagree; [done | |]; apply prefixed_key_not_knowledgebase; auto.
Qed.

(** C6.  [Validate] ends by throwing or by returning a resolved promise,
    never by returning a rejected one.  Whenever one of
    DIALOGFLOW_PROJECT_ID, DIALOGFLOW_CLIENT_EMAIL and DIALOGFLOW_PRIVATE_KEY
    is missing (not truthy) after the defaults are applied, it throws an
    error whose message names a missing one of them; for every suffix of a
    capability key that starts with DIALOGFLOW_INPUT_CONTEXT_NAME it throws
    unless the name and the lifespan capability of that suffix are both
    present; and when all its checks pass it returns a resolved promise. *)
Theorem Validate_fails_fast (c : Connector) :
  let caps1 := caps c ∪ Defaults in
  let required :=
    [DIALOGFLOW_PROJECT_ID; DIALOGFLOW_CLIENT_EMAIL; DIALOGFLOW_PRIVATE_KEY] in
  let complete (key : string) :=
    let suffix := string_drop (String.length DIALOGFLOW_INPUT_CONTEXT_NAME) key in
    truthy (cap caps1 (DIALOGFLOW_INPUT_CONTEXT_NAME +:+ suffix)) = true
    ∧ truthy (cap caps1 (DIALOGFLOW_INPUT_CONTEXT_LIFESPAN +:+ suffix)) = true in
  (∀ k, k ∈ required → truthy (cap caps1 k) = false →
     ∃ k', k' ∈ required ∧ truthy (cap caps1 k') = false
           ∧ (Validate c).2 = Throw (Error (k' +:+ " capability required")))
  ∧ (∀ key, is_Some (caps1 !! key) →
       String.prefix DIALOGFLOW_INPUT_CONTEXT_NAME key = true →
       ¬ complete key → ∃ e, (Validate c).2 = Throw e)
  ∧ (∀ e, (Validate c).2 ≠ Return (Rejected e))
  ∧ ((∀ k, k ∈ required → truthy (cap caps1 k) = true) →
     (let kb := cap caps1 DIALOGFLOW_ENABLE_KNOWLEDGEBASE in
      isArray kb || isBoolean (knowledgebase_operand kb) = true) →
     (∀ key, is_Some (caps1 !! key) →
        String.prefix DIALOGFLOW_INPUT_CONTEXT_NAME key = true → complete key) →
     (Validate c).2 = Return Resolved).
Proof.
  intros caps1 required complete.
  assert (∀ k, k ∈ required →
            k = DIALOGFLOW_PROJECT_ID ∨ k = DIALOGFLOW_CLIENT_EMAIL
            ∨ k = DIALOGFLOW_PRIVATE_KEY) as Hreq.
  { intros k Hk. unfold required in Hk. set_solver. }
  assert ((∃ k', truthy (cap caps1 k') = false ∧ k' ∈ required
                 ∧ (Validate c).2 = Throw (Error (k' +:+ " capability required")))
          ∨ (∀ k, k ∈ required → truthy (cap caps1 k) = true)) as Hthree.
  { destruct (truthy (cap caps1 DIALOGFLOW_PROJECT_ID)) eqn:Hp.
    - destruct (truthy (cap caps1 DIALOGFLOW_CLIENT_EMAIL)) eqn:He.
      + destruct (truthy (cap caps1 DIALOGFLOW_PRIVATE_KEY)) eqn:Hk.
        * right. intros k Hk'.
          destruct (Hreq k Hk') as [-> | [-> | ->]]; done.
        * left. exists DIALOGFLOW_PRIVATE_KEY. split; [done|].
          split; [unfold required; set_solver|].
          unfold Validate. simpl. fold caps1. by rewrite Hp, He, Hk.
      + left. exists DIALOGFLOW_CLIENT_EMAIL. split; [done|].
        split; [unfold required; set_solver|].
        unfold Validate. simpl. fold caps1. by rewrite Hp, He.
    - left. exists DIALOGFLOW_PROJECT_ID. split; [done|].
      split; [unfold required; set_solver|].
      unfold Validate. simpl. fold caps1. by rewrite Hp. }
  refine (conj _ (conj _ (conj _ _))).
  - intros k Hk Hmissing. destruct Hthree as [(k' & Hf & Hin & HV) | Hall].
    + by exists k'.
    + rewrite Hall in Hmissing by done. done.
  - intros key Hkey Hprefix Hincomplete.
    destruct Hthree as [(k' & Hf & Hin & HV) | Hall]; [by eexists|].
    set (kb := cap caps1 DIALOGFLOW_ENABLE_KNOWLEDGEBASE).
    destruct (isArray kb || isBoolean (knowledgebase_operand kb)) eqn:Hkb.
    + destruct (Validate_outcome c) as (caps2 & Hagree & Hdom & ->); try done;
        try (apply Hall; unfold required; set_solver).
      set (suffix := string_drop (String.length DIALOGFLOW_INPUT_CONTEXT_NAME) key).
      destruct (find_some_exists (suffix_incomplete caps2)
                  (_getContextSuffixes (with_caps c caps2)) suffix) as (y & -> & _).
      * apply elem_of_getContextSuffixes. exists key. simpl.
        split; [by apply Hdom | done].
      * rewrite (suffix_incomplete_agree caps1) by done.
        unfold suffix_incomplete. fold suffix.
        destruct (truthy (cap caps1 (DIALOGFLOW_INPUT_CONTEXT_NAME +:+ suffix))) eqn:E1;
          [|done].
        destruct (truthy (cap caps1 (DIALOGFLOW_INPUT_CONTEXT_LIFESPAN +:+ suffix))) eqn:E2;
          [|done].
        exfalso. apply Hincomplete. unfold complete. by fold suffix.
      * by eexists.
    + unfold Validate. simpl. fold caps1.
      rewrite !Hall by (unfold required; set_solver). simpl. fold kb.
      apply orb_false_elim in Hkb as [-> ->]. simpl. by eexists.
  - apply Validate_never_rejects.
  - intros Hall Hkb Hcomplete.
    destruct (Validate_outcome c) as (caps2 & Hagree & Hdom & ->); try done;
      try (apply Hall; unfold required; set_solver).
    destruct (List.find _ _) as [y|] eqn:E; [|done].
    apply find_some in E as [Hin Hy]. apply list_elem_of_In in Hin.
    apply elem_of_getContextSuffixes in Hin as (key & Hkey & Hprefix & ->).
    simpl in Hkey. apply Hdom in Hkey.
    destruct (Hcomplete key Hkey Hprefix) as [H1 H2].
    rewrite (suffix_incomplete_agree caps1) in Hy by done.
    unfold suffix_incomplete in Hy. by rewrite H1, H2 in Hy.
Qed.

(** ** The call of [detectIntent] (lines 110 to 112 and 156 to 261) *)

(** A call sends nothing, or one request whose settling decides the rest. *)
Lemma UserSays_sent (c : Connector) (msg : Msg) (detectIntent : Request → detected) :
  sent (UserSays c msg detectIntent) = []
  ∨ ∃ r, sent (UserSays c msg detectIntent) = [r]
         ∧ ∀ err, detectIntent r = Rejects err →
             queued (UserSays c msg detectIntent) = []
             ∧ outcome (UserSays c msg detectIntent)
               = Return (Rejected (Error ("Cannot send message to dialogflow container: "
                                          +:+ message_of err))).
Proof.
  unfold UserSays.
  destruct (sessionClient c); [|by left].
  destruct (_ ≫= _) as [c1|e]; [|by left].
  right. eexists. split.
  - destruct (detectIntent _) as [response|err]; [|done].
    by destruct (on_response c1 response) as [[c2 qd] [u|e]].
  - intros err Herr. by rewrite Herr.
Qed.

(** C7.  Whenever the call of [detectIntent] rejects, the promise that
    [UserSays] returns rejects with a new error whose message is 'Cannot
    send message to dialogflow container: ' followed by the message of the
    original error, and nothing is queued.  A call of [UserSays] never hands
    more than one request to [detectIntent], and a call on a started
    connector hands over exactly one: there is no retry. *)
Theorem detectIntent_once_and_rethrown (c : Connector) (msg : Msg)
    (detectIntent : Request → detected) :
  (∀ r err,
     r ∈ sent (UserSays c msg detectIntent) → detectIntent r = Rejects err →
     outcome (UserSays c msg detectIntent)
     = Return (Rejected (Error ("Cannot send message to dialogflow container: "
                                +:+ message_of err))))
  ∧ (List.length (sent (UserSays c msg detectIntent)) ≤ 1)%nat
  ∧ (started c → List.length (sent (UserSays c msg detectIntent)) = 1).
Proof.
  split; [|split].
  - intros r err Hr Herr.
    destruct (UserSays_sent c msg detectIntent) as [Hnil | (r' & Hsent & Hrej)].
    + rewrite Hnil in Hr. by apply elem_of_nil in Hr.
    + rewrite Hsent in Hr. apply list_elem_of_singleton in Hr. subst r'.
      by apply Hrej.
  - destruct (UserSays_sent c msg detectIntent) as [-> | (r' & -> & _)]; simpl; lia.
  - intros Hst. pose proof Hst as (_ & _ & [l Hl]).
    destruct (UserSays_started c msg l detectIntent Hst Hl) as (c1 & _ & _ & _ & _ & _ & -> & _).
    done.
Qed.

(** C8.  A call of [UserSays] while there is no session client (on a new
    connector, or after [Stop]) returns a promise rejected with the message
    'not built', sends no request, queues nothing and leaves the connector,
    with its stored query parameters, as it is. *)
Theorem UserSays_not_built (c : Connector) (msg : Msg)
    (detectIntent : Request → detected) :
  (sessionClient c = None →
   UserSays c msg detectIntent
   = {| after := c; sent := []; queued := [];
        outcome := Return (Rejected (Error "not built")) |})
  ∧ sessionClient (constructor (caps c)) = None
  ∧ sessionClient (Stop c).1 = None.
Proof.
  split; [|done]. intros Hnone. unfold UserSays. by rewrite Hnone.
Qed.

(** ** The pending contexts over a conversation (lines 104 to 106, 137 to 159) *)

Lemma elem_of_merge_context (l : list Context) (x y : Context) :
  y ∈ merge_context l x → y ∈ l ∨ y = x.
Proof.
  unfold merge_context. destruct (list_find _ l) as [[i d]|].
  - intros Hy. apply list_elem_of_lookup in Hy as [j Hj].
    apply list_lookup_insert_Some in Hj as [(_ & -> & _) | (_ & Hj)]; [by right|].
    left. apply list_elem_of_lookup. eauto.
  - intros Hy. apply elem_of_app in Hy as [Hy | Hy]; [by left|].
    right. by apply list_elem_of_singleton in Hy.
Qed.

Lemma elem_of_merge_contexts (l customContexts : list Context) (y : Context) :
  y ∈ merge_contexts l customContexts → y ∈ l ∨ y ∈ customContexts.
Proof.
  unfold merge_contexts. revert l.
  induction customContexts as [|x xs IH]; intros l Hy; simpl in Hy; [by left|].
  apply IH in Hy as [Hy | Hy].
  - apply elem_of_merge_context in Hy as [Hy | ->]; [by left | right; left].
  - right. by right.
Qed.

(** The [then] handler empties the pending contexts first, whatever happens
    to the response afterwards. *)
Lemma on_response_resets (c1 : Connector) (response : Response) :
  is_Some (queryParams c1) →
  pending (on_response c1 response).1.1 = Some []
  ∧ caps (on_response c1 response).1.1 = caps c1
  ∧ sessionClient (on_response c1 response).1.1 = sessionClient c1
  ∧ contextClient (on_response c1 response).1.1 = contextClient c1
  ∧ conversationId (on_response c1 response).1.1 = conversationId c1.
Proof.
  intros [q Hq]. unfold on_response. rewrite Hq.
  destruct (_extractIntent _ _) as [i|e]; [|done].
  destruct (deliver _ _ _) as [qd [b|e]]; done.
Qed.

(** The custom contexts of a message depend on the connector only through
    its capabilities, its conversation and its context client. *)
Lemma custom_of_agree (c c' : Connector) (msg : Msg) :
  caps c' = caps c → contextClient c' = contextClient c →
  conversationId c' = conversationId c →
  custom_of c' msg = custom_of c msg.
Proof.
  intros Hcaps Hcc Hid.
  unfold custom_of, _extractCustomContexts, _createCustomContext.
  by rewrite Hcaps, Hcc, Hid.
Qed.

(** One turn on a started connector: what is sent and what is pending
    afterwards. *)
Lemma UserSays_pending (c : Connector) (msg : Msg) (l : list Context)
    (detectIntent : Request → detected) :
  started c → pending c = Some l →
  let t := UserSays c msg detectIntent in
  let merged := merge_contexts l (custom_of c msg) in
  ∃ r, sent t = [r]
       ∧ request_contexts r
         = Some (match supplied msg "contexts" with
                 | Some v => QVal v
                 | None => QContexts merged
                 end)
       ∧ (∀ response, detectIntent r = Resolves response → pending (after t) = Some [])
       ∧ (∀ err, detectIntent r = Rejects err → pending (after t) = Some merged)
       ∧ started (after t)
       ∧ caps (after t) = caps c ∧ contextClient (after t) = contextClient c
       ∧ conversationId (after t) = conversationId c.
Proof.
  intros Hst Hl t merged.
  destruct (UserSays_started c msg l detectIntent Hst Hl)
    as (c1 & Hp & Hcaps & Hsc & Hcc & Hid & Hsent & Hd).
  fold t in Hsent, Hd. fold merged in Hp.
  exists (request_of c1 msg). split; [done|].
  split; [by apply request_contexts_request_of|].
  assert (is_Some (queryParams c1)) as Hq.
  { unfold pending in Hp. destruct (queryParams c1); [by eexists | done]. }
  destruct Hst as (Hs & Hc & _).
  destruct (detectIntent (request_of c1 msg)) as [response|err].
  - destruct Hd as [-> _].
    destruct (on_response_resets c1 response Hq) as (Hr & Hcaps' & Hsc' & Hcc' & Hid').
    split; [by intros ? _|]. split; [done|]. split.
    { unfold started. rewrite Hsc', Hcc', Hsc, Hcc.
      fold (pending (on_response c1 response).1.1). rewrite Hr. by eauto. }
    by rewrite Hcaps', Hcc', Hid'.
  - destruct Hd as (-> & _). split; [done|]. split; [by intros ? [= <-]|]. split.
    { unfold started. rewrite Hsc, Hcc. fold (pending c1). rewrite Hp. by eauto. }
    done.
Qed.

(** What the requests of a conversation hold as contexts: the value that the
    message of the turn supplied, or a list of contexts each of which was
    pending at the start or came with a message of the conversation. *)
Lemma run_request_contexts (turns : list (Msg * (Request → detected))) :
  ∀ (c : Connector) (l : list Context),
    started c → pending c = Some l →
    ∀ r, r ∈ (run c turns).2 →
         ∃ turn, turn ∈ turns
           ∧ match supplied turn.1 "contexts" with
             | Some v => request_contexts r = Some (QVal v)
             | None =>
                 ∃ l', request_contexts r = Some (QContexts l')
                       ∧ ∀ x, x ∈ l' →
                              x ∈ l ∨ ∃ turn', turn' ∈ turns ∧ x ∈ custom_of c turn'.1
             end.
Proof.
  induction turns as [|[msg detectIntent] turns IH]; intros c l Hst Hl r Hr.
  - by apply elem_of_nil in Hr.
  - simpl in Hr.
    destruct (UserSays_pending c msg l detectIntent Hst Hl)
      as (r0 & Hsent & Hcar & Hres & Hrej & Hst' & Hcaps & Hcc & Hid).
    destruct (run (after (UserSays c msg detectIntent)) turns) as [c' requests] eqn:Hrun.
    simpl in Hr. rewrite Hsent in Hr.
    assert (∀ y, y ∈ merge_contexts l (custom_of c msg) →
                 y ∈ l ∨ ∃ turn, turn ∈ (msg, detectIntent) :: turns
                                 ∧ y ∈ custom_of c turn.1) as Hmerged.
    { intros y Hy. apply elem_of_merge_contexts in Hy as [Hy | Hy]; [by left|].
      right. exists (msg, detectIntent). split; [left | done]. }
    apply elem_of_cons in Hr as [-> | Hr].
    + exists (msg, detectIntent). split; [left|]. simpl.
      destruct (supplied msg "contexts") as [v|]; [done|].
      by exists (merge_contexts l (custom_of c msg)).
    + assert (∃ l', pending (after (UserSays c msg detectIntent)) = Some l'
                    ∧ ∀ y, y ∈ l' → y ∈ merge_contexts l (custom_of c msg))
        as (l' & Hl' & Hsub).
      { destruct (detectIntent r0) as [response|err] eqn:E.
        - exists []. split; [by eapply Hres|]. intros y Hy. by apply elem_of_nil in Hy.
        - eexists. split; [by eapply Hrej | done]. }
      destruct (IH _ l' Hst' Hl' r) as (turn & Hturn & Hheld); [by rewrite Hrun|].
      exists turn. split; [by right|].
      destruct (supplied turn.1 "contexts") as [v|]; [done|].
      destruct Hheld as (held & Hheld & Hfrom). exists held. split; [done|].
      intros x Hx. destruct (Hfrom x Hx) as [Hin | (turn' & Hturn' & Hin)].
      * by apply Hmerged, Hsub.
      * right. exists turn'. split; [by right|].
        by rewrite <- (custom_of_agree c _ turn'.1 Hcaps Hcc Hid).
Qed.

(** C9 (amended).  On a started connector, a turn sends one request, whose
    [queryParams.contexts] is the pending collection merged with the custom
    contexts of the message, unless the message supplies [contexts] of its
    own through SET_DIALOGFLOW_QUERYPARAMS, which the request then holds
    instead.  When [detectIntent] resolves, [this.queryParams.contexts] is
    reset to the empty array before the response is processed, so that in
    every later request [queryParams.contexts] is either the value that the
    message of that request supplied through SET_DIALOGFLOW_QUERYPARAMS, or a
    list of contexts each of which was supplied through SET_DIALOGFLOW_CONTEXT
    on a later message.  When [detectIntent] rejects, the merged contexts
    stay pending for the next request. *)
Theorem pending_contexts_reset_on_success (c : Connector) (msg : Msg)
    (l : list Context) (detectIntent : Request → detected) :
  started c → pending c = Some l →
  let t := UserSays c msg detectIntent in
  let merged := merge_contexts l (custom_of c msg) in
  ∃ r, sent t = [r]
       ∧ request_contexts r
         = Some (match supplied msg "contexts" with
                 | Some v => QVal v
                 | None => QContexts merged
                 end)
       ∧ (∀ response, detectIntent r = Resolves response →
            pending (after t) = Some []
            ∧ ∀ turns r',
                r' ∈ (run (after t) turns).2 →
                ∃ turn, turn ∈ turns
                  ∧ match supplied turn.1 "contexts" with
                    | Some v => request_contexts r' = Some (QVal v)
                    | None =>
                        ∃ l', request_contexts r' = Some (QContexts l')
                              ∧ ∀ x, x ∈ l' →
                                     ∃ turn', turn' ∈ turns ∧ x ∈ custom_of c turn'.1
                    end)
       ∧ (∀ err, detectIntent r = Rejects err → pending (after t) = Some merged).
Proof.
  intros Hst Hl t merged.
  destruct (UserSays_pending c msg l detectIntent Hst Hl)
    as (r & Hsent & Hcar & Hres & Hrej & Hst' & Hcaps & Hcc & Hid).
  exists r. split; [done|]. split; [done|]. split; [|done].
  intros response Hr. split; [by eapply Hres|].
  intros turns r' Hr'.
  destruct (run_request_contexts turns (after t) [] Hst' (Hres _ Hr) r' Hr')
    as (turn & Hturn & Hheld).
  exists turn. split; [done|].
  destruct (supplied turn.1 "contexts") as [v|]; [done|].
  destruct Hheld as (held & Hheld & Hfrom). exists held. split; [done|].
  intros x Hx. destruct (Hfrom x Hx) as [Hnil | (turn' & Hturn' & Hin)];
    [by apply elem_of_nil in Hnil|].
  exists turn'. split; [done|].
  by rewrite <- (custom_of_agree c (after t) turn'.1 Hcaps Hcc Hid).
Qed.

Lemma mapM_Return_length {A B} (f : A → completion B) (l : list A) (k : list B) :
  mapM f l = Return k → List.length k = List.length l.
Proof.
  revert k. induction l as [|x l IH]; intros k E; simpl in E.
  - cbv [mret completion_ret] in E. by simplify_eq.
  - destruct (f x) as [y|e]; [|done]. simpl in E.
    destruct (mapM f l) as [ys|e]; [|done].
    cbv [mbind completion_bind mret completion_ret] in E. simplify_eq.
    simpl. f_equal. by apply IH.
Qed.

(** A connector on which [Start] resolved is started, with the initial
    contexts pending. *)
Lemma Start_started (c : Connector) (uuid : string) (listKnowledgeBases : kb_listing) :
  (Start c uuid listKnowledgeBases).2 = Resolved →
  started (Start c uuid listKnowledgeBases).1
  ∧ ∃ initial, pending (Start c uuid listKnowledgeBases).1 = Some initial
               ∧ List.length initial
                 = List.length (_getContextSuffixes (Start c uuid listKnowledgeBases).1).
Proof.
  unfold Start.
  set (c1 := {| caps := caps c; sessionOpts := sessionOpts c;
                conversationId := VStr uuid; queryParams := _; kbNames := kbNames c;
                sessionClient := sessionClient c; sessionPath := sessionPath c;
                contextClient := contextClient c |}).
  destruct (if isBoolean _ && truthy _ then _ else _) as [c2|e]; [|done].
  destruct (mapM _ _) as [initial|e] eqn:E; [|done].
  intros _. simpl. split.
  - unfold started. simpl. by eauto.
  - exists initial. split; [done|]. by apply mapM_Return_length in E.
Qed.

(** ** The lifespan of a custom context (lines 311 to 328) *)




End Properties.

(** * Further properties of the connector *)

Section Further.
Context `{Host}.

Local Abbreviation val := (value number).

(** ** What a turn leaves untouched (lines 110 to 262) *)

Lemma merge_custom_frame (c c1 : Connector) (customContexts : list Context) :
  merge_custom c customContexts = Return c1 →
  caps c1 = caps c ∧ sessionOpts c1 = sessionOpts c
  ∧ conversationId c1 = conversationId c ∧ kbNames c1 = kbNames c
  ∧ sessionClient c1 = sessionClient c ∧ sessionPath c1 = sessionPath c
  ∧ contextClient c1 = contextClient c
  ∧ (queryParams c1 ≫= knowledgeBaseNames) = (queryParams c ≫= knowledgeBaseNames)
  ∧ (is_Some (queryParams c1) ↔ is_Some (queryParams c)).
Proof.
  unfold merge_custom. destruct customContexts as [|x xs].
  - intros [= <-]. by repeat split.
  - destruct (queryParams c) as [q|] eqn:Hq; [|done].
    destruct (contexts q); [|done]. intros [= <-]. simpl.
    repeat split; eauto.
Qed.

Lemma on_response_frame (c : Connector) (response : Response) :
  caps (on_response c response).1.1 = caps c
  ∧ sessionOpts (on_response c response).1.1 = sessionOpts c
  ∧ conversationId (on_response c response).1.1 = conversationId c
  ∧ kbNames (on_response c response).1.1 = kbNames c
  ∧ sessionClient (on_response c response).1.1 = sessionClient c
  ∧ sessionPath (on_response c response).1.1 = sessionPath c
  ∧ contextClient (on_response c response).1.1 = contextClient c
  ∧ (queryParams (on_response c response).1.1 ≫= knowledgeBaseNames)
    = (queryParams c ≫= knowledgeBaseNames)
  ∧ (is_Some (queryParams (on_response c response).1.1) ↔ is_Some (queryParams c)).
Proof.
  unfold on_response. destruct (queryParams c) as [q|] eqn:Hq.
  - destruct (_extractIntent _ _) as [i|e];
      [destruct (deliver _ _ _) as [qd [b|e]]|]; simpl;
      rewrite ?Hq; repeat split; eauto.
  - simpl. rewrite Hq. by repeat split.
Qed.

(** X1.  A call of [UserSays] changes nothing of the connector but the
    contexts in [this.queryParams]: the capabilities, the session options,
    the conversation id, the knowledge base names, the clients and the
    session path stay as they are, [this.queryParams] stays an object or
    stays missing, and its [knowledgeBaseNames] keep their value. *)
Theorem UserSays_changes_contexts_only (c : Connector) (msg : Msg)
    (detectIntent : Request → detected) :
  let c' := after (UserSays c msg detectIntent) in
  caps c' = caps c ∧ sessionOpts c' = sessionOpts c
  ∧ conversationId c' = conversationId c ∧ kbNames c' = kbNames c
  ∧ sessionClient c' = sessionClient c ∧ sessionPath c' = sessionPath c
  ∧ contextClient c' = contextClient c
  ∧ (queryParams c' ≫= knowledgeBaseNames) = (queryParams c ≫= knowledgeBaseNames)
  ∧ (is_Some (queryParams c') ↔ is_Some (queryParams c)).
Proof.
  unfold UserSays. destruct (sessionClient c) eqn:Hs; [|simpl; by rewrite ?Hs].
  destruct (_extractCustomContexts c msg) as [customContexts|e]; simpl;
    [|by rewrite ?Hs].
  destruct (merge_custom c customContexts) as [c1|e] eqn:Hm; simpl; [|by rewrite ?Hs].
  pose proof (merge_custom_frame c c1 customContexts Hm)
    as (E1 & E2 & E3 & E4 & E5 & E6 & E7 & E8 & E9).
  destruct (detectIntent _) as [response|err]; simpl.
  - pose proof (on_response_frame c1 response)
      as (F1 & F2 & F3 & F4 & F5 & F6 & F7 & F8 & F9).
    destruct (on_response c1 response) as [[c2 qd] [u|e]]; simpl in *;
      intuition congruence.
  - intuition congruence.
Qed.

(** ** The platform of the fulfillment messages (lines 172 to 181) *)

Lemma filter_nil_iff {A} (f : A → bool) (l : list A) :
  List.filter f l = [] ↔ ∀ x, x ∈ l → f x = false.
Proof.
  induction l as [|x l IH]; simpl.
  - split; [intros _ y Hy; by apply elem_of_nil in Hy | done].
  - destruct (f x) eqn:E; split.
    + done.
    + intros Hall. rewrite Hall in E; [done | left].
    + intros Hnil y Hy. apply elem_of_cons in Hy as [-> | Hy]; [done|].
      by apply IH.
    + intros Hall. apply IH. intros y Hy. apply Hall. by right.
Qed.

(** X2.  Without a DIALOGFLOW_OUTPUT_PLATFORM the fulfillment messages of
    the unspecified platform are selected.  With one, the messages of that
    platform are selected when there is any, and no message of another
    platform with them; only when there is none do the messages of the
    unspecified platform take their place. *)
Theorem fulfillmentMessages_by_platform (caps0 : gmap string val)
    (all : list FulfillmentMessage) :
  let outputPlatform := cap caps0 DIALOGFLOW_OUTPUT_PLATFORM in
  (truthy outputPlatform = false →
   select_fulfillmentMessages caps0 all = List.filter platform_unspecified all)
  ∧ (truthy outputPlatform = true →
     (∃ f, f ∈ all ∧ platform_is outputPlatform f = true) →
     select_fulfillmentMessages caps0 all
     = List.filter (platform_is outputPlatform) all)
  ∧ (truthy outputPlatform = true →
     (∀ f, f ∈ all → platform_is outputPlatform f = false) →
     select_fulfillmentMessages caps0 all = List.filter platform_unspecified all).
Proof.
  intros outputPlatform. unfold select_fulfillmentMessages. fold outputPlatform.
  split; [|split]; intros Ht.
  - rewrite Ht. simpl.
    by destruct (List.filter _ all).
  - intros (f & Hf & Hp). rewrite Ht. simpl.
    assert (List.filter (λ f0, platform_is outputPlatform f0 || false) all
            = List.filter (platform_is outputPlatform) all) as ->.
    { apply filter_ext. intros x. by rewrite orb_false_r. }
    destruct (List.filter (platform_is outputPlatform) all) eqn:E; [|done].
    exfalso. rewrite filter_nil_iff in E. rewrite E in Hp; done.
  - intros Hnone. rewrite Ht. simpl.
    assert (List.filter (λ f0, platform_is outputPlatform f0 || false) all = []) as ->;
      [|done].
    apply filter_nil_iff. intros x Hx. by rewrite Hnone.
Qed.

(** ** What a turn queues (lines 156 to 261) *)

(** X3.  On a started connector, when [detectIntent] resolves with a
    response whose intent is extracted and whose selected fulfillment
    messages all can be read, the promise of [UserSays] resolves and the
    queue holds the bot messages of the accepted fulfillment messages in
    their order, followed by one bare bot message exactly when none was
    accepted and DIALOGFLOW_FORCE_INTENT_RESOLUTION is truthy; with that
    capability truthy (the default) at least one bot message is queued. *)
Theorem UserSays_queues_in_order (c : Connector) (msg : Msg)
    (detectIntent : Request → detected) (r : Request) (response : Response)
    (i : NlpIntent) :
  started c → r ∈ sent (UserSays c msg detectIntent) →
  detectIntent r = Resolves response →
  _extractIntent c response = Return i →
  (∀ f, f ∈ selected c response → breaks f = false) →
  let force := truthy (cap (caps c) DIALOGFLOW_FORCE_INTENT_RESOLUTION) in
  let answers := omap (accepted (bare_of response i)) (selected c response) in
  outcome (UserSays c msg detectIntent) = Return Resolved
  ∧ queued (UserSays c msg detectIntent)
    = answers ++ (if force && bool_decide (answers = [])
                  then [bare_of response i] else [])
  ∧ (force = true → queued (UserSays c msg detectIntent) ≠ []).
Proof.
  intros Hst Hr Hd Hi Hok force answers.
  destruct (UserSays_resolved c msg detectIntent r response Hst Hr Hd)
    as (c1 & Hcaps & [q Hq] & _ & Hqd & Hout).
  rewrite (on_response_unfold c1 response q Hq) in Hqd, Hout.
  rewrite (_extractIntent_caps c c1 response Hcaps), Hi in Hqd, Hout.
  unfold selected in Hqd, Hout. rewrite Hcaps in Hqd, Hout.
  fold (selected c response) in Hqd, Hout.
  rewrite (deliver_accepted _ _ Hok) in Hqd, Hout. simpl in Hqd, Hout.
  fold force answers in Hqd. split; [done|]. split; [done|].
  intros Hf. rewrite Hqd, Hf. simpl.
  by destruct answers as [|a answers'].
Qed.

(** X4.  On a started connector, when the first selected fulfillment message
    that cannot be read (simple responses without an element) comes after
    messages that can, the bot messages accepted before it are queued all
    the same, the promise of [UserSays] rejects with the wrapped error, no
    bare bot message is added, and the pending contexts are reset. *)
Theorem UserSays_queues_before_failure (c : Connector) (msg : Msg)
    (detectIntent : Request → detected) (r : Request) (response : Response)
    (i : NlpIntent) (before behind : list FulfillmentMessage)
    (f : FulfillmentMessage) :
  started c → r ∈ sent (UserSays c msg detectIntent) →
  detectIntent r = Resolves response →
  _extractIntent c response = Return i →
  selected c response = before ++ f :: behind →
  (∀ g, g ∈ before → breaks g = false) → breaks f = true →
  outcome (UserSays c msg detectIntent)
  = Return (Rejected (Error ("Cannot send message to dialogflow container: "
                             +:+ message_of (TypeError "simpleResponses[0].textToSpeech"))))
  ∧ queued (UserSays c msg detectIntent) = omap (accepted (bare_of response i)) before
  ∧ pending (after (UserSays c msg detectIntent)) = Some [].
Proof.
  intros Hst Hr Hd Hi Hsel Hok Hf.
  destruct (UserSays_resolved c msg detectIntent r response Hst Hr Hd)
    as (c1 & Hcaps & [q Hq] & Hafter & Hqd & Hout).
  rewrite Hafter.
  destruct (on_response_resets c1 response (ex_intro _ q Hq)) as (Hreset & _).
  rewrite (on_response_unfold c1 response q Hq) in Hqd, Hout.
  rewrite (_extractIntent_caps c c1 response Hcaps), Hi in Hqd, Hout.
  unfold selected in Hqd, Hout. rewrite Hcaps in Hqd, Hout.
  fold (selected c response) in Hqd, Hout. rewrite Hsel in Hqd, Hout.
  rewrite (deliver_breaks _ _ _ _ Hok Hf) in Hqd, Hout. simpl in Hqd, Hout.
  done.
Qed.

(** ** [Start] (lines 75 to 108) *)

(** X5.  When the promise of [Start] resolves, the connector is started with
    the given conversation id, a session path and a session client that
    speaks v2beta1 exactly when knowledge base names are known; the pending
    contexts are one per context suffix, in the order of the suffixes, each
    named by the context path of the capability DIALOGFLOW_INPUT_CONTEXT_NAME
    with that suffix and carrying the integer that [parseInt] reads from the
    lifespan capability; and the stored query parameters hold these contexts
    only, without knowledge base names. *)
Theorem Start_seeds_contexts (c : Connector) (uuid : string)
    (listKnowledgeBases : kb_listing) :
  (Start c uuid listKnowledgeBases).2 = Resolved →
  let c' := (Start c uuid listKnowledgeBases).1 in
  let project := cap (caps c) DIALOGFLOW_PROJECT_ID in
  started c' ∧ caps c' = caps c ∧ conversationId c' = VStr uuid
  ∧ sessionPath c' = VStr (sessionPath_of project (VStr uuid))
  ∧ sessionClient c'
    = Some (match kbNames c' with Some (_ :: _) => V2beta1 | _ => V2 end)
  ∧ ∃ initial,
      queryParams c' = Some {| contexts := Some initial; knowledgeBaseNames := None |}
      ∧ Forall2
          (fun contextSuffix x =>
             ctx_name x
             = contextPath project (VStr uuid)
                 (cap (caps c) (DIALOGFLOW_INPUT_CONTEXT_NAME +:+ contextSuffix))
             ∧ parseInt (cap (caps c)
                           (DIALOGFLOW_INPUT_CONTEXT_LIFESPAN +:+ contextSuffix))
               = Return (ctx_lifespanCount x))
          (_getContextSuffixes c) initial.
Proof.
  unfold Start.
  set (c1 := {| caps := caps c; sessionOpts := sessionOpts c;
                conversationId := VStr uuid; queryParams := _; kbNames := kbNames c;
                sessionClient := sessionClient c; sessionPath := sessionPath c;
                contextClient := contextClient c |}).
  assert (∀ c2, (if isBoolean (cap (caps c1) DIALOGFLOW_ENABLE_KNOWLEDGEBASE)
                    && truthy (cap (caps c1) DIALOGFLOW_ENABLE_KNOWLEDGEBASE)
                 then match listKnowledgeBases with
                      | KbResolves resources =>
                          inl (with_kbNames c1 (map VStr <$> resources))
                      | KbRejects e => inr e
                      end
                 else match cap (caps c1) DIALOGFLOW_ENABLE_KNOWLEDGEBASE with
                      | VArr names => inl (with_kbNames c1 (Some names))
                      | _ => inl c1
                      end) = inl c2 →
                caps c2 = caps c ∧ conversationId c2 = VStr uuid) as Hlisted.
  { intros c2.
    destruct (isBoolean _ && truthy _).
    - destruct listKnowledgeBases; [|done]. by intros [= <-].
    - destruct (cap (caps c1) DIALOGFLOW_ENABLE_KNOWLEDGEBASE); by intros [= <-]. }
  destruct (if isBoolean _ && truthy _ then _ else _) as [c2|e]; [|done].
  destruct (Hlisted c2 eq_refl) as [Hcaps Hid].
  destruct (mapM _ _) as [initial|e] eqn:E; [|done].
  intros _. simpl. rewrite Hcaps, Hid.
  split; [unfold started; simpl; by eauto|].
  do 3 (split; [done|]).
  split; [by destruct (kbNames c2) as [[|? ?]|]|].
  exists initial. split; [done|].
  apply mapM_Return_Forall2 in E.
  unfold _getContextSuffixes in E |- *. simpl in E. rewrite Hcaps in E.
  eapply Forall2_impl; [exact E|].
  intros contextSuffix x. unfold _createInitialContext. simpl.
  rewrite ?Hcaps, ?Hid.
  destruct (parseInt _) as [n|e]; [|done]. simpl.
  cbv [mret completion_ret]. by intros [= <-].
Qed.

(** The requests never take [knowledgeBaseNames] from a connector that stores
    none. *)
Lemma request_without_knowledgeBaseNames (c1 : Connector) (msg : Msg) (l : list val) :
  without_knowledgeBaseNames c1 →
  get_prop (request_queryParams c1 msg) "knowledgeBaseNames" ≠ Some (QNames l).
Proof.
  intros Hno Hget. unfold request_queryParams in Hget.
  apply get_prop_assign_Some in Hget as [Hget | Hget].
  - apply get_prop_assign_Some in Hget as [Hget | Hget]; [done|].
    unfold queryParams_props in Hget.
    destruct (queryParams c1) as [q|] eqn:Hq; [|by apply elem_of_nil in Hget].
    rewrite (Hno q Hq) in Hget. rewrite app_nil_r in Hget.
    destruct (contexts q); [|by apply elem_of_nil in Hget].
    by apply list_elem_of_singleton in Hget.
  - apply list_elem_of_fmap in Hget as ([k v] & Heq & _). done.
Qed.

Lemma without_knowledgeBaseNames_bind (c : Connector) :
  is_Some (queryParams c) →
  without_knowledgeBaseNames c ↔ queryParams c ≫= knowledgeBaseNames = None.
Proof.
  intros [q Hq]. unfold without_knowledgeBaseNames. rewrite Hq. simpl. split.
  - intros Hno. by apply Hno.
  - by intros Hno q' [= <-].
Qed.

Lemma without_knowledgeBaseNames_frame (c c1 : Connector) :
  queryParams c1 ≫= knowledgeBaseNames = queryParams c ≫= knowledgeBaseNames →
  (is_Some (queryParams c1) ↔ is_Some (queryParams c)) →
  without_knowledgeBaseNames c → without_knowledgeBaseNames c1.
Proof.
  intros Hkb Hq Hno q1 Hq1.
  assert (is_Some (queryParams c)) as Hsome by (apply Hq; by eexists).
  apply without_knowledgeBaseNames_bind in Hno; [|done].
  rewrite Hno, Hq1 in Hkb. done.
Qed.

Lemma UserSays_without_knowledgeBaseNames (c : Connector) (msg : Msg)
    (detectIntent : Request → detected) :
  without_knowledgeBaseNames c →
  without_knowledgeBaseNames (after (UserSays c msg detectIntent))
  ∧ ∀ r l, r ∈ sent (UserSays c msg detectIntent) →
           get_prop (req_queryParams r) "knowledgeBaseNames" ≠ Some (QNames l).
Proof.
  intros Hno. unfold UserSays.
  destruct (sessionClient c);
    [|split; [done | intros r l Hr; by apply elem_of_nil in Hr]].
  destruct (_extractCustomContexts c msg) as [customContexts|e]; simpl;
    [|split; [done | intros r l Hr; by apply elem_of_nil in Hr]].
  destruct (merge_custom c customContexts) as [c1|e] eqn:Hm; simpl;
    [|split; [done | intros r l Hr; by apply elem_of_nil in Hr]].
  assert (without_knowledgeBaseNames c1) as Hno1.
  { pose proof (merge_custom_frame c c1 customContexts Hm)
      as (_ & _ & _ & _ & _ & _ & _ & Hkb & Hq).
    by apply (without_knowledgeBaseNames_frame c c1). }
  assert (∀ r' l, r' ∈ [ {| session := sessionPath c1;
                             queryInput := queryInput_of (caps c) msg;
                             req_queryParams := request_queryParams c1 msg |} ] →
                  get_prop (req_queryParams r') "knowledgeBaseNames" ≠ Some (QNames l))
    as Hreq.
  { intros r' l Hr'. apply list_elem_of_singleton in Hr'. subst r'. simpl.
    by apply request_without_knowledgeBaseNames. }
  destruct (detectIntent _) as [response|err]; [|done].
  pose proof (on_response_frame c1 response)
    as (_ & _ & _ & _ & _ & _ & _ & Hkb & Hq).
  destruct (on_response c1 response) as [[c2 qd] [u|e]]; simpl in *;
    (split; [by apply (without_knowledgeBaseNames_frame c1 c2) | done]).
Qed.

(** After a resolved [Start] the stored query parameters hold contexts only. *)
Lemma Start_resolved_queryParams (c : Connector) (uuid : string)
    (listKnowledgeBases : kb_listing) :
  (Start c uuid listKnowledgeBases).2 = Resolved →
  ∃ initial,
    queryParams (Start c uuid listKnowledgeBases).1
    = Some {| contexts := Some initial; knowledgeBaseNames := None |}.
Proof.
  unfold Start.
  destruct (if isBoolean _ && truthy _ then _ else _) as [c2|e]; [|done].
  destruct (mapM _ _) as [initial|e]; [|done].
  intros _. by exists initial.
Qed.

(** X6.  The knowledge base names that [Start] finds are not sent: line 104
    replaces the query parameters that line 97 filled, so after a resolved
    [Start] no request of the conversation carries the connector's
    [knowledgeBaseNames], also when the session client speaks v2beta1. *)
Theorem knowledgeBaseNames_never_sent (c : Connector) (uuid : string)
    (listKnowledgeBases : kb_listing) (turns : list (Msg * (Request → detected))) :
  (Start c uuid listKnowledgeBases).2 = Resolved →
  ∀ r l, r ∈ (run (Start c uuid listKnowledgeBases).1 turns).2 →
         get_prop (req_queryParams r) "knowledgeBaseNames" ≠ Some (QNames l).
Proof.
  intros Hres.
  destruct (Start_resolved_queryParams c uuid listKnowledgeBases Hres)
    as [initial Hq].
  assert (without_knowledgeBaseNames (Start c uuid listKnowledgeBases).1) as Hno.
  { intros q Hq'. rewrite Hq in Hq'. by simplify_eq. }
  revert Hno. generalize (Start c uuid listKnowledgeBases).1. clear.
  induction turns as [|[msg detectIntent] turns IH]; intros c Hno r l Hr; simpl in Hr.
  - by apply elem_of_nil in Hr.
  - destruct (UserSays_without_knowledgeBaseNames c msg detectIntent Hno)
      as [Hno' Hsent].
    destruct (run (after (UserSays c msg detectIntent)) turns) as [c' requests] eqn:E.
    simpl in Hr. apply elem_of_app in Hr as [Hr | Hr]; [by apply Hsent|].
    apply (IH _ Hno'). by rewrite E.
Qed.

(** X7.  [Start] asks for the knowledge bases only when
    DIALOGFLOW_ENABLE_KNOWLEDGEBASE is the boolean true.  When that listing
    rejects, the promise of [Start] rejects with the same error, no client is
    created (the clients stay as they were) and the query parameters are left
    as the empty object; with any other value of the capability the listing
    plays no part. *)
Theorem Start_lists_knowledge_bases (c : Connector) (uuid : string) :
  (∀ e, cap (caps c) DIALOGFLOW_ENABLE_KNOWLEDGEBASE = VBool true →
        (Start c uuid (KbRejects e)).2 = Rejected e
        ∧ sessionClient (Start c uuid (KbRejects e)).1 = sessionClient c
        ∧ contextClient (Start c uuid (KbRejects e)).1 = contextClient c
        ∧ queryParams (Start c uuid (KbRejects e)).1
          = Some {| contexts := None; knowledgeBaseNames := None |})
  ∧ (∀ listing1 listing2,
       cap (caps c) DIALOGFLOW_ENABLE_KNOWLEDGEBASE ≠ VBool true →
       Start c uuid listing1 = Start c uuid listing2).
Proof.
  split.
  - intros e Hkb. unfold Start. simpl. by rewrite Hkb.
  - intros listing1 listing2 Hkb. unfold Start. simpl.
    destruct (cap (caps c) DIALOGFLOW_ENABLE_KNOWLEDGEBASE) as [| | [|] | | | | |];
      try done.
Qed.

(** X8.  With the clients present but no contexts in the query parameters (as
    a restart that fails after an earlier [Start] leaves the connector), a
    message with custom contexts makes [UserSays] throw synchronously: no
    promise is returned, nothing is sent or queued and the connector is
    unchanged; a message without custom contexts is sent as usual. *)
Theorem UserSays_throws_without_contexts (c : Connector) (msg : Msg)
    (detectIntent : Request → detected) :
  is_Some (sessionClient c) → is_Some (contextClient c) → pending c = None →
  (custom_of c msg ≠ [] →
   ∃ e, UserSays c msg detectIntent
        = {| after := c; sent := []; queued := []; outcome := Throw e |})
  ∧ (custom_of c msg = [] →
     sent (UserSays c msg detectIntent) = [request_of c msg]).
Proof.
  intros [v Hv] Hcc Hp. unfold UserSays. rewrite Hv.
  rewrite (_extractCustomContexts_defined c msg Hcc). simpl.
  split.
  - intros Hcustom. unfold merge_custom.
    destruct (custom_of c msg) as [|x xs]; [done|].
    unfold pending in Hp. destruct (queryParams c) as [q|]; [|by eexists].
    simpl in Hp. rewrite Hp. by eexists.
  - intros ->. simpl.
    destruct (detectIntent _) as [response|err] eqn:E; [|done].
    by destruct (on_response c response) as [[c2 qd] [u|e]].
Qed.

(** ** The knowledge base capability and the defaults (lines 28 to 53) *)

(** X9.  With the three required capabilities present, the check of
    DIALOGFLOW_ENABLE_KNOWLEDGEBASE on line 50 makes [Validate] throw exactly
    for the values that are falsy and not the boolean false (undefined,
    null, zero, the empty string): every truthy value passes, whatever its
    type.  A string that passes is replaced by the boolean that tells whether
    it is 'true'; any other value is kept. *)
Theorem Validate_knowledgebase_check (c : Connector) :
  let caps1 := caps c ∪ Defaults in
  let kb := cap caps1 DIALOGFLOW_ENABLE_KNOWLEDGEBASE in
  truthy (cap caps1 DIALOGFLOW_PROJECT_ID) = true →
  truthy (cap caps1 DIALOGFLOW_CLIENT_EMAIL) = true →
  truthy (cap caps1 DIALOGFLOW_PRIVATE_KEY) = true →
  ((Validate c).2
   = Throw (Error "DIALOGFLOW_ENABLE_KNOWLEDGEBASE capability has to be an array of knowledge base identifiers, or a boolean")
   ↔ truthy kb = false ∧ kb ≠ VBool false)
  ∧ (∀ s, kb = VStr s → s ≠ "" →
       caps (Validate c).1 !! DIALOGFLOW_ENABLE_KNOWLEDGEBASE
       = Some (VBool (String.eqb s "true")))
  ∧ (isString kb = false →
     caps (Validate c).1 !! DIALOGFLOW_ENABLE_KNOWLEDGEBASE
     = caps1 !! DIALOGFLOW_ENABLE_KNOWLEDGEBASE).
Proof.
  intros caps1 kb Hp He Hk.
  assert (isArray kb || isBoolean (knowledgebase_operand kb) = false
          ↔ truthy kb = false ∧ kb ≠ VBool false) as Hcheck.
  { unfold knowledgebase_operand.
    destruct kb as [| | [|] | n | s | | l | fs]; simpl;
      try destruct (number_truthy n); try destruct (String.eqb s ""); simpl;
      (split; [intros Hf; try done; by split | intros [Ht Hn]; try done]). }
  split; [|split].
  - destruct (isArray kb || isBoolean (knowledgebase_operand kb)) eqn:Hkb.
    + split; [|intros Hf; apply Hcheck in Hf; done].
      destruct (Validate_outcome c Hp He Hk Hkb) as (caps2 & _ & _ & ->).
      destruct (List.find _ _); [|done].
      unfold suffix_error. intros Heq. exfalso.
      cbv [String.append] in Heq. discriminate.
    + split; [intros _; by apply Hcheck|]. intros _.
      unfold Validate. simpl. fold caps1. rewrite Hp, He, Hk. simpl. fold kb.
      apply orb_false_elim in Hkb as [-> ->]. done.
  - intros s Hs Hne. unfold Validate. simpl. fold caps1. rewrite Hp, He, Hk. simpl.
    fold kb. rewrite Hs. simpl.
    assert (String.eqb s "" = false) as Hs'.
    { destruct (String.eqb s "") eqn:E; [|done]. by apply String.eqb_eq in E. }
    unfold knowledgebase_operand. simpl. rewrite Hs'. simpl.
    destruct (List.find _ _); simpl; apply lookup_insert_eq.
  - intros Hns. unfold Validate. simpl. fold caps1. rewrite Hp, He, Hk. simpl.
    fold kb.
    destruct (negb (isArray kb) && negb (isBoolean (knowledgebase_operand kb)));
      [done|].
    destruct kb; try done; by destruct (List.find _ _).
Qed.

(** X10.  [Validate] never overwrites a configured capability other than
    DIALOGFLOW_ENABLE_KNOWLEDGEBASE, whether it throws or not, and gives the
    capabilities that are not configured their defaults: language code
    'en-US', forced intent resolution, button events, no knowledge base. *)
Theorem Validate_applies_defaults (c : Connector) :
  (∀ k v, k ≠ DIALOGFLOW_ENABLE_KNOWLEDGEBASE →
          caps c !! k = Some v → caps (Validate c).1 !! k = Some v)
  ∧ (caps c !! DIALOGFLOW_LANGUAGE_CODE = None →
     cap (caps (Validate c).1) DIALOGFLOW_LANGUAGE_CODE = VStr "en-US")
  ∧ (caps c !! DIALOGFLOW_FORCE_INTENT_RESOLUTION = None →
     cap (caps (Validate c).1) DIALOGFLOW_FORCE_INTENT_RESOLUTION = VBool true)
  ∧ (caps c !! DIALOGFLOW_BUTTON_EVENTS = None →
     cap (caps (Validate c).1) DIALOGFLOW_BUTTON_EVENTS = VBool true)
  ∧ (caps c !! DIALOGFLOW_ENABLE_KNOWLEDGEBASE = None →
     cap (caps (Validate c).1) DIALOGFLOW_ENABLE_KNOWLEDGEBASE = VBool false)
  ∧ (∀ k, caps c !! k = None → Defaults !! k = None → caps (Validate c).1 !! k = None).
Proof.
  refine (conj _ (conj _ (conj _ (conj _ (conj _ _))))).
  - intros k v Hk Hv. rewrite Validate_caps by done.
    by apply lookup_union_Some_l.
  - intros Hnone. unfold cap. rewrite Validate_caps by done.
    rewrite lookup_union_r by done. reflexivity.
  - intros Hnone. unfold cap. rewrite Validate_caps by done.
    rewrite lookup_union_r by done. reflexivity.
  - intros Hnone. unfold cap. rewrite Validate_caps by done.
    rewrite lookup_union_r by done. reflexivity.
  - intros Hnone.
    assert (cap (caps c ∪ Defaults) DIALOGFLOW_ENABLE_KNOWLEDGEBASE = VBool false) as Hkb.
    { unfold cap. rewrite lookup_union_r by done. reflexivity. }
    unfold Validate. simpl.
    repeat (match goal with
            | |- context [if ?b then _ else _] => destruct b
            end; simpl; try done);
      rewrite Hkb; simpl; by destruct (List.find _ _).
  - intros k Hc Hd.
    destruct (decide (k = DIALOGFLOW_ENABLE_KNOWLEDGEBASE)) as [-> | Hne]; [done|].
    rewrite Validate_caps by done. by apply lookup_union_None.
Qed.

(** ** The names in the pending collection (lines 137 to 146) *)

Lemma names_merge_context (l : list Context) (x : Context) :
  (ctx_name x ∈ names l ∧ names (merge_context l x) = names l)
  ∨ ((ctx_name x ∉ names l)
     ∧ names (merge_context l x) = names l ++ [ctx_name x]).
Proof.
  unfold merge_context, names.
  destruct (list_find _ l) as [[i d]|] eqn:E.
  - apply list_find_Some in E as (Hi & Hd & _). left. split.
    + apply list_elem_of_fmap. exists d. split; [done|].
      apply list_elem_of_lookup. eauto.
    + rewrite list_fmap_insert. apply list_insert_id.
      rewrite list_lookup_fmap, Hi. simpl. by rewrite Hd.
  - apply list_find_None in E. right. split.
    + intros Hin. apply list_elem_of_fmap in Hin as (d & Hd & Hin).
      rewrite list.Forall_forall in E. by apply (E d).
    + by rewrite fmap_app.
Qed.

Lemma merge_contexts_NoDup (l customContexts : list Context) :
  NoDup (names l) → NoDup (names (merge_contexts l customContexts)).
Proof.
  unfold merge_contexts. revert l.
  induction customContexts as [|x xs IH]; intros l Hnd; simpl; [done|].
  apply IH. destruct (names_merge_context l x) as [[_ ->] | [Hnotin ->]]; [done|].
  apply NoDup_app. split; [done|]. split; [|apply NoDup_singleton].
  intros n Hn Hn'. apply list_elem_of_singleton in Hn'. by subst.
Qed.

(** X11.  Merging custom contexts never removes, renames or moves a context
    of the pending collection: the names of the collection are a prefix of
    the names after the merge, the names after the merge are those of the
    collection and of the custom contexts, the collection grows by at most
    one context per custom context, and a collection without two contexts of
    one name stays so. *)
Theorem merge_contexts_names (l customContexts : list Context) :
  prefix (names l) (names (merge_contexts l customContexts))
  ∧ (∀ n, n ∈ names (merge_contexts l customContexts)
          ↔ n ∈ names l ∨ n ∈ names customContexts)
  ∧ (List.length (merge_contexts l customContexts)
     ≤ List.length l + List.length customContexts)%nat
  ∧ (NoDup (names l) → NoDup (names (merge_contexts l customContexts))).
Proof.
  unfold merge_contexts. revert l.
  induction customContexts as [|x xs IH]; intros l; simpl.
  - split; [done|]. split; [|split; [lia | done]].
    intros n. change (names []) with (@nil string).
    split; [by left | intros [? | Hn]; [done|]].
    by apply elem_of_nil in Hn.
  - destruct (IH (merge_context l x)) as (Hprefix & Hnames & Hlen & Hnodup).
    destruct (names_merge_context l x) as [[Hin Heq] | [Hnotin Heq]].
    + rewrite Heq in Hprefix, Hnames, Hnodup.
      split; [done|]. split; [|split].
      * intros n. rewrite Hnames.
        change (names (x :: xs)) with (ctx_name x :: names xs). rewrite elem_of_cons.
        split; [intros [? | ?]; auto | intros [? | [-> | ?]]; auto].
      * assert (List.length (merge_context l x) = List.length l) as Hl.
        { rewrite <- (length_fmap ctx_name (merge_context l x)).
          fold (names (merge_context l x)). rewrite Heq. apply length_fmap. }
        rewrite Hl in Hlen. lia.
      * done.
    + rewrite Heq in Hprefix, Hnames, Hnodup.
      split; [by eapply prefix_app_l|]. split; [|split].
      * intros n. rewrite Hnames.
        change (names (x :: xs)) with (ctx_name x :: names xs).
        rewrite elem_of_app, list_elem_of_singleton, elem_of_cons.
        split; [intros [[? | ->] | ?]; auto | intros [? | [-> | ?]]; auto].
      * assert (List.length (merge_context l x) = S (List.length l)) as Hl.
        { rewrite <- (length_fmap ctx_name (merge_context l x)).
          fold (names (merge_context l x)). rewrite Heq, length_app.
          unfold names. rewrite length_fmap. simpl. lia. }
        rewrite Hl in Hlen. lia.
      * intros Hnd. apply Hnodup. apply NoDup_app. split; [done|].
        split; [|apply NoDup_singleton].
        intros n Hn Hn'. apply list_elem_of_singleton in Hn'. by subst.
Qed.

(** X12.  On a started connector whose pending contexts have distinct names,
    no request of the conversation holds two of the connector's contexts
    under one name, whatever custom contexts the messages supply and however
    [detectIntent] settles.  (What a message supplies as [contexts] through
    SET_DIALOGFLOW_QUERYPARAMS replaces the connector's list in the request
    and is sent as it is.) *)
Theorem requests_without_duplicate_names
    (turns : list (Msg * (Request → detected))) :
  ∀ (c : Connector) (l : list Context),
    started c → pending c = Some l → NoDup (names l) →
    ∀ r l', r ∈ (run c turns).2 → request_contexts r = Some (QContexts l') →
            NoDup (names l').
Proof.
  induction turns as [|[msg detectIntent] turns IH]; intros c l Hst Hl Hnd r l' Hr Hheld.
  - by apply elem_of_nil in Hr.
  - simpl in Hr.
    destruct (UserSays_pending c msg l detectIntent Hst Hl)
      as (r0 & Hsent & Hcar & Hres & Hrej & Hst' & _).
    destruct (run (after (UserSays c msg detectIntent)) turns) as [c' requests] eqn:Hrun.
    simpl in Hr. rewrite Hsent in Hr.
    pose proof (merge_contexts_NoDup l (custom_of c msg) Hnd) as Hmerged.
    apply elem_of_cons in Hr as [-> | Hr].
    + rewrite Hcar in Hheld. destruct (supplied msg "contexts"); by simplify_eq.
    + destruct (detectIntent r0) as [response|err] eqn:E.
      * apply (IH _ [] Hst' (Hres _ eq_refl) ltac:(constructor) r l');
          [by rewrite Hrun | done].
      * apply (IH _ _ Hst' (Hrej _ eq_refl) Hmerged r l'); [by rewrite Hrun | done].
Qed.

(** ** Entities under any key (lines 341 to 379) *)

Lemma fmap_flat_map {A B C} (f : A → list B) (g : B → C) (l : list A) :
  g <$> flat_map f l = flat_map (fun x => g <$> f x) l.
Proof.
  induction l as [|x l IH]; simpl; [done|]. by rewrite fmap_app, IH.
Qed.

Lemma _extractEntityValues_values (f : field number) :
  ∀ key path,
    entity_value <$> _extractEntityValues key f
    = entity_value <$> omap entity_of_leaf (leaves path f).
Proof.
  induction f as [k v | fs IH | values IH | | k] using field_induction;
    intros key path.
  - simpl. unfold entity_of_leaf. simpl.
    destruct v as [| n | s | b]; simpl; try done.
    destruct s; simpl; done.
  - rewrite _extractEntityValues_struct, _extractEntitiesFromFields_flat_map,
      leaves_struct, omap_flat_map, !fmap_flat_map.
    apply flat_map_ext_Forall. eapply Forall_impl; [exact IH|].
    intros [k f] Hf. simpl in *. apply Hf.
  - rewrite _extractEntityValues_list, leaves_list, omap_flat_map.
    unfold _extractEntitiesFromValues. rewrite !fmap_flat_map.
    apply flat_map_ext_Forall. apply list.Forall_forall. intros [i lv] Hin.
    apply elem_of_lookup_imap in Hin as (j & y & Heq & Hy). simplify_eq. simpl.
    rewrite list.Forall_forall in IH. apply IH.
    apply list_elem_of_lookup. eauto.
  - done.
  - done.
Qed.

(** X13.  Whatever the keys and the kinds of the leaves are, entity
    extraction yields the values that the scalar leaves store, converted to
    strings, in the order of the tree, leaving out the leaves that store null
    or undefined and those that store the empty string: the keys decide the
    names of the entities only, and a leaf of kind [nullValue] that stores
    the enum name [NULL_VALUE] yields the value [NULL_VALUE]. *)
Theorem entity_values_by_path (response : Response)
    (fs : list (string * field number)) :
  parameters (queryResult response) ≫= fields = Some fs →
  entity_value <$> _extractEntities response = entity_value <$> entities_by_path fs.
Proof.
  intros Hfs. unfold _extractEntities.
  destruct (parameters (queryResult response)) as [p|]; [|done].
  simpl in Hfs. rewrite Hfs.
  unfold entities_by_path.
  rewrite _extractEntitiesFromFields_flat_map, omap_flat_map, !fmap_flat_map.
  apply flat_map_ext_Forall. apply list.Forall_forall. intros [k f] _. simpl.
  apply _extractEntityValues_values.
Qed.

(** X21.  For every response parameter tree in which no struct sits under
    the empty top-level key, entity extraction returns one entity per scalar
    leaf that stores a value other than null, undefined and the empty string,
    named by the path of field keys and list indices joined with dots, with
    the stored value converted to a string; scalars and lists under the
    empty top-level key are among them, named [""] and [.0], [.1], ... *)
Theorem entity_names_by_path (response : Response)
    (fs : list (string * field number)) :
  parameters (queryResult response) ≫= fields = Some fs →
  Forall (fun kf => kf.1 = "" → ∀ below, kf.2 ≠ StructValue below) fs →
  _extractEntities response = entities_by_path fs.
Proof.
  intros Hfs Hkeys. unfold _extractEntities.
  destruct (parameters (queryResult response)) as [p|]; [|done].
  simpl in Hfs. rewrite Hfs. unfold entities_by_path.
  rewrite _extractEntitiesFromFields_flat_map, omap_flat_map.
  apply flat_map_ext_Forall. eapply Forall_impl; [exact Hkeys|].
  intros [k f] Hk. simpl in *.
  destruct (decide (k = "")) as [-> | Hne].
  - destruct f as [kind v | below | [values|] | kind].
    + simpl. unfold entity_of_leaf. simpl.
      destruct v as [| n | s | b]; simpl; try done.
      destruct s; simpl; done.
    + by destruct (Hk eq_refl below).
    + change (field_key "" "") with "".
      rewrite _extractEntityValues_list, leaves_list, omap_flat_map.
      unfold _extractEntitiesFromValues.
      apply flat_map_ext_Forall. apply list.Forall_forall. intros [i lv] _. simpl.
      change (element_key "" i) with (dotted ([""] ++ [index_to_string i])).
      apply _extractEntityValues_by_path; [done|].
      cbv [dotted app fold_left String.append]. discriminate.
    + done.
    + done.
  - change (field_key "" k) with (dotted [k]).
    by apply _extractEntityValues_by_path.
Qed.

(** ** Fallback intents that are not a list (lines 330 to 339) *)

Lemma prefix_append (x b : string) : String.prefix x (x +:+ b) = true.
Proof.
  induction x as [|a x IH]; [by destruct b|].
  rewrite string_app_cons. simpl. by destruct (ascii_dec a a).
Qed.

Lemma prefix_app_drop (p k : string) :
  String.prefix p k = true → k = p +:+ string_drop (String.length p) k.
Proof.
  revert k. induction p as [|a p IH]; intros k Hk; [by destruct k|].
  destruct k as [|b k]; simpl in Hk; [done|].
  destruct (ascii_dec a b) as [->|]; [|done].
  cbn [String.length string_drop]. rewrite string_app_cons. f_equal. by apply IH.
Qed.

Lemma string_includes_occurs (s x : string) :
  string_includes s x = true ↔ occurs_in x s.
Proof.
  unfold occurs_in. induction s as [|c r IH]; cbn [string_includes]; split.
  - intros Hor. apply orb_true_iff in Hor as [Hp | Hr]; [|done].
    apply prefix_app_drop in Hp. by exists "", (string_drop (String.length x) "").
  - intros (a & b & E). apply orb_true_iff. left.
    destruct a as [|c a]; [|by rewrite string_app_cons in E].
    change ("" +:+ x +:+ b) with (x +:+ b) in E. rewrite E. apply prefix_append.
  - intros Hor. apply orb_true_iff in Hor as [Hp | Hr].
    + apply prefix_app_drop in Hp.
      by exists "", (string_drop (String.length x) (String c r)).
    + apply IH in Hr as (a & b & ->). by exists (String c a), b.
  - intros (a & b & E). apply orb_true_iff.
    destruct a as [|c' a].
    + left. change ("" +:+ x +:+ b) with (x +:+ b) in E. rewrite E.
      apply prefix_append.
    + right. rewrite string_app_cons in E. injection E as -> ->.
      apply IH. by exists a, b.
Qed.

(** X14.  When DIALOGFLOW_FALLBACK_INTENTS is configured as a string and not
    as a list, [includes] is the one of strings: the incomprehension flag is
    set exactly when the display name of the intent occurs somewhere in that
    string, so also for a name that is only a part of a fallback intent's
    name. *)
Theorem fallback_string_matches_substrings (c : Connector) (response : Response)
    (i : Intent) (s : string) :
  intent (queryResult response) = Some i →
  cap (caps c) DIALOGFLOW_FALLBACK_INTENTS = VStr s →
  ∃ flag,
    _extractIntent c response
    = Return {| intent_name := Some (displayName i);
                confidence := Some (intentDetectionConfidence (queryResult response));
                incomprehension := flag |}
    ∧ (flag = Some true ↔ occurs_in (displayName i) s)
    ∧ (flag = None ↔ ¬ occurs_in (displayName i) s).
Proof.
  intros Hi Hs. unfold _extractIntent. rewrite Hi, Hs. simpl.
  pose proof (string_includes_occurs s (displayName i)) as Hin.
  destruct (string_includes s (displayName i)); eexists; (split; [done|]).
  - split; split; try done.
    + intros _. by apply Hin.
    + intros Hn. exfalso. apply Hn. by apply Hin.
  - split; split; try done.
    + intros Ho. apply Hin in Ho. done.
    + intros _ Ho. apply Hin in Ho. done.
Qed.

(** X15.  When DIALOGFLOW_FALLBACK_INTENTS is neither a list nor a string (as
    on a connector whose capabilities did not get the defaults of [Validate]),
    every response with an intent fails in the handler: the request was
    sent, the promise of [UserSays] rejects with the wrapped type error, no
    bot message is queued, and the pending contexts are reset. *)
Theorem UserSays_rejects_without_fallback_list (c : Connector) (msg : Msg)
    (detectIntent : Request → detected) (r : Request) (response : Response)
    (i : Intent) :
  started c → r ∈ sent (UserSays c msg detectIntent) →
  detectIntent r = Resolves response →
  intent (queryResult response) = Some i →
  isArray (cap (caps c) DIALOGFLOW_FALLBACK_INTENTS) = false →
  isString (cap (caps c) DIALOGFLOW_FALLBACK_INTENTS) = false →
  outcome (UserSays c msg detectIntent)
  = Return (Rejected (Error ("Cannot send message to dialogflow container: "
                             +:+ message_of
                                   (TypeError "this.caps.DIALOGFLOW_FALLBACK_INTENTS.includes"))))
  ∧ queued (UserSays c msg detectIntent) = []
  ∧ pending (after (UserSays c msg detectIntent)) = Some [].
Proof.
  intros Hst Hr Hd Hi Ha Hs.
  destruct (UserSays_resolved c msg detectIntent r response Hst Hr Hd)
    as (c1 & Hcaps & [q Hq] & Hafter & Hqd & Hout).
  rewrite Hafter.
  destruct (on_response_resets c1 response (ex_intro _ q Hq)) as (Hreset & _).
  rewrite (on_response_unfold c1 response q Hq) in Hqd, Hout.
  rewrite (_extractIntent_caps c c1 response Hcaps) in Hqd, Hout.
  unfold _extractIntent in Hqd, Hout. rewrite Hi in Hqd, Hout.
  destruct (cap (caps c) DIALOGFLOW_FALLBACK_INTENTS); try done.
Qed.

(** ** The event of a payload that parses (lines 119 to 124) *)

Lemma index_to_string_not_name (i : nat) (k : string) :
  k = "name" ∨ k = "languageCode" → index_to_string i ≠ k.
Proof.
  unfold index_to_string. intros [-> | ->]; destruct (Nat.to_uint i); done.
Qed.

Lemma get_prop_indexed {A B} (key : nat → string) (g : B → A) (l : list B) (k : string) :
  (∀ i, key i ≠ k) → get_prop (imap (fun i x => (key i, g x)) l) k = None.
Proof.
  revert key. induction l as [|x l IH]; intros key Hkey; simpl; [done|].
  destruct (String.eqb (key 0) k) eqn:E.
  - apply String.eqb_eq in E. by apply Hkey in E.
  - apply (IH (key ∘ S)). intros i. apply Hkey.
Qed.

(** X16.  When the payload of the pressed button parses as JSON, the event
    gets a name only from a [name] property of the parsed value: a payload
    that parses to a number, a boolean, null, a string or an array yields an
    event without a name, with the configured language code. *)
Theorem parsed_payload_event_name (caps0 : gmap string val) (msg : Msg)
    (b : Button) (bs : list Button) (s : string) (parsed : val) :
  truthy (cap caps0 DIALOGFLOW_BUTTON_EVENTS) = true →
  buttons msg = Some (b :: bs) →
  truthy (js_or (btn_text b) (btn_payload b)) = true →
  to_string (js_or (btn_payload b) (btn_text b)) = Some s →
  JSON_parse s = Some parsed →
  ∃ event,
    queryInput_of caps0 msg = QueryEvent event
    ∧ (get_prop (own_props parsed) "name" = None → get_prop event "name" = None)
    ∧ ((∀ fs, parsed ≠ VObj fs) →
       get_prop event "name" = None
       ∧ get_prop event "languageCode" = Some (cap caps0 DIALOGFLOW_LANGUAGE_CODE)).
Proof.
  intros Hbe Hb Htp Hs Hp. eexists. split.
  { unfold queryInput_of. rewrite Hbe, Hb, Htp, Hs. simpl. rewrite Hp. reflexivity. }
  assert (∀ k, k = "name" ∨ k = "languageCode" → (∀ fs, parsed ≠ VObj fs) →
               get_prop (own_props parsed) k = None) as Hnone.
  { intros k Hk Hno. destruct parsed as [| | | | t | | l | fs]; try done.
    - apply (get_prop_indexed index_to_string VStr).
      intros j. by apply index_to_string_not_name.
    - apply (get_prop_indexed index_to_string id).
      intros j. by apply index_to_string_not_name.
    - by destruct (Hno fs). }
  split.
  - intros Hn. by rewrite get_prop_assign_absent.
  - intros Hno. split.
    + rewrite get_prop_assign_absent; [done|]. apply Hnone; [by left | done].
    + rewrite get_prop_assign_absent; [done|]. apply Hnone; [by right | done].
Qed.

(** ** The custom contexts of a message (lines 296 to 328) *)

(** X17.  With a context client, a message with a truthy SET_DIALOGFLOW_CONTEXT
    gives one custom context per key, in the order of the keys, named by the
    context path of the key in the project and the conversation.  A value
    that is not an object is the lifespan itself and the context has no
    parameters; of an object the [lifespan] property is the lifespan, and
    when there is none the lifespan count is NaN, not 1.  Without
    SET_DIALOGFLOW_CONTEXT there is no custom context. *)
Theorem custom_contexts_by_key (c : Connector) (msg : Msg) :
  is_Some (contextClient c) →
  (truthy (SET_DIALOGFLOW_CONTEXT msg) = true →
   Forall2
     (fun (kv : string * val) x =>
        ctx_name x
        = contextPath (cap (caps c) DIALOGFLOW_PROJECT_ID) (conversationId c) (VStr kv.1)
        ∧ (isObject kv.2 = false →
           ctx_lifespanCount x = custom_lifespan kv.2 ∧ ctx_parameters x = None)
        ∧ (isObject kv.2 = true →
           ctx_lifespanCount x = custom_lifespan (member kv.2 "lifespan")
           ∧ (member kv.2 "lifespan" = VUndefined → ctx_lifespanCount x = NaN)
           ∧ (truthy (member kv.2 "parameters") = false → ctx_parameters x = None)))
     (own_props (SET_DIALOGFLOW_CONTEXT msg)) (custom_of c msg))
  ∧ (truthy (SET_DIALOGFLOW_CONTEXT msg) = false → custom_of c msg = []).
Proof.
  intros [v Hv].
  pose proof (_extractCustomContexts_defined c msg (ex_intro _ v Hv)) as Hdef.
  unfold _extractCustomContexts in Hdef. split; intros Ht; rewrite Ht in Hdef.
  - apply mapM_Return_Forall2 in Hdef.
    eapply Forall2_impl; [exact Hdef|].
    intros [contextName value] x. unfold _createCustomContext. rewrite Hv. simpl.
    destruct (isObject value) eqn:Ho; intros [= <-]; simpl;
      (split; [done|]); (split; [intros Hf | intros Hf]); try done.
    split; [done|]. split.
    + intros ->. reflexivity.
    + by intros ->.
  - cbv [mret completion_ret] in Hdef. by simplify_eq.
Qed.

(** ** The order of the context suffixes (lines 287 to 294) *)

Lemma units_leb_app (l a b : list N) :
  units_leb (l ++ a) (l ++ b) = units_leb a b.
Proof.
  induction l as [|x l IH]; [done|]. simpl. by rewrite N.ltb_irrefl.
Qed.

Lemma units_leb_total (l1 l2 : list N) :
  units_leb l1 l2 = true ∨ units_leb l2 l1 = true.
Proof.
  revert l2. induction l1 as [|x l1 IH]; intros [|y l2]; simpl; auto.
  destruct (N.ltb_spec x y), (N.ltb_spec y x); auto; lia.
Qed.

Lemma string_le_total : Total string_le.
Proof. intros a b. apply units_leb_total. Qed.

(** A string of ASCII characters has one code unit per byte, whatever
    follows it. *)
Lemma code_units_app_ascii (p s : string) :
  forallb (fun a => (N_of_ascii a <? 128)%N) (list_ascii_of_string p) = true →
  code_units (p +:+ s) = code_units p ++ code_units s.
Proof.
  induction p as [|a p IH]; [done|]. rewrite string_app_cons.
  cbn [list_ascii_of_string forallb]. intros Hp.
  apply andb_true_iff in Hp as [Ha Hp].
  assert ((N_of_ascii a <? 192)%N = true) as Hlow.
  { apply N.ltb_lt. apply N.ltb_lt in Ha. lia. }
  cbn [code_units]. cbv zeta. rewrite Hlow. cbn [app]. f_equal. by apply IH.
Qed.

Lemma string_drop_le (p a b : string) :
  forallb (fun a => (N_of_ascii a <? 128)%N) (list_ascii_of_string p) = true →
  String.prefix p a = true → String.prefix p b = true → string_le a b →
  string_le (string_drop (String.length p) a) (string_drop (String.length p) b).
Proof.
  intros Hp Ha Hb. unfold string_le.
  rewrite (prefix_app_drop p a Ha) at 1. rewrite (prefix_app_drop p b Hb) at 1.
  by rewrite !code_units_app_ascii, units_leb_app.
Qed.

Lemma string_drop_inj (p a b : string) :
  String.prefix p a = true → String.prefix p b = true →
  string_drop (String.length p) a = string_drop (String.length p) b → a = b.
Proof.
  intros Ha Hb Heq.
  rewrite (prefix_app_drop p a Ha), (prefix_app_drop p b Hb). by rewrite Heq.
Qed.

Lemma Sorted_string_drop (p : string) (keys : list string) :
  forallb (fun a => (N_of_ascii a <? 128)%N) (list_ascii_of_string p) = true →
  Forall (fun k => String.prefix p k = true) keys →
  Sorted string_le keys →
  Sorted string_le (string_drop (String.length p) <$> keys).
Proof.
  intros Hascii Hp Hs. induction Hs as [|k keys Hs IH Hhd]; [constructor|].
  apply Forall_cons in Hp as [Hk Hp]. simpl. constructor; [by apply IH|].
  destruct Hhd as [|k' keys' Hle]; [constructor|].
  apply Forall_cons in Hp as [Hk' _]. constructor. by apply string_drop_le.
Qed.

(** X18.  The context suffixes come in ascending order, by UTF-16 code
    units as [sort()] compares the capability names they are cut from, and
    no suffix comes twice: [Start] makes one
    initial context per capability DIALOGFLOW_INPUT_CONTEXT_NAME with a
    suffix, and [Validate] checks each suffix once. *)
Theorem contextSuffixes_sorted_distinct (c : Connector) :
  Sorted string_le (_getContextSuffixes c) ∧ NoDup (_getContextSuffixes c).
Proof.
  unfold _getContextSuffixes.
  set (keys := filter _ _).
  assert (Forall (fun k => String.prefix DIALOGFLOW_INPUT_CONTEXT_NAME k = true)
            (merge_sort string_le keys)) as Hp.
  { apply list.Forall_forall. intros k Hk. rewrite merge_sort_Permutation in Hk.
    by apply list_elem_of_filter in Hk as [Hk _]. }
  split.
  - apply Sorted_string_drop; [reflexivity | done |].
    apply (@Sorted_merge_sort _ string_le _ string_le_total).
  - apply NoDup_fmap_2_strong.
    + rewrite list.Forall_forall in Hp. intros a b Ha Hb.
      apply string_drop_inj; by apply Hp.
    + rewrite merge_sort_Permutation. apply NoDup_filter.
      apply NoDup_fst_map_to_list.
Qed.

(** ** The query parameters of a message (lines 148 to 153) *)

Lemma UserSays_request (c : Connector) (msg : Msg) (detectIntent : Request → detected)
    (r : Request) :
  r ∈ sent (UserSays c msg detectIntent) →
  ∃ c1, req_queryParams r = request_queryParams c1 msg.
Proof.
  unfold UserSays.
  destruct (sessionClient c); [|intros Hr; by apply elem_of_nil in Hr].
  destruct (_ ≫= _) as [c1|e]; [|intros Hr; by apply elem_of_nil in Hr].
  intros Hr. exists c1.
  destruct (detectIntent _) as [response|err];
    [destruct (on_response c1 response) as [[c2 qd] [u|e]]|];
    simpl in Hr; apply list_elem_of_singleton in Hr; by subst.
Qed.

(** X19.  In the request of [UserSays] the query parameters of the message win:
    under every name that [msg.SET_DIALOGFLOW_QUERYPARAMS] supplies, the
    request holds the value of the message (the last one, should the name
    come twice), whatever the connector has stored under that name; and the
    request holds a list of stored contexts only under [contexts], and only
    when the message supplies no property of that name. *)
Theorem message_queryParams_override (c : Connector) (msg : Msg)
    (detectIntent : Request → detected) (r : Request) :
  r ∈ sent (UserSays c msg detectIntent) →
  (∀ k v before behind,
     truthy (SET_DIALOGFLOW_QUERYPARAMS msg) = true →
     own_props (SET_DIALOGFLOW_QUERYPARAMS msg) = before ++ (k, v) :: behind →
     get_prop behind k = None →
     get_prop (req_queryParams r) k = Some (QVal v))
  ∧ (∀ k l,
       get_prop (req_queryParams r) k = Some (QContexts l) →
       k = "contexts"
       ∧ (truthy (SET_DIALOGFLOW_QUERYPARAMS msg) = false
          ∨ get_prop (own_props (SET_DIALOGFLOW_QUERYPARAMS msg)) k = None)).
Proof.
  intros Hr. destruct (UserSays_request c msg detectIntent r Hr) as [c1 ->].
  split.
  - intros k v before behind. apply request_queryParams_message.
  - intros k l Hget. split.
    + unfold request_queryParams in Hget.
      apply get_prop_assign_Some in Hget as [Hget | Hget].
      * apply get_prop_assign_Some in Hget as [Hget | Hget]; [done|].
        unfold queryParams_props in Hget.
        destruct (queryParams c1) as [q|]; [|by apply elem_of_nil in Hget].
        apply elem_of_app in Hget as [Hget | Hget].
        -- destruct (contexts q); [|by apply elem_of_nil in Hget].
           apply list_elem_of_singleton in Hget. by simplify_eq.
        -- destruct (knowledgeBaseNames q); [|by apply elem_of_nil in Hget].
           apply list_elem_of_singleton in Hget. by simplify_eq.
      * apply list_elem_of_fmap in Hget as ([k' v'] & Heq & _). done.
    + destruct (truthy (SET_DIALOGFLOW_QUERYPARAMS msg)) eqn:Ht; [|by left].
      right.
      destruct (get_prop (own_props (SET_DIALOGFLOW_QUERYPARAMS msg)) k) eqn:E;
        [|done].
      exfalso.
      destruct (get_prop_occurs_last (own_props (SET_DIALOGFLOW_QUERYPARAMS msg)) k)
        as (before & v' & behind & Hprops & Hbehind); [by rewrite E|].
      rewrite (request_queryParams_message c1 msg k v' before behind Ht Hprops Hbehind)
        in Hget.
      done.
Qed.

(** ** A restart (lines 75 to 108 and 264 to 270) *)

Lemma Start_agree (c c' : Connector) (uuid : string) (listKnowledgeBases : kb_listing) :
  caps c' = caps c → sessionOpts c' = sessionOpts c → kbNames c' = kbNames c →
  (Start c uuid listKnowledgeBases).2 = Resolved →
  Start c' uuid listKnowledgeBases = Start c uuid listKnowledgeBases.
Proof.
  destruct c, c'. simpl. intros -> -> ->. unfold Start. simpl.
  destruct (isBoolean _ && truthy _).
  - by destruct listKnowledgeBases.
  - by destruct (cap _ DIALOGFLOW_ENABLE_KNOWLEDGEBASE).
Qed.

Lemma UserSays_keeps (c : Connector) (msg : Msg) (detectIntent : Request → detected) :
  caps (after (UserSays c msg detectIntent)) = caps c
  ∧ sessionOpts (after (UserSays c msg detectIntent)) = sessionOpts c
  ∧ kbNames (after (UserSays c msg detectIntent)) = kbNames c.
Proof.
  unfold UserSays. destruct (sessionClient c); [|done].
  destruct (_extractCustomContexts c msg) as [customContexts|e]; simpl; [|done].
  destruct (merge_custom c customContexts) as [c1|e] eqn:Hm; simpl; [|done].
  pose proof (merge_custom_frame c c1 customContexts Hm) as (E1 & E2 & _ & E4 & _).
  destruct (detectIntent _) as [response|err]; simpl; [|done].
  pose proof (on_response_frame c1 response) as (F1 & F2 & _ & F4 & _).
  destruct (on_response c1 response) as [[c2 qd] [u|e]]; simpl in *;
    intuition congruence.
Qed.

Lemma run_keeps (turns : list (Msg * (Request → detected))) (c : Connector) :
  caps (run c turns).1 = caps c ∧ sessionOpts (run c turns).1 = sessionOpts c
  ∧ kbNames (run c turns).1 = kbNames c.
Proof.
  revert c. induction turns as [|[msg detectIntent] turns IH]; intros c; [done|].
  simpl. destruct (IH (after (UserSays c msg detectIntent))) as (E1 & E2 & E3).
  destruct (UserSays_keeps c msg detectIntent) as (F1 & F2 & F3).
  destruct (run (after (UserSays c msg detectIntent)) turns) as [c' requests].
  simpl in *. intuition congruence.
Qed.

(** X20.  A restart forgets the conversation: when [Start] resolves on a
    connector, then after any conversation on it, with or without a [Stop]
    in between, [Start] gives the very connector and promise that it gives
    at once: nothing that the conversation left (pending contexts, session
    path, clients) reaches the next conversation. *)
Theorem restart_forgets_conversation (c : Connector)
    (turns : list (Msg * (Request → detected)))
    (uuid : string) (listKnowledgeBases : kb_listing) :
  (Start c uuid listKnowledgeBases).2 = Resolved →
  Start (Stop (run c turns).1).1 uuid listKnowledgeBases
  = Start c uuid listKnowledgeBases
  ∧ Start (run c turns).1 uuid listKnowledgeBases = Start c uuid listKnowledgeBases.
Proof.
  intros Hres. destruct (run_keeps turns c) as (E1 & E2 & E3).
  split; by apply Start_agree.
Qed.

End Further.

(** * The properties on the sample conversation *)

Import SampleHost.

(** An equation between closed terms, settled by evaluating its left side. *)
Ltac by_evaluation :=
  lazymatch goal with
  | |- @eq ?T ?a ?b => vm_cast_no_check (@eq_refl T b)
  end.

Lemma sample_started : started Sample.connector.
Proof.
  unfold started. split; [|split].
  - exists V2. by_evaluation.
  - exists V2. by_evaluation.
  - exists [Sample.booking]. by_evaluation.
Defined.

Lemma sample_pending : pending Sample.connector = Some [Sample.booking].
Proof. by_evaluation. Defined.

Lemma custom_contexts_merged_by_name_witness :
  started Sample.connector ∧ pending Sample.connector = Some [Sample.booking]
  ∧ ∃ r,
      sent (UserSays Sample.connector Sample.with_contexts Sample.rejecting) = [r]
      ∧ request_contexts r
        = Some (QContexts [Sample.booking_again; Sample.payment_with_parameters])
      ∧ pending (after (UserSays Sample.connector Sample.with_contexts Sample.rejecting))
        = Some [Sample.booking_again; Sample.payment_with_parameters].
Proof.
  pose proof (custom_contexts_merged_by_name Sample.connector Sample.with_contexts
                [Sample.booking] Sample.rejecting sample_started sample_pending) as Hc.
  cbv zeta in Hc. destruct Hc as (_ & _ & (r & Hsent & Hheld & Hrej) & _).
  assert (fold_left merge_context (custom_of Sample.connector Sample.with_contexts)
            [Sample.booking]
          = [Sample.booking_again; Sample.payment_with_parameters]) as Hm
    by by_evaluation.
  assert (supplied Sample.with_contexts "contexts" = None) as Hs by by_evaluation.
  rewrite Hm, Hs in Hheld. rewrite Hm in Hrej.
  refine (conj sample_started (conj sample_pending _)).
  exists r. split; [exact Hsent|]. split; [exact Hheld|].
  exact (Hrej (Error "UNAVAILABLE") eq_refl).
Defined.

(** C2.  The claim fails on the code at a struct under the empty top-level
    key: line 350 tests the key prefix for truthiness, so the field [a] of the
    struct stored under the key [""] is named [a], where the path joined with
    dots is [.a].  The sibling paths keep the dot: an element of a list under
    the empty key is named [.0] (line 371), and a struct under an empty key
    below the top level names its field [a..b].  A null as the SDK delivers
    it, a leaf of kind [nullValue] that stores the enum name [NULL_VALUE], is
    not skipped either: the test of line 357 sees a string that is not
    empty. *)
Theorem entity_name_below_empty_key :
  _extractEntities (Sample.response_with Sample.empty_key_fields [])
  = [ {| entity_name := "a"; entity_value := "x" |} ]
  ∧ dotted [""; "a"] = ".a"
  ∧ _extractEntities (Sample.response_with Sample.empty_key_list [])
    = [ {| entity_name := ".0"; entity_value := "x" |} ]
  ∧ _extractEntities (Sample.response_with Sample.nested_empty_key [])
    = [ {| entity_name := "a..b"; entity_value := "x" |} ]
  ∧ _extractEntities (Sample.response_with Sample.null_leaf [])
    = [ {| entity_name := "n"; entity_value := "NULL_VALUE" |} ].
Proof. refine (conj _ (conj _ (conj _ (conj _ _)))); by_evaluation. Qed.

Lemma botMsg_by_first_variant_witness :
  botMsg_of Sample.bare Sample.text_message
  = Return (Some (with_messageText Sample.bare (Some "Hi there")))
  ∧ botMsg_of Sample.bare Sample.quickReplies_message
    = Return (Some (with_buttons Sample.bare
                      (Some [ {| bb_text := "Yes"; bb_payload := None |};
                              {| bb_text := "No"; bb_payload := None |} ])))
  ∧ botMsg_of Sample.bare Sample.card_message
    = Return (Some (with_cards (with_messageText Sample.bare (Some "Offer"))
                      (Some [ {| bcard_text := "Offer"; bcard_subtext := None;
                                 bcard_image :=
                                   Some {| mediaUri := "offer.png";
                                           mimeType := "image/png";
                                           altText := None |};
                                 bcard_buttons :=
                                   Some [ {| bb_text := "Buy";
                                             bb_payload := Some "buy" |} ] |} ])))
  ∧ botMsg_of Sample.bare Sample.carousel_message
    = Return (Some (with_cards Sample.bare
                      (Some [ {| bcard_text := "Red"; bcard_subtext := Some "a red one";
                                 bcard_image :=
                                   Some {| mediaUri := "red.png";
                                           mimeType := "image/png";
                                           altText := Some "red" |};
                                 bcard_buttons :=
                                   Some [ {| bb_text := "RED"; bb_payload := None |} ] |};
                              {| bcard_text := "Blue"; bcard_subtext := Some "";
                                 bcard_image := None; bcard_buttons := None |} ])))
  ∧ botMsg_of Sample.bare Sample.suggestions_message
    = Return (Some (with_buttons Sample.bare
                      (Some [ {| bb_text := "More"; bb_payload := None |};
                              {| bb_text := "Less"; bb_payload := None |} ])))
  ∧ botMsg_of Sample.bare Sample.no_variants = Return None
  ∧ queued (UserSays Sample.connector (Sample.plain "hello") Sample.resolving)
    = [ with_messageText (bare_of Sample.response (nlp_intent Sample.nlp0))
          (Some "Hi there") ].
Proof.
  set (sd := queryResult Sample.response).
  pose proof (botMsg_by_first_variant sd Sample.nlp0 Sample.text_message) as Ht.
  pose proof (botMsg_by_first_variant sd Sample.nlp0 Sample.quickReplies_message) as Hq.
  pose proof (botMsg_by_first_variant sd Sample.nlp0 Sample.card_message) as Hc.
  pose proof (botMsg_by_first_variant sd Sample.nlp0 Sample.carousel_message) as Hcs.
  pose proof (botMsg_by_first_variant sd Sample.nlp0 Sample.suggestions_message) as Hs.
  pose proof (botMsg_by_first_variant sd Sample.nlp0 Sample.no_variants) as Hn.
  refine (conj _ (conj _ (conj _ (conj _ (conj _ (conj _ _)))))).
  - exact (proj1 Ht _ eq_refl).
  - refine (proj1 (proj2 Hq) _ _ eq_refl). by repeat split.
  - refine (proj1 (proj2 (proj2 Hc)) _ _ eq_refl). by repeat split.
  - refine (proj1 (proj2 (proj2 (proj2 Hcs))) _ _ eq_refl). by repeat split.
  - refine (proj1 (proj2 (proj2 (proj2 (proj2 Hs)))) _ _ eq_refl). by repeat split.
  - refine (proj1 (proj1 (proj2 (proj2 (proj2 (proj2 (proj2 Hn)))))) _).
    by repeat split.
  - assert (sent (UserSays Sample.connector (Sample.plain "hello") Sample.resolving)
            = [request_of Sample.connector (Sample.plain "hello")]) as Hsent
      by by_evaluation.
    assert (request_of Sample.connector (Sample.plain "hello")
            ∈ sent (UserSays Sample.connector (Sample.plain "hello") Sample.resolving))
      as Hr by (rewrite Hsent; left).
    assert (_extractIntent Sample.connector Sample.response
            = Return (nlp_intent Sample.nlp0)) as Hi by by_evaluation.
    assert (∀ f, f ∈ selected Sample.connector Sample.response → breaks f = false)
      as Hok.
    { assert (selected Sample.connector Sample.response
              = [Sample.text_message; Sample.no_variants]) as -> by by_evaluation.
      intros f Hf. apply elem_of_cons in Hf as [-> | Hf]; [reflexivity|].
      apply list_elem_of_singleton in Hf as ->. reflexivity. }
    pose proof (proj2 (proj2 (proj2 (proj2 (proj2 (proj2 Hn)))))
                  Sample.connector (Sample.plain "hello") Sample.resolving _
                  Sample.response (nlp_intent Sample.nlp0)
                  sample_started Hr eq_refl Hi Hok) as Hturn.
    cbv zeta in Hturn. destruct Hturn as [Hqueued _].
    etransitivity; [exact Hqueued|]. by_evaluation.
Defined.

Lemma intent_extracted_witness :
  (∃ flag,
     _extractIntent Sample.connector Sample.response
     = Return {| intent_name := Some "Default Fallback Intent";
                 confidence := Some 1%Z; incomprehension := flag |}
     ∧ (flag = Some true
        ↔ VStr "Default Fallback Intent"
          ∈ [VStr (number := Z) "Default Fallback Intent"])
     ∧ (flag = None
        ↔ VStr "Default Fallback Intent"
          ∉ [VStr (number := Z) "Default Fallback Intent"]))
  ∧ cap (caps (Validate (constructor Sample.caps0)).1) DIALOGFLOW_FALLBACK_INTENTS
    = VArr [VStr "Default Fallback Intent"].
Proof.
  split.
  - refine (proj1 (intent_extracted Sample.connector Sample.response) _ _ eq_refl _).
    by_evaluation.
  - refine (proj1 (proj2 (intent_extracted (constructor Sample.caps0) Sample.response)) _).
    by_evaluation.
Defined.

Lemma button_event_or_text_query_witness :
  queryInput_of (caps Sample.connector) (Sample.pressed (VStr Sample.welcome_event))
  = QueryEvent [("languageCode", VStr "en-US"); ("name", VStr "WELCOME")]
  ∧ queryInput_of (caps Sample.connector) (Sample.pressed (VStr "WELCOME"))
    = QueryEvent [("name", VStr "WELCOME"); ("languageCode", VStr "en-US")]
  ∧ queryInput_of (caps Sample.connector) (Sample.plain "hello")
    = QueryText (VStr "hello") (VStr "en-US")
  ∧ ∃ r,
      sent (UserSays Sample.connector (Sample.pressed (VStr Sample.welcome_event))
              Sample.resolving) = [r]
      ∧ queryInput r
        = QueryEvent [("languageCode", VStr "en-US"); ("name", VStr "WELCOME")].
Proof.
  pose proof (button_event_or_text_query (caps Sample.connector)
                (Sample.pressed (VStr Sample.welcome_event))) as Hjson.
  pose proof (button_event_or_text_query (caps Sample.connector)
                (Sample.pressed (VStr "WELCOME"))) as Hname.
  pose proof (button_event_or_text_query (caps Sample.connector)
                (Sample.plain "hello")) as Htext.
  assert (truthy (cap (caps Sample.connector) DIALOGFLOW_BUTTON_EVENTS) = true) as Hbe
    by (by_evaluation).
  assert (JSON_parse Sample.welcome_event = Some (VObj [("name", VStr "WELCOME")]))
    as Hparse by (by_evaluation).
  assert (queryInput_of (caps Sample.connector)
            (Sample.pressed (VStr Sample.welcome_event))
          = QueryEvent [("languageCode", VStr "en-US"); ("name", VStr "WELCOME")])
    as Hevent
    by exact (proj1 (proj1 (proj1 Hjson _ _ Hbe eq_refl eq_refl) _ _ eq_refl Hparse)).
  split; [exact Hevent|]. split; [|split].
  - refine (proj2 (proj1 Hname _ _ Hbe eq_refl eq_refl) _).
    by_evaluation.
  - refine (proj1 (proj2 Htext) _). right. left. reflexivity.
  - destruct (proj2 (proj2 (proj2 Hjson)) Sample.connector Sample.resolving
                eq_refl sample_started) as (r & Hsent & Hq).
    exists r. split; [exact Hsent|]. by rewrite Hq.
Defined.

Lemma Validate_fails_fast_witness :
  (∃ k', k' ∈ [DIALOGFLOW_PROJECT_ID; DIALOGFLOW_CLIENT_EMAIL; DIALOGFLOW_PRIVATE_KEY]
         ∧ truthy (cap ((∅ : gmap string (value Z)) ∪ Defaults) k') = false
         ∧ (Validate (constructor (∅ : gmap string (value Z)))).2
           = Throw (Error (k' +:+ " capability required")))
  ∧ (∃ e, (Validate (constructor Sample.caps_without_lifespan)).2 = Throw e)
  ∧ (Validate (constructor Sample.caps0)).2 = Return Resolved.
Proof.
  split; [|split].
  - refine (proj1 (Validate_fails_fast (constructor ∅)) DIALOGFLOW_PROJECT_ID _ _).
    + left.
    + by_evaluation.
  - refine (proj1 (proj2 (Validate_fails_fast (constructor Sample.caps_without_lifespan)))
              "DIALOGFLOW_INPUT_CONTEXT_NAME_0" _ _ _).
    + exists (VStr "booking"). by_evaluation.
    + by_evaluation.
    + intros [_ Hlifespan]. vm_compute in Hlifespan. discriminate.
  - refine (proj2 (proj2 (proj2 (Validate_fails_fast (constructor Sample.caps0)))) _ _ _).
    + intros k Hk.
      apply elem_of_cons in Hk as [-> | Hk]; [by_evaluation|].
      apply elem_of_cons in Hk as [-> | Hk]; [by_evaluation|].
      apply list_elem_of_singleton in Hk as ->. by_evaluation.
    + cbv zeta. by_evaluation.
    + intros key [v Hv] Hprefix.
      apply elem_of_map_to_list in Hv.
      match type of Hv with _ ∈ ?L => remember L as entries eqn:E end.
      vm_compute in E. subst entries.
      repeat (apply elem_of_cons in Hv as [Hv | Hv];
              [injection Hv as -> ->;
               first [ discriminate Hprefix | split; by_evaluation ] |]).
      by apply elem_of_nil in Hv.
Defined.

Lemma detectIntent_once_and_rethrown_witness :
  started Sample.connector
  ∧ Sample.rejecting (request_of Sample.connector (Sample.plain "hello"))
    = Rejects (Error "UNAVAILABLE")
  ∧ outcome (UserSays Sample.connector (Sample.plain "hello") Sample.rejecting)
    = Return (Rejected (Error "Cannot send message to dialogflow container: UNAVAILABLE"))
  ∧ List.length (sent (UserSays Sample.connector (Sample.plain "hello") Sample.rejecting))
    = 1.
Proof.
  pose proof (detectIntent_once_and_rethrown Sample.connector (Sample.plain "hello")
                Sample.rejecting) as (Hrej & _ & Hone).
  split; [exact sample_started|]. split; [reflexivity|]. split.
  - refine (Hrej (request_of Sample.connector (Sample.plain "hello"))
              (Error "UNAVAILABLE") _ eq_refl).
    assert (sent (UserSays Sample.connector (Sample.plain "hello") Sample.rejecting)
            = [request_of Sample.connector (Sample.plain "hello")]) as ->
      by (by_evaluation).
    left.
  - exact (Hone sample_started).
Defined.

Lemma UserSays_not_built_witness :
  sessionClient (constructor Sample.caps0) = None
  ∧ UserSays (constructor Sample.caps0) (Sample.plain "hello") Sample.resolving
    = {| after := constructor Sample.caps0; sent := []; queued := [];
         outcome := Return (Rejected (Error "not built")) |}.
Proof.
  split; [reflexivity|].
  exact (proj1 (UserSays_not_built (constructor Sample.caps0) (Sample.plain "hello")
                  Sample.resolving) eq_refl).
Defined.

Lemma pending_contexts_reset_on_success_witness :
  started Sample.connector ∧ pending Sample.connector = Some [Sample.booking]
  ∧ ∃ r,
      sent (UserSays Sample.connector Sample.with_contexts Sample.resolving) = [r]
      ∧ request_contexts r
        = Some (QContexts [Sample.booking_again; Sample.payment_with_parameters])
      ∧ pending (after (UserSays Sample.connector Sample.with_contexts Sample.resolving))
        = Some [].
Proof.
  pose proof (pending_contexts_reset_on_success Sample.connector Sample.with_contexts
                [Sample.booking] Sample.resolving sample_started sample_pending) as Hc.
  cbv zeta in Hc. destruct Hc as (r & Hsent & Hheld & Hres & _).
  assert (merge_contexts [Sample.booking]
            (custom_of Sample.connector Sample.with_contexts)
          = [Sample.booking_again; Sample.payment_with_parameters]) as Hm
    by by_evaluation.
  assert (supplied Sample.with_contexts "contexts" = None) as Hs by by_evaluation.
  rewrite Hm, Hs in Hheld.
  refine (conj sample_started (conj sample_pending _)).
  exists r. split; [exact Hsent|]. split; [exact Hheld|].
  exact (proj1 (Hres Sample.response eq_refl)).
Defined.

(** C9, as stated, fails in two ways.  When the message of the first turn
    supplies [contexts] of its own through SET_DIALOGFLOW_QUERYPARAMS, the
    context seeded by [Start] is in no request at all, although every turn
    succeeds; and when [detectIntent] rejects on the first turn, that context
    is in the request of the first and of the second turn. *)
Lemma initial_context_never_or_twice :
  started Sample.connector
  ∧ pending Sample.connector = Some [Sample.booking]
  ∧ List.length
      (List.filter (carries_name Sample.booking_name)
         (run Sample.connector
            [ (Sample.with_queryParams_contexts, Sample.resolving);
              (Sample.plain "again", Sample.resolving) ]).2) = 0
  ∧ List.length
      (List.filter (carries_name Sample.booking_name)
         (run Sample.connector
            [ (Sample.plain "hello", Sample.rejecting);
              (Sample.plain "again", Sample.resolving);
              (Sample.plain "bye", Sample.resolving) ]).2) = 2.
Proof.
  split; [exact sample_started|]. split; [exact sample_pending|].
  split; by_evaluation.
Qed.



(** ** The further properties on the sample conversation *)

Lemma fulfillmentMessages_by_platform_witness :
  let all := [Sample.text_message; Sample.facebook_message] in
  select_fulfillmentMessages Sample.caps_facebook all
  = List.filter (platform_is (cap Sample.caps_facebook DIALOGFLOW_OUTPUT_PLATFORM)) all
  ∧ select_fulfillmentMessages Sample.caps0 all = List.filter platform_unspecified all.
Proof.
  intros all.
  pose proof (fulfillmentMessages_by_platform Sample.caps_facebook all) as Hf.
  pose proof (fulfillmentMessages_by_platform Sample.caps0 all) as Hu.
  cbv zeta in Hf, Hu. split.
  - refine (proj1 (proj2 Hf) _ _); [by_evaluation|].
    exists Sample.facebook_message. split; [right; left | by_evaluation].
  - refine (proj1 Hu _). by_evaluation.
Defined.

Lemma UserSays_queues_in_order_witness :
  started Sample.connector
  ∧ Sample.resolving (request_of Sample.connector (Sample.plain "hello"))
    = Resolves Sample.response
  ∧ outcome (UserSays Sample.connector (Sample.plain "hello") Sample.resolving)
    = Return Resolved
  ∧ queued (UserSays Sample.connector (Sample.plain "hello") Sample.resolving) ≠ [].
Proof.
  assert (sent (UserSays Sample.connector (Sample.plain "hello") Sample.resolving)
          = [request_of Sample.connector (Sample.plain "hello")]) as Hsent
    by by_evaluation.
  assert (_extractIntent Sample.connector Sample.response
          = Return (nlp_intent Sample.nlp0)) as Hi by by_evaluation.
  assert (∀ f, f ∈ selected Sample.connector Sample.response → breaks f = false) as Hok.
  { assert (selected Sample.connector Sample.response
            = [Sample.text_message; Sample.no_variants]) as -> by by_evaluation.
    intros f Hf. apply elem_of_cons in Hf as [-> | Hf]; [reflexivity|].
    apply list_elem_of_singleton in Hf as ->. reflexivity. }
  assert (request_of Sample.connector (Sample.plain "hello")
          ∈ sent (UserSays Sample.connector (Sample.plain "hello") Sample.resolving))
    as Hr by (rewrite Hsent; left).
  pose proof (UserSays_queues_in_order Sample.connector (Sample.plain "hello")
                Sample.resolving _ Sample.response (nlp_intent Sample.nlp0)
                sample_started Hr eq_refl Hi Hok) as Hq.
  cbv zeta in Hq. destruct Hq as (Hout & _ & Hne).
  split; [exact sample_started|]. split; [reflexivity|]. split; [exact Hout|].
  apply Hne. by_evaluation.
Defined.

Lemma UserSays_queues_before_failure_witness :
  started Sample.connector
  ∧ selected Sample.connector Sample.response_broken
    = [Sample.text_message] ++ Sample.empty_simpleResponses :: [Sample.quickReplies_message]
  ∧ breaks Sample.empty_simpleResponses = true
  ∧ outcome (UserSays Sample.connector (Sample.plain "hello") Sample.resolving_broken)
    = Return (Rejected (Error ("Cannot send message to dialogflow container: "
                               +:+ message_of (TypeError "simpleResponses[0].textToSpeech"))))
  ∧ queued (UserSays Sample.connector (Sample.plain "hello") Sample.resolving_broken)
    = omap (accepted (bare_of Sample.response_broken (nlp_intent Sample.nlp0)))
        [Sample.text_message]
  ∧ pending (after (UserSays Sample.connector (Sample.plain "hello")
                      Sample.resolving_broken)) = Some [].
Proof.
  assert (sent (UserSays Sample.connector (Sample.plain "hello") Sample.resolving_broken)
          = [request_of Sample.connector (Sample.plain "hello")]) as Hsent
    by by_evaluation.
  assert (_extractIntent Sample.connector Sample.response_broken
          = Return (nlp_intent Sample.nlp0)) as Hi by by_evaluation.
  assert (selected Sample.connector Sample.response_broken
          = [Sample.text_message] ++ Sample.empty_simpleResponses
            :: [Sample.quickReplies_message]) as Hsel by by_evaluation.
  assert (∀ g, g ∈ [Sample.text_message] → breaks g = false) as Hok.
  { intros g Hg. apply list_elem_of_singleton in Hg as ->. reflexivity. }
  assert (request_of Sample.connector (Sample.plain "hello")
          ∈ sent (UserSays Sample.connector (Sample.plain "hello")
                    Sample.resolving_broken))
    as Hr by (rewrite Hsent; left).
  split; [exact sample_started|]. split; [exact Hsel|]. split; [reflexivity|].
  exact (UserSays_queues_before_failure Sample.connector (Sample.plain "hello")
           Sample.resolving_broken _ Sample.response_broken (nlp_intent Sample.nlp0)
           [Sample.text_message] [Sample.quickReplies_message]
           Sample.empty_simpleResponses
           sample_started Hr eq_refl Hi Hsel Hok eq_refl).
Defined.

Lemma Start_seeds_contexts_witness :
  (Start Sample.built "c0ffee" (KbResolves None)).2 = Resolved
  ∧ started Sample.connector
  ∧ conversationId Sample.connector = VStr "c0ffee"
  ∧ sessionClient Sample.connector = Some V2.
Proof.
  assert ((Start Sample.built "c0ffee" (KbResolves None)).2 = Resolved) as Hres
    by by_evaluation.
  pose proof (Start_seeds_contexts Sample.built "c0ffee" (KbResolves None) Hres) as Hs.
  cbv zeta in Hs. destruct Hs as (Hst & _ & Hid & _ & Hsc & _).
  split; [exact Hres|]. split; [exact Hst|]. split; [exact Hid|].
  assert (kbNames Sample.connector = None) as Hkb by by_evaluation.
  unfold Sample.connector in Hkb |- *. rewrite Hsc, Hkb. reflexivity.
Defined.

Lemma knowledgeBaseNames_never_sent_witness :
  (Start Sample.kb_built "c0ffee"
     (KbResolves (Some ["projects/botium/knowledgeBases/kb1"]))).2 = Resolved
  ∧ kbNames Sample.kb_connector = Some [VStr "projects/botium/knowledgeBases/kb1"]
  ∧ sessionClient Sample.kb_connector = Some V2beta1
  ∧ ∀ r l, r ∈ (run Sample.kb_connector [(Sample.plain "hello", Sample.resolving)]).2 →
           get_prop (req_queryParams r) "knowledgeBaseNames" ≠ Some (QNames l).
Proof.
  assert ((Start Sample.kb_built "c0ffee"
             (KbResolves (Some ["projects/botium/knowledgeBases/kb1"]))).2 = Resolved)
    as Hres by by_evaluation.
  split; [exact Hres|]. split; [by_evaluation|]. split; [by_evaluation|].
  exact (knowledgeBaseNames_never_sent Sample.kb_built "c0ffee" _
           [(Sample.plain "hello", Sample.resolving)] Hres).
Defined.

Lemma Start_lists_knowledge_bases_witness :
  cap (caps Sample.kb_built) DIALOGFLOW_ENABLE_KNOWLEDGEBASE = VBool true
  ∧ (Start Sample.kb_built "c0ffee" (KbRejects (Error "UNAVAILABLE"))).2
    = Rejected (Error "UNAVAILABLE")
  ∧ cap (caps Sample.built) DIALOGFLOW_ENABLE_KNOWLEDGEBASE ≠ VBool true
  ∧ Start Sample.built "c0ffee" (KbRejects (Error "UNAVAILABLE"))
    = Start Sample.built "c0ffee" (KbResolves None).
Proof.
  assert (cap (caps Sample.kb_built) DIALOGFLOW_ENABLE_KNOWLEDGEBASE = VBool true)
    as Hkb by by_evaluation.
  assert (cap (caps Sample.built) DIALOGFLOW_ENABLE_KNOWLEDGEBASE ≠ VBool true) as Hno.
  { assert (cap (caps Sample.built) DIALOGFLOW_ENABLE_KNOWLEDGEBASE = VBool false)
      as -> by by_evaluation.
    intros Hx. discriminate Hx. }
  split; [exact Hkb|]. split.
  - exact (proj1 (proj1 (Start_lists_knowledge_bases Sample.kb_built "c0ffee")
                    (Error "UNAVAILABLE") Hkb)).
  - split; [exact Hno|].
    exact (proj2 (Start_lists_knowledge_bases Sample.built "c0ffee") _ _ Hno).
Defined.

Lemma UserSays_throws_without_contexts_witness :
  is_Some (sessionClient Sample.restart_failed)
  ∧ is_Some (contextClient Sample.restart_failed)
  ∧ pending Sample.restart_failed = None
  ∧ custom_of Sample.restart_failed Sample.with_contexts ≠ []
  ∧ ∃ e, UserSays Sample.restart_failed Sample.with_contexts Sample.resolving
         = {| after := Sample.restart_failed; sent := []; queued := [];
              outcome := Throw e |}.
Proof.
  assert (is_Some (sessionClient Sample.restart_failed)) as Hs
    by (exists V2beta1; by_evaluation).
  assert (is_Some (contextClient Sample.restart_failed)) as Hc
    by (exists V2; by_evaluation).
  assert (pending Sample.restart_failed = None) as Hp by by_evaluation.
  assert (custom_of Sample.restart_failed Sample.with_contexts ≠ []) as Hne.
  { assert (List.length (custom_of Sample.restart_failed Sample.with_contexts) = 2)
      as Hlen by by_evaluation.
    intros Heq. rewrite Heq in Hlen. discriminate Hlen. }
  refine (conj Hs (conj Hc (conj Hp (conj Hne _)))).
  exact (proj1 (UserSays_throws_without_contexts Sample.restart_failed
                  Sample.with_contexts Sample.resolving Hs Hc Hp) Hne).
Defined.

Lemma Validate_knowledgebase_check_witness :
  cap (Sample.caps_kb_string ∪ Defaults) DIALOGFLOW_ENABLE_KNOWLEDGEBASE = VStr "true"
  ∧ caps (Validate (constructor Sample.caps_kb_string)).1
      !! DIALOGFLOW_ENABLE_KNOWLEDGEBASE = Some (VBool true).
Proof.
  assert (cap (Sample.caps_kb_string ∪ Defaults) DIALOGFLOW_ENABLE_KNOWLEDGEBASE
          = VStr "true") as Hkb by by_evaluation.
  split; [exact Hkb|].
  pose proof (Validate_knowledgebase_check (constructor Sample.caps_kb_string)) as Hv.
  cbv zeta in Hv.
  assert (truthy (cap (caps (constructor Sample.caps_kb_string) ∪ Defaults)
                    DIALOGFLOW_PROJECT_ID) = true) as Hp by by_evaluation.
  assert (truthy (cap (caps (constructor Sample.caps_kb_string) ∪ Defaults)
                    DIALOGFLOW_CLIENT_EMAIL) = true) as He by by_evaluation.
  assert (truthy (cap (caps (constructor Sample.caps_kb_string) ∪ Defaults)
                    DIALOGFLOW_PRIVATE_KEY) = true) as Hk by by_evaluation.
  refine (proj1 (proj2 (Hv Hp He Hk)) "true" Hkb _). intros Hx. discriminate Hx.
Defined.

Lemma Validate_applies_defaults_witness :
  Sample.caps0 !! DIALOGFLOW_LANGUAGE_CODE = None
  ∧ cap (caps (Validate (constructor Sample.caps0)).1) DIALOGFLOW_LANGUAGE_CODE
    = VStr "en-US"
  ∧ caps (Validate (constructor Sample.caps0)).1 !! DIALOGFLOW_PROJECT_ID
    = Some (VStr "botium").
Proof.
  assert (Sample.caps0 !! DIALOGFLOW_LANGUAGE_CODE = None) as Hnone by by_evaluation.
  pose proof (Validate_applies_defaults (constructor Sample.caps0))
    as (Hkeep & Hlang & _).
  split; [exact Hnone|]. split; [exact (Hlang Hnone)|].
  refine (Hkeep DIALOGFLOW_PROJECT_ID _ _ _);
    [intros Hx; discriminate Hx | by_evaluation].
Defined.

Lemma merge_contexts_names_witness :
  NoDup (names [Sample.booking])
  ∧ NoDup (names (merge_contexts [Sample.booking]
                    (custom_of Sample.connector Sample.with_contexts))).
Proof.
  assert (NoDup (names [Sample.booking])) as Hnd by apply NoDup_singleton.
  split; [exact Hnd|].
  exact (proj2 (proj2 (proj2 (merge_contexts_names [Sample.booking]
                                (custom_of Sample.connector Sample.with_contexts))))
           Hnd).
Defined.

Lemma requests_without_duplicate_names_witness :
  started Sample.connector ∧ pending Sample.connector = Some [Sample.booking]
  ∧ NoDup (names [Sample.booking])
  ∧ ∀ r l', r ∈ (run Sample.connector
                   [ (Sample.with_contexts, Sample.rejecting);
                     (Sample.with_contexts, Sample.resolving) ]).2 →
            request_contexts r = Some (QContexts l') → NoDup (names l').
Proof.
  assert (NoDup (names [Sample.booking])) as Hnd by apply NoDup_singleton.
  refine (conj sample_started (conj sample_pending (conj Hnd _))).
  exact (requests_without_duplicate_names _ Sample.connector [Sample.booking]
           sample_started sample_pending Hnd).
Defined.

Lemma entity_values_by_path_witness :
  entity_value
    <$> _extractEntities
          (Sample.response_with (Sample.empty_key_fields ++ Sample.null_leaf) [])
  = ["x"; "NULL_VALUE"].
Proof.
  etransitivity.
  - exact (entity_values_by_path
             (Sample.response_with (Sample.empty_key_fields ++ Sample.null_leaf) [])
             (Sample.empty_key_fields ++ Sample.null_leaf) eq_refl).
  - by_evaluation.
Defined.

Lemma entity_names_by_path_witness :
  Forall (fun kf : string * field Z => kf.1 = "" → ∀ below, kf.2 ≠ StructValue below)
    (Sample.empty_key_list ++ Sample.nested_fields)
  ∧ _extractEntities
      (Sample.response_with (Sample.empty_key_list ++ Sample.nested_fields) [])
    = [ {| entity_name := ".0"; entity_value := "x" |};
        {| entity_name := "date"; entity_value := "2019-05-01" |};
        {| entity_name := "guest.name"; entity_value := "Ann" |};
        {| entity_name := "guest.age"; entity_value := "30" |};
        {| entity_name := "rooms.0"; entity_value := "1" |};
        {| entity_name := "rooms.2.beds"; entity_value := "2" |} ].
Proof.
  assert (Forall (fun kf : string * field Z =>
                    kf.1 = "" → ∀ below, kf.2 ≠ StructValue below)
            (Sample.empty_key_list ++ Sample.nested_fields)) as Hkeys.
  { repeat constructor; intros Hk; try discriminate Hk; intros below Hb;
      discriminate Hb. }
  split; [exact Hkeys|].
  etransitivity.
  - exact (entity_names_by_path
             (Sample.response_with (Sample.empty_key_list ++ Sample.nested_fields) [])
             (Sample.empty_key_list ++ Sample.nested_fields) eq_refl Hkeys).
  - by_evaluation.
Defined.

(** The order of [sort()] on a character beyond the Basic Multilingual Plane
    and one above the surrogates: by code units U+1F600 comes first, by bytes
    it would come last. *)
Lemma code_units_beyond_BMP :
  code_units Sample.grinning_face = [55357; 56832]%N
  ∧ code_units Sample.fullwidth_tilde = [65374]%N
  ∧ merge_sort string_le [Sample.fullwidth_tilde; Sample.grinning_face]
    = [Sample.grinning_face; Sample.fullwidth_tilde].
Proof. refine (conj _ (conj _ _)); by_evaluation. Qed.

Lemma fallback_string_matches_substrings_witness :
  cap (caps (constructor Sample.caps_fallback_string)) DIALOGFLOW_FALLBACK_INTENTS
  = VStr "Default Fallback Intent"
  ∧ occurs_in "Fallback" "Default Fallback Intent"
  ∧ ∃ flag,
      _extractIntent (constructor Sample.caps_fallback_string) Sample.fallback_response
      = Return {| intent_name := Some "Fallback"; confidence := Some 1%Z;
                  incomprehension := flag |}
      ∧ flag = Some true.
Proof.
  assert (cap (caps (constructor Sample.caps_fallback_string)) DIALOGFLOW_FALLBACK_INTENTS
          = VStr "Default Fallback Intent") as Hs by by_evaluation.
  assert (occurs_in "Fallback" "Default Fallback Intent") as Ho
    by (exists "Default ", " Intent"; reflexivity).
  split; [exact Hs|]. split; [exact Ho|].
  pose proof (fallback_string_matches_substrings
                (constructor Sample.caps_fallback_string)
                Sample.fallback_response {| displayName := "Fallback" |}
                "Default Fallback Intent" eq_refl Hs) as (flag & Hi & Hflag & _).
  exists flag. split; [exact Hi | by apply Hflag].
Defined.

Lemma sample_unvalidated_started : started Sample.unvalidated.
Proof.
  unfold started. split; [|split].
  - exists V2. by_evaluation.
  - exists V2. by_evaluation.
  - exists [Sample.booking]. by_evaluation.
Defined.

Lemma UserSays_rejects_without_fallback_list_witness :
  started Sample.unvalidated
  ∧ isArray (cap (caps Sample.unvalidated) DIALOGFLOW_FALLBACK_INTENTS) = false
  ∧ isString (cap (caps Sample.unvalidated) DIALOGFLOW_FALLBACK_INTENTS) = false
  ∧ outcome (UserSays Sample.unvalidated (Sample.plain "hello") Sample.resolving)
    = Return (Rejected (Error ("Cannot send message to dialogflow container: "
                               +:+ message_of
                                     (TypeError "this.caps.DIALOGFLOW_FALLBACK_INTENTS.includes"))))
  ∧ queued (UserSays Sample.unvalidated (Sample.plain "hello") Sample.resolving) = []
  ∧ pending (after (UserSays Sample.unvalidated (Sample.plain "hello") Sample.resolving))
    = Some [].
Proof.
  assert (sent (UserSays Sample.unvalidated (Sample.plain "hello") Sample.resolving)
          = [request_of Sample.unvalidated (Sample.plain "hello")]) as Hsent
    by by_evaluation.
  assert (request_of Sample.unvalidated (Sample.plain "hello")
          ∈ sent (UserSays Sample.unvalidated (Sample.plain "hello") Sample.resolving))
    as Hr by (rewrite Hsent; left).
  assert (isArray (cap (caps Sample.unvalidated) DIALOGFLOW_FALLBACK_INTENTS) = false)
    as Ha by by_evaluation.
  assert (isString (cap (caps Sample.unvalidated) DIALOGFLOW_FALLBACK_INTENTS) = false)
    as Hs by by_evaluation.
  refine (conj sample_unvalidated_started (conj Ha (conj Hs _))).
  exact (UserSays_rejects_without_fallback_list Sample.unvalidated (Sample.plain "hello")
           Sample.resolving _ Sample.response {| displayName := "Default Fallback Intent" |}
           sample_unvalidated_started Hr eq_refl eq_refl Ha Hs).
Defined.

Lemma parsed_payload_event_name_witness :
  JSON_parse "42" = Some (VNum 42%Z)
  ∧ ∃ event,
      queryInput_of (caps Sample.connector) (Sample.pressed (VStr "42")) = QueryEvent event
      ∧ get_prop event "name" = None
      ∧ get_prop event "languageCode"
        = Some (cap (caps Sample.connector) DIALOGFLOW_LANGUAGE_CODE).
Proof.
  assert (JSON_parse "42" = Some (VNum 42%Z)) as Hparse by by_evaluation.
  assert (truthy (cap (caps Sample.connector) DIALOGFLOW_BUTTON_EVENTS) = true) as Hbe
    by by_evaluation.
  split; [exact Hparse|].
  pose proof (parsed_payload_event_name (caps Sample.connector)
                (Sample.pressed (VStr "42"))
                _ _ "42" (VNum 42%Z) Hbe eq_refl eq_refl eq_refl Hparse)
    as (event & Hq & _ & Hname).
  exists event. split; [exact Hq|]. apply Hname. intros fs Hx. discriminate Hx.
Defined.

Lemma custom_contexts_by_key_witness :
  is_Some (contextClient Sample.connector)
  ∧ truthy (SET_DIALOGFLOW_CONTEXT Sample.with_contexts) = true
  ∧ List.length (custom_of Sample.connector Sample.with_contexts) = 2
  ∧ custom_of Sample.connector (Sample.plain "hello") = [].
Proof.
  assert (is_Some (contextClient Sample.connector)) as Hc by (exists V2; by_evaluation).
  pose proof (custom_contexts_by_key Sample.connector Sample.with_contexts Hc)
    as [Hset _].
  pose proof (custom_contexts_by_key Sample.connector (Sample.plain "hello") Hc)
    as [_ Hnone].
  refine (conj Hc (conj eq_refl (conj _ (Hnone eq_refl)))).
  apply Forall2_length in Hset; [|reflexivity]. by rewrite <- Hset.
Defined.

Lemma message_queryParams_override_witness :
  request_of Sample.connector Sample.with_queryParams_contexts
  ∈ sent (UserSays Sample.connector Sample.with_queryParams_contexts Sample.resolving)
  ∧ get_prop (req_queryParams
                (request_of Sample.connector Sample.with_queryParams_contexts))
      "contexts" = Some (QVal (VArr [])).
Proof.
  assert (sent (UserSays Sample.connector Sample.with_queryParams_contexts
                  Sample.resolving)
          = [request_of Sample.connector Sample.with_queryParams_contexts]) as Hsent
    by by_evaluation.
  assert (request_of Sample.connector Sample.with_queryParams_contexts
          ∈ sent (UserSays Sample.connector Sample.with_queryParams_contexts
                    Sample.resolving))
    as Hr by (rewrite Hsent; left).
  split; [exact Hr|].
  exact (proj1 (message_queryParams_override Sample.connector
                  Sample.with_queryParams_contexts Sample.resolving _ Hr)
           "contexts" (VArr []) [] [] eq_refl eq_refl eq_refl).
Defined.

Lemma restart_forgets_conversation_witness :
  (Start Sample.connector "beef" (KbResolves None)).2 = Resolved
  ∧ Start (Stop (run Sample.connector [(Sample.with_contexts, Sample.rejecting)]).1).1
      "beef" (KbResolves None)
    = Start Sample.connector "beef" (KbResolves None).
Proof.
  assert ((Start Sample.connector "beef" (KbResolves None)).2 = Resolved) as Hres
    by by_evaluation.
  split; [exact Hres|].
  exact (proj1 (restart_forgets_conversation Sample.connector
                  [(Sample.with_contexts, Sample.rejecting)] "beef" (KbResolves None)
                  Hres)).
Defined.
